(** * GlobalTagThrottler: a shallow embedding of
      fdbserver/GlobalTagThrottler.actor.cpp

    The controller keeps three hash tables (per-tag statistics, per-server
    per-tag throughput counters, per-server throttling ratios) and a change
    counter.  Every [double] of the source is a binary64 float here
    ([PrimFloat.float]), so that [==], [<], [/] and the results of a division
    by zero are the ones the C++ code computes.  An [std::unordered_map] is an
    association list without repeated keys whose order is the iteration order
    of the table; the source fixes no order, so statements either hold for
    every order or name the order they are about.  [ASSERT]s and
    [Optional::get] on an absent value are the only faults; they are threaded
    through the error monad [Res].

    The [Smoother] class is not among the sources: a smoother is its level
    and the two smoothed readings it gives at the current instant, and time
    passing is an event that moves the readings.

    [getClientRates] calls [getLimitingTps], which in this revision never
    returns a value (the guard of [getLimitingCost]).  So that the code of
    the rate derivation can be examined for what it does itself, the loop of
    [getClientRates] is written over the limiting-TPS function it calls, and
    the code of [getLimitingTps] is given a second time over the
    limiting-cost function it calls; the examples run both with the limiting
    cost of the specification, and a later section states what the guard
    does to whole runs.

    The mock storage servers, the clients, the updater and the monitor of
    the tests (namespace [GlobalTagThrottlerTesting]) are embedded as well:
    an actor that loops over a [delay] is given by one round of its loop, on
    the state the round finds after the delay. *)

From Stdlib Require Import List ZArith Bool String Lia Floats.
Import ListNotations.

Set Implicit Arguments.

(* ================================================================== *)
(** ** Faults *)

Inductive Res (A : Type) : Type :=
  | Ok (a : A)
  | AssertionFailed.

Arguments Ok {A} a.
Arguments AssertionFailed {A}.

Definition bind {A B : Type} (m : Res A) (k : A -> Res B) : Res B :=
  match m with
  | Ok a => k a
  | AssertionFailed => AssertionFailed
  end.

Notation "x <- m ;; k" := (bind m (fun x => k))
  (at level 61, m at next level, right associativity).
Notation "m ;;; k" := (bind m (fun _ => k))
  (at level 61, right associativity).

(** [ASSERT(b)] and [ASSERT_GT(a, b)] of flow: a failed assertion ends the
    call. *)
Definition ASSERT (b : bool) : Res unit :=
  if b then Ok tt else AssertionFailed.

(* ================================================================== *)
(** ** Optional<T> *)

Definition present {A : Type} (o : option A) : bool :=
  match o with Some _ => true | None => false end.

(** [Optional<T>::get()] (flow's Optional is not among the sources) asserts
    that the value is present. *)
Definition Optional_get {A : Type} (o : option A) : Res A :=
  match o with Some a => Ok a | None => AssertionFailed end.

Definition orDefault {A : Type} (o : option A) (d : A) : A :=
  match o with Some a => a | None => d end.

(* ================================================================== *)
(** ** double *)

(** [std::min(a, b)] is [(b < a) ? b : a] and [std::max(a, b)] is
    [(a < b) ? b : a]; with a NaN operand both return [a]. *)
Definition std_min (a b : float) : float := if (b <? a)%float then b else a.
Definition std_max (a b : float) : float := if (a <? b)%float then b else a.

(** The comparisons of [double], as propositions. *)
Definition isNumber (x : float) : Prop := is_nan x = false.
Definition fle (x y : float) : Prop := (x <=? y)%float = true.
Definition flt (x y : float) : Prop := (x <? y)%float = true.

(** Where a [double] that is not a NaN stands in the order: its sign class,
    then exponent and mantissa (negated for negative numbers), compared
    lexicographically. *)
Definition rank (f : spec_float) : option (Z * Z * Z) :=
  match f with
  | S754_nan => None
  | S754_infinity true => Some (-2, 0, 0)%Z
  | S754_infinity false => Some (2, 0, 0)%Z
  | S754_zero _ => Some (0, 0, 0)%Z
  | S754_finite true m e => Some (-1, - e, Zneg m)%Z
  | S754_finite false m e => Some (1, e, Zpos m)%Z
  end.

Definition frank (x : float) : option (Z * Z * Z) := rank (Prim2SF x).

Definition lexCompare (a b : Z * Z * Z) : comparison :=
  match (fst (fst a) ?= fst (fst b))%Z with
  | Eq => match (snd (fst a) ?= snd (fst b))%Z with
          | Eq => (snd a ?= snd b)%Z
          | c => c
          end
  | c => c
  end.

Definition lexLt (a b : Z * Z * Z) : Prop :=
  (fst (fst a) < fst (fst b)
   \/ (fst (fst a) = fst (fst b)
       /\ (snd (fst a) < snd (fst b)
           \/ (snd (fst a) = snd (fst b) /\ snd a < snd b))))%Z.

(** The conversion of an [int] argument to [double] (exact on 32 bits). *)
Definition double_of_int (n : Z) : float :=
  if (n <? 0)%Z then (- of_uint63 (Uint63Axioms.of_Z (- n)))%float
  else of_uint63 (Uint63Axioms.of_Z n).

(* ================================================================== *)
(** ** Keys *)

(** A transaction tag is a byte string. *)
Definition TransactionTag := string.
Bind Scope string_scope with TransactionTag.

(** Modelled from the spec: [StringRef::compare] (flow/Arena.h is not among
    the sources) is the three-way lexicographic comparison of the two byte
    strings; only its sign is used. *)
Definition StringRef_compare (a b : TransactionTag) : Z :=
  match String.compare a b with
  | Lt => (-1)%Z
  | Eq => 0%Z
  | Gt => 1%Z
  end.

(** A [UID] is a pair of 64-bit words. *)
Definition UID := (Z * Z)%type.

Definition UID_eqb (a b : UID) : bool :=
  (Z.eqb (fst a) (fst b) && Z.eqb (snd a) (snd b))%bool.

(* ================================================================== *)
(** ** std::unordered_map *)

Section UnorderedMap.
Variables K V : Type.
Variable keq : K -> K -> bool.

Definition unordered_map := list (K * V).

(** The [get] helper of the class: [m.find(k)] as an [Optional]. *)
Fixpoint get (m : unordered_map) (k : K) : option V :=
  match m with
  | [] => None
  | (k', v) :: rest => if keq k' k then Some v else get rest k
  end.

Definition keys (m : unordered_map) : list K := map fst m.

(** [f(m[k])]: [operator[]] value-initialises a missing entry (with [d])
    before [f] updates it in place.  A new entry is iterated last here; the
    source does not fix its place, and no statement below depends on it. *)
Fixpoint subscript_update (m : unordered_map) (k : K) (d : V) (f : V -> V)
  : unordered_map :=
  match m with
  | [] => [(k, f d)]
  | (k', v) :: rest =>
      if keq k' k then (k', f v) :: rest
      else (k', v) :: subscript_update rest k d f
  end.

(** [m.erase(it)] for the iterator at key [k]. *)
Fixpoint erase (m : unordered_map) (k : K) : unordered_map :=
  match m with
  | [] => []
  | (k', v) :: rest => if keq k' k then rest else (k', v) :: erase rest k
  end.
End UnorderedMap.

Arguments get {K V} keq m k.
Arguments keys {K V} m.
Arguments subscript_update {K V} keq m k d f.
Arguments erase {K V} keq m k.

(* ================================================================== *)
(** ** Knobs and collaborators *)

Record ServerKnobs : Type := {
  GLOBAL_TAG_THROTTLING_FOLDING_TIME : float;
  GLOBAL_TAG_THROTTLING_MIN_RATE : float
}.

(** Modelled from the spec: the [Smoother] (fdbrpc/Smoother.h is not among
    the sources).  A smoothed value has a tracked level ([getTotal]) and two
    smoothed projections, read at the current instant of the clock;
    [setTotal] overwrites the level, [addDelta] accumulates into it, and the
    projections only move as time passes ([relax] below), towards the level. *)
Record Smoother : Type := {
  eFoldingTime : float;
  total : float;
  smoothTotalNow : float;
  smoothRateNow : float
}.

Definition newSmoother (eFoldingTime : float) : Smoother :=
  {| eFoldingTime := eFoldingTime; total := 0; smoothTotalNow := 0; smoothRateNow := 0 |}.

Definition getTotal (s : Smoother) : float := total s.
Definition smoothTotal (s : Smoother) : float := smoothTotalNow s.
Definition smoothRate (s : Smoother) : float := smoothRateNow s.

Definition setTotal (v : float) (s : Smoother) : Smoother :=
  {| eFoldingTime := eFoldingTime s; total := v;
     smoothTotalNow := smoothTotalNow s; smoothRateNow := smoothRateNow s |}.

Definition addDelta (d : float) (s : Smoother) : Smoother :=
  {| eFoldingTime := eFoldingTime s; total := (total s + d)%float;
     smoothTotalNow := smoothTotalNow s; smoothRateNow := smoothRateNow s |}.

(** [ThrottleApi::TagQuotaValue]: the four quotas of a tag, each 0 unless set. *)
Record TagQuotaValue : Type := {
  reservedReadQuota : float;
  totalReadQuota : float;
  reservedWriteQuota : float;
  totalWriteQuota : float
}.

Definition newTagQuotaValue : TagQuotaValue :=
  {| reservedReadQuota := 0; totalReadQuota := 0;
     reservedWriteQuota := 0; totalWriteQuota := 0 |}.

Inductive Expiration : Type := NO_EXPIRATION.

Record ClientTagThrottleLimits : Type := {
  tpsRate : float;
  expiration : Expiration
}.

Inductive TransactionPriority : Type := BATCH | DEFAULT | IMMEDIATE.

Definition TransactionTagMap (T : Type) := unordered_map TransactionTag T.

(** [PrioritizedTransactionTagMap<T>] is a [std::map] from the three
    priorities to tag maps: one optional tag map per priority. *)
Record PrioritizedTransactionTagMap (T : Type) : Type := {
  atBATCH : option (TransactionTagMap T);
  atDEFAULT : option (TransactionTagMap T);
  atIMMEDIATE : option (TransactionTagMap T)
}.

Definition emptyPrioritizedMap (T : Type) : PrioritizedTransactionTagMap T :=
  {| atBATCH := None; atDEFAULT := None; atIMMEDIATE := None |}.

Definition findPriority {T : Type} (m : PrioritizedTransactionTagMap T)
  (p : TransactionPriority) : option (TransactionTagMap T) :=
  match p with
  | BATCH => atBATCH m
  | DEFAULT => atDEFAULT m
  | IMMEDIATE => atIMMEDIATE m
  end.

(** [m[p][tag] = v]. *)
Definition assignAt {T : Type} (m : PrioritizedTransactionTagMap T)
  (p : TransactionPriority) (tag : TransactionTag) (v : T)
  : PrioritizedTransactionTagMap T :=
  let inner := subscript_update String.eqb (orDefault (findPriority m p) []) tag v (fun _ => v) in
  match p with
  | BATCH => {| atBATCH := Some inner; atDEFAULT := atDEFAULT m; atIMMEDIATE := atIMMEDIATE m |}
  | DEFAULT => {| atBATCH := atBATCH m; atDEFAULT := Some inner; atIMMEDIATE := atIMMEDIATE m |}
  | IMMEDIATE => {| atBATCH := atBATCH m; atDEFAULT := atDEFAULT m; atIMMEDIATE := Some inner |}
  end.

(** The entry of [tag] under priority [p], if any. *)
Definition findLimit {T : Type} (m : PrioritizedTransactionTagMap T)
  (p : TransactionPriority) (tag : TransactionTag) : option T :=
  match findPriority m p with
  | Some inner => get String.eqb inner tag
  | None => None
  end.

(* ================================================================== *)
(** ** The statistics classes *)

Inductive LimitType : Type := RESERVED | TOTAL.
Inductive OpType : Type := READ | WRITE.

Record ThroughputCounters : Type := {
  readCost : Smoother;
  writeCost : Smoother
}.

(** Track various statistics per tag, aggregated across all storage servers. *)
Record PerTagStatistics : Type := {
  quota : option TagQuotaValue;
  transactionCounter : Smoother;
  perClientRate : Smoother
}.

Section Throttler.
Variable SERVER_KNOBS : ServerKnobs.

Definition newThroughputCounters : ThroughputCounters :=
  {| readCost := newSmoother (GLOBAL_TAG_THROTTLING_FOLDING_TIME SERVER_KNOBS);
     writeCost := newSmoother (GLOBAL_TAG_THROTTLING_FOLDING_TIME SERVER_KNOBS) |}.

(** [ThroughputCounters::updateCost], without the returned difference,
    which no caller reads. *)
Definition updateCost (newCost : float) (opType : OpType) (c : ThroughputCounters)
  : ThroughputCounters :=
  match opType with
  | READ => {| readCost := setTotal newCost (readCost c); writeCost := writeCost c |}
  | WRITE => {| readCost := readCost c; writeCost := setTotal newCost (writeCost c) |}
  end.

Definition getCost (c : ThroughputCounters) (opType : OpType) : float :=
  match opType with
  | READ => smoothTotal (readCost c)
  | WRITE => smoothTotal (writeCost c)
  end.

Definition newPerTagStatistics : PerTagStatistics :=
  {| quota := None;
     transactionCounter := newSmoother (GLOBAL_TAG_THROTTLING_FOLDING_TIME SERVER_KNOBS);
     perClientRate := newSmoother (GLOBAL_TAG_THROTTLING_FOLDING_TIME SERVER_KNOBS) |}.

Definition PerTagStatistics_getQuota (s : PerTagStatistics) : option TagQuotaValue :=
  quota s.

Definition PerTagStatistics_setQuota (q : TagQuotaValue) (s : PerTagStatistics)
  : PerTagStatistics :=
  {| quota := Some q; transactionCounter := transactionCounter s;
     perClientRate := perClientRate s |}.

Definition clearQuota (s : PerTagStatistics) : PerTagStatistics :=
  {| quota := None; transactionCounter := transactionCounter s;
     perClientRate := perClientRate s |}.

Definition addTransactions (count : Z) (s : PerTagStatistics) : PerTagStatistics :=
  {| quota := quota s;
     transactionCounter := addDelta (double_of_int count) (transactionCounter s);
     perClientRate := perClientRate s |}.

Definition getTransactionRate (s : PerTagStatistics) : float :=
  smoothRate (transactionCounter s).

Definition updateAndGetPerClientLimit (targetCost : option float) (s : PerTagStatistics)
  : option ClientTagThrottleLimits * PerTagStatistics :=
  match targetCost with
  | Some target =>
      if (0 <? smoothRate (transactionCounter s))%float then
        let newPerClientRate :=
          std_max (GLOBAL_TAG_THROTTLING_MIN_RATE SERVER_KNOBS)
            (std_min target
               ((target / smoothRate (transactionCounter s))
                * smoothTotal (perClientRate s))%float) in
        let perClientRate' := setTotal newPerClientRate (perClientRate s) in
        (Some {| tpsRate := getTotal perClientRate'; expiration := NO_EXPIRATION |},
         {| quota := quota s; transactionCounter := transactionCounter s;
            perClientRate := perClientRate' |})
      else (None, s)
  | None => (None, s)
  end.

(* ================================================================ *)
(** ** The controller's state *)

Record GlobalTagThrottlerImpl : Type := {
  throttledTagChangeId : Z;   (* uint64_t *)
  throttlingRatios : unordered_map UID (option float);
  tagStatistics : unordered_map TransactionTag PerTagStatistics;
  throughput : unordered_map UID (unordered_map TransactionTag ThroughputCounters)
}.

(** [GlobalTagThrottlerImpl(db, id)]. *)
Definition newGlobalTagThrottlerImpl : GlobalTagThrottlerImpl :=
  {| throttledTagChangeId := 0; throttlingRatios := [];
     tagStatistics := []; throughput := [] |}.

Definition withTagStatistics (self : GlobalTagThrottlerImpl)
  (ts : unordered_map TransactionTag PerTagStatistics) : GlobalTagThrottlerImpl :=
  {| throttledTagChangeId := throttledTagChangeId self;
     throttlingRatios := throttlingRatios self;
     tagStatistics := ts;
     throughput := throughput self |}.

(* ================================================================ *)
(** ** Current costs *)

(** The cost rate for the given tag on the given storage server. *)
Definition getCurrentCost_ss_tag (self : GlobalTagThrottlerImpl)
  (storageServerId : UID) (tag : TransactionTag) (opType : OpType) : option float :=
  match get UID_eqb (throughput self) storageServerId with
  | None => None
  | Some tagToThroughputCounters =>
      match get String.eqb tagToThroughputCounters tag with
      | None => None
      | Some throughputCounter => Some (getCost throughputCounter opType)
      end
  end.

(** The cost rate on the given storage server, summed across all tags. *)
Definition getCurrentCost_ss (self : GlobalTagThrottlerImpl)
  (storageServerId : UID) (opType : OpType) : option float :=
  match get UID_eqb (throughput self) storageServerId with
  | None => None
  | Some tagToPerTagThroughput =>
      Some (fold_left
              (fun result kv => (result + getCost (snd kv) opType)%float)
              tagToPerTagThroughput 0%float)
  end.

(** The cost rate for the given tag, summed across all storage servers. *)
Definition getCurrentCost_tag (self : GlobalTagThrottlerImpl)
  (tag : TransactionTag) (opType : OpType) : float :=
  fold_left
    (fun result kv =>
       (result + orDefault (getCurrentCost_ss_tag self (fst kv) tag opType) 0)%float)
    (throughput self) 0%float.

(** The average cost that transactions of [tag] put on one storage server. *)
Definition getAverageTransactionCost_ss (self : GlobalTagThrottlerImpl)
  (tag : TransactionTag) (storageServerId : UID) (opType : OpType) : option float :=
  match getCurrentCost_ss_tag self storageServerId tag opType with
  | None => None
  | Some cost =>
      match get String.eqb (tagStatistics self) tag with
      | None => None
      | Some stats =>
          let transactionRate := getTransactionRate stats in
          if (transactionRate =? 0)%float then None
          else Some (cost / transactionRate)%float
      end
  end.

(** The average cost of a transaction of [tag]. *)
Definition getAverageTransactionCost (self : GlobalTagThrottlerImpl)
  (tag : TransactionTag) (opType : OpType) : option float :=
  let cost := getCurrentCost_tag self tag opType in
  match get String.eqb (tagStatistics self) tag with
  | None => None
  | Some stats =>
      let transactionRate := getTransactionRate stats in
      if (transactionRate =? 0)%float then None
      else Some (cost / transactionRate)%float
  end.

(* ================================================================ *)
(** ** Quotas *)

(** All tags performing meaningful work on the given storage server. *)
Definition getTagsAffectingStorageServer (self : GlobalTagThrottlerImpl)
  (storageServerId : UID) : list TransactionTag :=
  match get UID_eqb (throughput self) storageServerId with
  | None => []
  | Some tagToThroughputCounters => keys tagToThroughputCounters
  end.

Definition getQuota (self : GlobalTagThrottlerImpl) (tag : TransactionTag)
  (opType : OpType) (limitType : LimitType) : option float :=
  match get String.eqb (tagStatistics self) tag with
  | None => None
  | Some stats =>
      match PerTagStatistics_getQuota stats with
      | None => None
      | Some q =>
          match limitType, opType with
          | TOTAL, READ => Some (totalReadQuota q)
          | TOTAL, WRITE => Some (totalWriteQuota q)
          | RESERVED, READ => Some (reservedReadQuota q)
          | RESERVED, WRITE => Some (reservedWriteQuota q)
          end
      end
  end.

(** One round of the loop of [getQuotaRatio] over the tag [t], on the
    locals [(sumQuota, tagQuota)].  The test is [tag.compare(tag) == 0],
    as the source has it. *)
Definition quotaRatioStep (self : GlobalTagThrottlerImpl) (tag : TransactionTag)
  (opType : OpType) (locals : float * float) (t : TransactionTag) : float * float :=
  let tQuota := getQuota self t opType TOTAL in
  let sumQuota := (fst locals + orDefault tQuota 0)%float in
  if (StringRef_compare tag tag =? 0)%Z
  then (sumQuota, orDefault tQuota 0%float)
  else (sumQuota, snd locals).

(** Of all tags meaningfully performing workload on the given storage
    server, the ratio of total quota allocated to the specified tag. *)
Definition getQuotaRatio (self : GlobalTagThrottlerImpl) (tag : TransactionTag)
  (storageServerId : UID) (opType : OpType) : Res float :=
  let tagsAffectingStorageServer := getTagsAffectingStorageServer self storageServerId in
  let locals := fold_left (quotaRatioStep self tag opType)
                  tagsAffectingStorageServer (0%float, 0%float) in
  let sumQuota := fst locals in
  let tagQuota := snd locals in
  if (tagQuota =? 0)%float then Ok 0%float
  else
    ASSERT (0 <? sumQuota)%float ;;;
    Ok (tagQuota / sumQuota)%float.

(* ================================================================ *)
(** ** Limiting TPS *)

(** The desired cost for a storage server, based on its current cost and
    throttling ratio.  The guard is the source's:
    [!throttlingRatio.present() || currentCost.present()
     || !throttlingRatio.get().present()]. *)
Definition getLimitingCost (self : GlobalTagThrottlerImpl)
  (storageServerId : UID) (opType : OpType) : Res (option float) :=
  let throttlingRatio := get UID_eqb (throttlingRatios self) storageServerId in
  let currentCost := getCurrentCost_ss self storageServerId opType in
  if (negb (present throttlingRatio) || present currentCost)%bool then Ok None
  else
    ratio <- Optional_get throttlingRatio ;;
    if negb (present ratio) then Ok None
    else
      r <- Optional_get ratio ;;
      c <- Optional_get currentCost ;;
      Ok (Some (r * c)%float).

(** The body of [getLimitingTps(storageServerId, tag, opType)] below its
    three calls. *)
Definition limitingTpsForServer (quotaRatio : float)
  (limitingCost averageTransactionCost : option float) : option float :=
  match limitingCost, averageTransactionCost with
  | Some lc, Some avg =>
      let limitingCostForTag := (lc * quotaRatio)%float in
      Some (limitingCostForTag / avg)%float
  | _, _ => None
  end.

(** For a storage server and tag, the limiting transaction rate. *)
Definition getLimitingTps_ss (self : GlobalTagThrottlerImpl)
  (storageServerId : UID) (tag : TransactionTag) (opType : OpType) : Res (option float) :=
  quotaRatio <- getQuotaRatio self tag storageServerId opType ;;
  limitingCost <- getLimitingCost self storageServerId opType ;;
  let averageTransactionCost :=
    getAverageTransactionCost_ss self tag storageServerId opType in
  Ok (limitingTpsForServer quotaRatio limitingCost averageTransactionCost).

(** One round of the loop of [getLimitingTps(tag, opType)] on the local
    [result], given the server's value [targetTpsForSS]. *)
Definition limitingTpsStep (result targetTpsForSS : option float) : option float :=
  match result, targetTpsForSS with
  | Some r, Some t => Some (std_min r t)
  | _, _ => targetTpsForSS
  end.

Fixpoint getLimitingTps_loop (self : GlobalTagThrottlerImpl) (tag : TransactionTag)
  (opType : OpType) (ids : list UID) (result : option float) : Res (option float) :=
  match ids with
  | [] => Ok result
  | id :: rest =>
      targetTpsForSS <- getLimitingTps_ss self id tag opType ;;
      getLimitingTps_loop self tag opType rest (limitingTpsStep result targetTpsForSS)
  end.

(** The limiting transaction rate, aggregated across all storage servers. *)
Definition getLimitingTps_op (self : GlobalTagThrottlerImpl) (tag : TransactionTag)
  (opType : OpType) : Res (option float) :=
  getLimitingTps_loop self tag opType (keys (throttlingRatios self)) None.

(** [min] of the read and write values, an absent side ignored. *)
Definition minOfPresent (readTps writeTps : option float) : option float :=
  match readTps, writeTps with
  | Some r, Some w => Some (std_min r w)
  | Some r, None => Some r
  | None, _ => writeTps
  end.

(** [max] of the read and write values, an absent side ignored. *)
Definition maxOfPresent (readTps writeTps : option float) : option float :=
  match readTps, writeTps with
  | Some r, Some w => Some (std_max r w)
  | Some r, None => Some r
  | None, _ => writeTps
  end.

Definition getLimitingTps (self : GlobalTagThrottlerImpl) (tag : TransactionTag)
  : Res (option float) :=
  readLimitingTps <- getLimitingTps_op self tag READ ;;
  writeLimitingTps <- getLimitingTps_op self tag WRITE ;;
  Ok (minOfPresent readLimitingTps writeLimitingTps).

(* ================================================================ *)
(** ** Desired and reserved TPS *)

Definition getDesiredTps_op (self : GlobalTagThrottlerImpl) (tag : TransactionTag)
  (opType : OpType) : option float :=
  match getAverageTransactionCost self tag opType with
  | None => None
  | Some averageTransactionCost =>
      if (averageTransactionCost =? 0)%float then None
      else
        match get String.eqb (tagStatistics self) tag with
        | None => None
        | Some stats =>
            match PerTagStatistics_getQuota stats with
            | None => None
            | Some q =>
                let desiredCost :=
                  match opType with
                  | READ => totalReadQuota q
                  | WRITE => totalWriteQuota q
                  end in
                Some (desiredCost / averageTransactionCost)%float
            end
        end
  end.

Definition getDesiredTps (self : GlobalTagThrottlerImpl) (tag : TransactionTag)
  : option float :=
  minOfPresent (getDesiredTps_op self tag READ) (getDesiredTps_op self tag WRITE).

Definition getReservedTps_op (self : GlobalTagThrottlerImpl) (tag : TransactionTag)
  (opType : OpType) : option float :=
  match getQuota self tag opType RESERVED, getAverageTransactionCost self tag opType with
  | Some reservedCost, Some averageTransactionCost =>
      if (averageTransactionCost =? 0)%float then None
      else Some (reservedCost / averageTransactionCost)%float
  | _, _ => None
  end.

Definition getReservedTps (self : GlobalTagThrottlerImpl) (tag : TransactionTag)
  : option float :=
  maxOfPresent (getReservedTps_op self tag READ) (getReservedTps_op self tag WRITE).

(* ================================================================ *)
(** ** The quota watcher *)

(** The [while] loop of [removeUnseenTags]: [its] are the entries the
    iterator still has to visit, [ts] is the table as it stands.  The test
    is the source's, [tagStatistics.find(tag) == tagStatistics.end()]. *)
Fixpoint removeUnseenTags_loop (its : list TransactionTag)
  (ts : unordered_map TransactionTag PerTagStatistics)
  : unordered_map TransactionTag PerTagStatistics :=
  match its with
  | [] => ts
  | tag :: rest =>
      if negb (present (get String.eqb ts tag))
      then removeUnseenTags_loop rest (erase String.eqb ts tag)
      else removeUnseenTags_loop rest ts
  end.

Definition removeUnseenTags (seenTags : list TransactionTag)
  (self : GlobalTagThrottlerImpl) : GlobalTagThrottlerImpl :=
  withTagStatistics self
    (removeUnseenTags_loop (keys (tagStatistics self)) (tagStatistics self)).

(** [seenTags.insert(tag)] on the [std::unordered_set]. *)
Definition seenTags_insert (tag : TransactionTag) (seenTags : list TransactionTag)
  : list TransactionTag :=
  if existsb (String.eqb tag) seenTags then seenTags else seenTags ++ [tag].

(** What one pass through the [try] block of [monitorThrottlingChanges]
    ends in: the scan was completed, or an error was caught and the
    transaction is retried. *)
Inductive ScanOutcome : Type :=
  | ScanCompleted (self : GlobalTagThrottlerImpl)
  | ScanRetried (self : GlobalTagThrottlerImpl).

Definition stateAfter (o : ScanOutcome) : GlobalTagThrottlerImpl :=
  match o with ScanCompleted self => self | ScanRetried self => self end.

(** The [for] loop over the rows read.  A row whose value does not decode
    ([None]) makes [TagQuotaValue::fromValue] throw. *)
Fixpoint applyQuotaRows (rows : list (TransactionTag * option TagQuotaValue))
  (seenTags : list TransactionTag) (self : GlobalTagThrottlerImpl)
  : option (list TransactionTag * GlobalTagThrottlerImpl) :=
  match rows with
  | [] => Some (seenTags, self)
  | (tag, None) :: _ => None
  | (tag, Some q) :: rest =>
      applyQuotaRows rest (seenTags_insert tag seenTags)
        (withTagStatistics self
           (subscript_update String.eqb (tagStatistics self) tag
              newPerTagStatistics (PerTagStatistics_setQuota q)))
  end.

(** The state the [for] loop leaves when it throws part-way. *)
Fixpoint applyQuotaRowsUntilThrow (rows : list (TransactionTag * option TagQuotaValue))
  (self : GlobalTagThrottlerImpl) : GlobalTagThrottlerImpl :=
  match rows with
  | (tag, Some q) :: rest =>
      applyQuotaRowsUntilThrow rest
        (withTagStatistics self
           (subscript_update String.eqb (tagStatistics self) tag
              newPerTagStatistics (PerTagStatistics_setQuota q)))
  | _ => self
  end.

(** [++self->throttledTagChangeId] on a [uint64_t]. *)
Definition incrementChangeId (self : GlobalTagThrottlerImpl) : GlobalTagThrottlerImpl :=
  {| throttledTagChangeId := (throttledTagChangeId self + 1) mod 2 ^ 64;
     throttlingRatios := throttlingRatios self;
     tagStatistics := tagStatistics self;
     throughput := throughput self |}.

(** One pass through the [try] block of [monitorThrottlingChanges];
    [currentQuotas] is what [tr.getRange] produced, [None] when it threw. *)
Definition monitorThrottlingChanges_pass
  (currentQuotas : option (list (TransactionTag * option TagQuotaValue)))
  (self : GlobalTagThrottlerImpl) : ScanOutcome :=
  match currentQuotas with
  | None => ScanRetried self
  | Some rows =>
      match applyQuotaRows rows [] self with
      | None => ScanRetried (applyQuotaRowsUntilThrow rows self)
      | Some (seenTags, self') =>
          ScanCompleted (incrementChangeId (removeUnseenTags seenTags self'))
      end
  end.

(* ================================================================ *)
(** ** The public operations *)

Definition addRequests (tag : TransactionTag) (count : Z)
  (self : GlobalTagThrottlerImpl) : GlobalTagThrottlerImpl :=
  withTagStatistics self
    (subscript_update String.eqb (tagStatistics self) tag
       newPerTagStatistics (addTransactions count)).

Definition getThrottledTagChangeId (self : GlobalTagThrottlerImpl) : Z :=
  throttledTagChangeId self.

(** [tagStatistics.size()] as an [int64_t]; the size of a table in memory
    is far below [2^63], so the conversion changes nothing. *)
Definition autoThrottleCount (self : GlobalTagThrottlerImpl) : Z :=
  Z.of_nat (List.length (tagStatistics self)).

Definition busyReadTagCount (self : GlobalTagThrottlerImpl) : Z := 0.
Definition busyWriteTagCount (self : GlobalTagThrottlerImpl) : Z := 0.
Definition manualThrottleCount (self : GlobalTagThrottlerImpl) : Z := 0.
Definition isAutoThrottlingEnabled (self : GlobalTagThrottlerImpl) : bool := true.

Record StorageQueueInfo : Type := {
  ss_id : UID;
  busiestReadTags : list (TransactionTag * float);
  busiestWriteTags : list (TransactionTag * float)
}.

(** [throughput[id][tag].updateCost(rate, opType)]. *)
Definition recordCost (id : UID) (opType : OpType)
  (tp : unordered_map UID (unordered_map TransactionTag ThroughputCounters))
  (busyTag : TransactionTag * float)
  : unordered_map UID (unordered_map TransactionTag ThroughputCounters) :=
  subscript_update UID_eqb tp id []
    (fun perTag =>
       subscript_update String.eqb perTag (fst busyTag) newThroughputCounters
         (updateCost (snd busyTag) opType)).

Definition tryUpdateAutoThrottling (ss : StorageQueueInfo)
  (self : GlobalTagThrottlerImpl) : GlobalTagThrottlerImpl :=
  let afterReads := fold_left (recordCost (ss_id ss) READ) (busiestReadTags ss) (throughput self) in
  let afterWrites := fold_left (recordCost (ss_id ss) WRITE) (busiestWriteTags ss) afterReads in
  {| throttledTagChangeId := throttledTagChangeId self;
     throttlingRatios := throttlingRatios self;
     tagStatistics := tagStatistics self;
     throughput := afterWrites |}.

Definition setThrottlingRatio (storageServerId : UID) (ratio : option float)
  (self : GlobalTagThrottlerImpl) : GlobalTagThrottlerImpl :=
  {| throttledTagChangeId := throttledTagChangeId self;
     throttlingRatios :=
       subscript_update UID_eqb (throttlingRatios self) storageServerId None (fun _ => ratio);
     tagStatistics := tagStatistics self;
     throughput := throughput self |}.

Definition setQuota (tag : TransactionTag) (tagQuotaValue : TagQuotaValue)
  (self : GlobalTagThrottlerImpl) : GlobalTagThrottlerImpl :=
  withTagStatistics self
    (subscript_update String.eqb (tagStatistics self) tag
       newPerTagStatistics (PerTagStatistics_setQuota tagQuotaValue)).

Definition removeQuota (tag : TransactionTag) (self : GlobalTagThrottlerImpl)
  : GlobalTagThrottlerImpl :=
  withTagStatistics self
    (subscript_update String.eqb (tagStatistics self) tag
       newPerTagStatistics clearQuota).

(* ================================================================ *)
(** ** getClientRates *)

(** The target of a tag, [std::max(reserved, std::min(limiting, desired))]. *)
Definition targetTps (reservedTps limitingTps desiredTps : float) : float :=
  std_max reservedTps (std_min limitingTps desiredTps).

Section ClientRates.
(** The loop of [getClientRates] is written over the function it calls
    for the limiting TPS of a tag, so that what the loop itself does can
    be stated for any value that call may return; [getClientRates] is
    the loop with [getLimitingTps]. *)
Variable limitingTpsOf : GlobalTagThrottlerImpl -> TransactionTag -> Res (option float).

(** [done] are the entries the [for] loop has visited (as it left
    them), [todo] the ones it still has to visit; [result] is the local. *)
Fixpoint getClientRates_loop (self : GlobalTagThrottlerImpl)
  (done todo : unordered_map TransactionTag PerTagStatistics)
  (result : PrioritizedTransactionTagMap ClientTagThrottleLimits)
  : Res (PrioritizedTransactionTagMap ClientTagThrottleLimits * GlobalTagThrottlerImpl) :=
  match todo with
  | [] => Ok (result, withTagStatistics self done)
  | (tag, stats) :: rest =>
      let now := withTagStatistics self (done ++ (tag, stats) :: rest) in
      limitingTps <- limitingTpsOf now tag ;;
      let desiredTps := getDesiredTps now tag in
      let reservedTps := getReservedTps now tag in
      match limitingTps, desiredTps, reservedTps with
      | Some l, Some d, Some r =>
          let targetCost := targetTps r l d in
          let (perClientLimit, stats') :=
            updateAndGetPerClientLimit (Some targetCost) stats in
          limit <- Optional_get perClientLimit ;;
          getClientRates_loop self (done ++ [(tag, stats')]) rest
            (assignAt (assignAt result DEFAULT tag limit) BATCH tag limit)
      | _, _, _ => Ok (emptyPrioritizedMap ClientTagThrottleLimits, now)
      end
  end.

Definition getClientRatesWith (self : GlobalTagThrottlerImpl)
  : Res (PrioritizedTransactionTagMap ClientTagThrottleLimits * GlobalTagThrottlerImpl) :=
  getClientRates_loop self [] (tagStatistics self)
    (emptyPrioritizedMap ClientTagThrottleLimits).
End ClientRates.

Definition getClientRates (self : GlobalTagThrottlerImpl)
  : Res (PrioritizedTransactionTagMap ClientTagThrottleLimits * GlobalTagThrottlerImpl) :=
  getClientRatesWith getLimitingTps self.

(** [GlobalTagThrottlerTesting::getTPSLimit]. *)
Definition getTPSLimit (self : GlobalTagThrottlerImpl) (tag : TransactionTag)
  : Res (option float * GlobalTagThrottlerImpl) :=
  r <- getClientRates self ;;
  Ok (option_map tpsRate (findLimit (fst r) DEFAULT tag), snd r).

(* ================================================================ *)
(** ** Lifetime of a controller *)

(** Time passing: every smoother's projections move, its level stays. *)
Definition relaxSmoother (readings : Smoother -> float * float) (s : Smoother) : Smoother :=
  {| eFoldingTime := eFoldingTime s; total := total s;
     smoothTotalNow := fst (readings s); smoothRateNow := snd (readings s) |}.

Definition relaxStats (readings : Smoother -> float * float) (s : PerTagStatistics)
  : PerTagStatistics :=
  {| quota := quota s;
     transactionCounter := relaxSmoother readings (transactionCounter s);
     perClientRate := relaxSmoother readings (perClientRate s) |}.

Definition relaxCounters (readings : Smoother -> float * float) (c : ThroughputCounters)
  : ThroughputCounters :=
  {| readCost := relaxSmoother readings (readCost c);
     writeCost := relaxSmoother readings (writeCost c) |}.

Definition relax (readings : Smoother -> float * float) (self : GlobalTagThrottlerImpl)
  : GlobalTagThrottlerImpl :=
  {| throttledTagChangeId := throttledTagChangeId self;
     throttlingRatios := throttlingRatios self;
     tagStatistics :=
       map (fun kv => (fst kv, relaxStats readings (snd kv))) (tagStatistics self);
     throughput :=
       map (fun kv =>
              (fst kv, map (fun kc => (fst kc, relaxCounters readings (snd kc))) (snd kv)))
           (throughput self) |}.

(** What can happen to a controller: a call of its interface, a pass of
    the quota watcher, or time passing. *)
Inductive Event : Type :=
  | CallAddRequests (tag : TransactionTag) (count : Z)
  | CallGetClientRates
  | CallTryUpdateAutoThrottling (ss : StorageQueueInfo)
  | CallSetThrottlingRatio (storageServerId : UID) (ratio : option float)
  | CallSetQuota (tag : TransactionTag) (tagQuotaValue : TagQuotaValue)
  | CallRemoveQuota (tag : TransactionTag)
  | WatcherPass (currentQuotas : option (list (TransactionTag * option TagQuotaValue)))
  | TimePasses (readings : Smoother -> float * float).

Definition step (e : Event) (self : GlobalTagThrottlerImpl) : Res GlobalTagThrottlerImpl :=
  match e with
  | CallAddRequests tag count => Ok (addRequests tag count self)
  | CallGetClientRates => r <- getClientRates self ;; Ok (snd r)
  | CallTryUpdateAutoThrottling ss => Ok (tryUpdateAutoThrottling ss self)
  | CallSetThrottlingRatio id ratio => Ok (setThrottlingRatio id ratio self)
  | CallSetQuota tag q => Ok (setQuota tag q self)
  | CallRemoveQuota tag => Ok (removeQuota tag self)
  | WatcherPass currentQuotas => Ok (stateAfter (monitorThrottlingChanges_pass currentQuotas self))
  | TimePasses readings => Ok (relax readings self)
  end.

Fixpoint run (es : list Event) (self : GlobalTagThrottlerImpl) : Res GlobalTagThrottlerImpl :=
  match es with
  | [] => Ok self
  | e :: rest => self' <- step e self ;; run rest self'
  end.

(** A pass of the watcher that completes a full scan. *)
Definition completesScan (e : Event) (self : GlobalTagThrottlerImpl) : bool :=
  match e with
  | WatcherPass currentQuotas =>
      match monitorThrottlingChanges_pass currentQuotas self with
      | ScanCompleted _ => true
      | ScanRetried _ => false
      end
  | _ => false
  end.

(** The number of full scans the watcher completes along [es]. *)
Fixpoint completedScans (es : list Event) (self : GlobalTagThrottlerImpl) : Z :=
  match es with
  | [] => 0
  | e :: rest =>
      match step e self with
      | Ok self' =>
          (if completesScan e self then 1 else 0) + completedScans rest self'
      | AssertionFailed => 0
      end
  end.

(** The table [getClientRates] iterates holds a record for [tag]. *)
Definition tracked (tag : TransactionTag) (self : GlobalTagThrottlerImpl) : Prop :=
  In tag (keys (tagStatistics self)).
End Throttler.

(* ================================================================== *)
(** ** What the rate derivation reads of a state *)

(** Two records that differ in the per-client smoother at most. *)
Definition sameInputs (a b : PerTagStatistics) : Prop :=
  quota a = quota b /\ transactionCounter a = transactionCounter b.

Definition sameTable (ta tb : unordered_map TransactionTag PerTagStatistics) : Prop :=
  Forall2 (fun x y => fst x = fst y /\ sameInputs (snd x) (snd y)) ta tb.

(** Two states that differ in the per-client smoothers at most: what
    [getClientRates] has rewritten when it is part-way through its loop. *)
Definition agree (a b : GlobalTagThrottlerImpl) : Prop :=
  throttlingRatios a = throttlingRatios b
  /\ throughput a = throughput b
  /\ sameTable (tagStatistics a) (tagStatistics b).

(** A limiting-TPS function that does not read the per-client smoothers. *)
Definition readsInputsOnly
  (limitingTpsOf : GlobalTagThrottlerImpl -> TransactionTag -> Res (option float)) : Prop :=
  forall a b tag, agree a b -> limitingTpsOf a tag = limitingTpsOf b tag.

(** The limit of a tag is absent: its limiting, desired or reserved TPS is
    absent, or its transaction rate is 0. *)
Definition limitAbsent
  (limitingTpsOf : GlobalTagThrottlerImpl -> TransactionTag -> Res (option float))
  (self : GlobalTagThrottlerImpl) (tag : TransactionTag) : Prop :=
  limitingTpsOf self tag = Ok None
  \/ getDesiredTps self tag = None
  \/ getReservedTps self tag = None
  \/ exists stats,
       get String.eqb (tagStatistics self) tag = Some stats
       /\ (getTransactionRate stats =? 0)%float = true.

(** The value [getClientRates] publishes for a tag whose record is [stats],
    from the three rates of the tag. *)
Definition publishedTps (knobs : ServerKnobs) (stats : PerTagStatistics)
  (reservedTps limitingTps desiredTps : float) : float :=
  let target := targetTps reservedTps limitingTps desiredTps in
  std_max (GLOBAL_TAG_THROTTLING_MIN_RATE knobs)
    (std_min target
       ((target / getTransactionRate stats) * smoothTotal (perClientRate stats))%float).

(* ================================================================== *)
(** ** The rate derivation as the specification words it *)

(** [quota_ratio(tag, server, op)]: the tag's own total quota over the sum
    of the total quotas of the tags present in the server's throughput
    table; 0 when the tag's own share is zero. *)
Definition spec_quota_ratio (self : GlobalTagThrottlerImpl) (tag : TransactionTag)
  (storageServerId : UID) (opType : OpType) : float :=
  let own := orDefault (getQuota self tag opType TOTAL) 0%float in
  let sum :=
    fold_left (fun acc t => (acc + orDefault (getQuota self t opType TOTAL) 0)%float)
      (getTagsAffectingStorageServer self storageServerId) 0%float in
  if (own =? 0)%float then 0%float else (own / sum)%float.

(** [limiting_cost(server, op)]: the published ratio times the current cost
    when both are present, absent otherwise. *)
Definition spec_limiting_cost (self : GlobalTagThrottlerImpl)
  (storageServerId : UID) (opType : OpType) : option float :=
  match get UID_eqb (throttlingRatios self) storageServerId,
        getCurrentCost_ss self storageServerId opType with
  | Some (Some ratio), Some cost => Some (ratio * cost)%float
  | _, _ => None
  end.

(** The minimum of the values that are present, absent ones ignored. *)
Definition spec_min_of_present (values : list (option float)) : option float :=
  fold_left
    (fun acc v =>
       match acc, v with
       | Some a, Some b => Some (std_min a b)
       | Some a, None => Some a
       | None, _ => v
       end)
    values None.

(* ================================================================== *)
(** ** The limiting TPS over the limiting cost it calls *)

Section OverLimitingCost.
(** The code of the three [getLimitingTps] once more, word for word, over
    the function it calls for the limiting cost of a server: with
    [getLimitingCost] it is the source's ([limitingTpsOver_getLimitingCost]
    below), with the limiting cost of the specification it shows what the
    code below that call does when the call returns a value. *)
Variable limitingCostOf : GlobalTagThrottlerImpl -> UID -> OpType -> Res (option float).

Definition limitingTps_ss_over (self : GlobalTagThrottlerImpl)
  (storageServerId : UID) (tag : TransactionTag) (opType : OpType) : Res (option float) :=
  quotaRatio <- getQuotaRatio self tag storageServerId opType ;;
  limitingCost <- limitingCostOf self storageServerId opType ;;
  let averageTransactionCost :=
    getAverageTransactionCost_ss self tag storageServerId opType in
  Ok (limitingTpsForServer quotaRatio limitingCost averageTransactionCost).

Fixpoint limitingTps_loop_over (self : GlobalTagThrottlerImpl) (tag : TransactionTag)
  (opType : OpType) (ids : list UID) (result : option float) : Res (option float) :=
  match ids with
  | [] => Ok result
  | id :: rest =>
      targetTpsForSS <- limitingTps_ss_over self id tag opType ;;
      limitingTps_loop_over self tag opType rest (limitingTpsStep result targetTpsForSS)
  end.

Definition limitingTps_op_over (self : GlobalTagThrottlerImpl) (tag : TransactionTag)
  (opType : OpType) : Res (option float) :=
  limitingTps_loop_over self tag opType (keys (throttlingRatios self)) None.

Definition limitingTpsOver (self : GlobalTagThrottlerImpl) (tag : TransactionTag)
  : Res (option float) :=
  readLimitingTps <- limitingTps_op_over self tag READ ;;
  writeLimitingTps <- limitingTps_op_over self tag WRITE ;;
  Ok (minOfPresent readLimitingTps writeLimitingTps).
End OverLimitingCost.

(** The limiting cost as the specification words it, as such a function. *)
Definition specLimitingCostOf (self : GlobalTagThrottlerImpl) (storageServerId : UID)
  (opType : OpType) : Res (option float) :=
  Ok (spec_limiting_cost self storageServerId opType).

(** The events that write quotas: [setQuota], [removeQuota] and the passes
    of the quota watcher. *)
Definition isQuotaOperation (e : Event) : bool :=
  match e with
  | CallSetQuota _ _ | CallRemoveQuota _ | WatcherPass _ => true
  | _ => false
  end.

(* ================================================================== *)
(** ** The storage servers of the tests (GlobalTagThrottlerTesting) *)

(** [MockStorageServer::Cost]: a smoother with folding time 5.0;
    [operator+=] is [addDelta]. *)
Definition Cost := Smoother.

Definition newCost : Cost := newSmoother 5.

Definition Cost_add (delta : float) (c : Cost) : Cost := addDelta delta c.

Definition Cost_smoothRate (c : Cost) : float := smoothRate c.

(** The two cost tables of a server are [std::map]s, iterated in the order
    of their keys; they are kept here as the other tables are, since their
    order only decides the order in which [tryUpdateAutoThrottling] fills a
    hash table, and no statement depends on it. *)
Record MockStorageServer : Type := {
  mock_id : UID;
  targetCostRate : float;
  readCosts : unordered_map TransactionTag Cost;
  writeCosts : unordered_map TransactionTag Cost;
  totalReadCost : Cost;
  totalWriteCost : Cost
}.

(** [MockStorageServer(id, targetCostRate)], with its
    [ASSERT_GT(targetCostRate, 0)]. *)
Definition newMockStorageServer (id : UID) (targetCostRate : float)
  : Res MockStorageServer :=
  ASSERT (0 <? targetCostRate)%float ;;;
  Ok {| mock_id := id; targetCostRate := targetCostRate;
        readCosts := []; writeCosts := [];
        totalReadCost := newCost; totalWriteCost := newCost |}.

Definition Mock_addReadCost (tag : TransactionTag) (cost : float) (s : MockStorageServer)
  : MockStorageServer :=
  {| mock_id := mock_id s; targetCostRate := targetCostRate s;
     readCosts := subscript_update String.eqb (readCosts s) tag newCost (Cost_add cost);
     writeCosts := writeCosts s;
     totalReadCost := Cost_add cost (totalReadCost s);
     totalWriteCost := totalWriteCost s |}.

Definition Mock_addWriteCost (tag : TransactionTag) (cost : float) (s : MockStorageServer)
  : MockStorageServer :=
  {| mock_id := mock_id s; targetCostRate := targetCostRate s;
     readCosts := readCosts s;
     writeCosts := subscript_update String.eqb (writeCosts s) tag newCost (Cost_add cost);
     totalReadCost := totalReadCost s;
     totalWriteCost := Cost_add cost (totalWriteCost s) |}.

(** The report of a server: every tag of its cost tables with the smoothed
    rate of its cost (the fractional busyness, always 0.0, is left out as
    [StorageQueueInfo] has it here). *)
Definition getStorageQueueInfo (s : MockStorageServer) : StorageQueueInfo :=
  {| ss_id := mock_id s;
     busiestReadTags := map (fun kv => (fst kv, Cost_smoothRate (snd kv))) (readCosts s);
     busiestWriteTags := map (fun kv => (fst kv, Cost_smoothRate (snd kv))) (writeCosts s) |}.

(** [MockStorageServer::getThrottlingRatio]; the literal is the [double]
    nearest to 0.2. *)
Definition getThrottlingRatio (s : MockStorageServer) : option float :=
  let springCostRate := (0x1.999999999999ap-3 * targetCostRate s)%float in
  let currentCostRate :=
    (Cost_smoothRate (totalReadCost s) + Cost_smoothRate (totalWriteCost s))%float in
  if (currentCostRate <? targetCostRate s - springCostRate)%float then None
  else
    Some (std_max 0
            (((targetCostRate s + springCostRate) - currentCostRate) / springCostRate)%float).

(** [StorageServerCollection]: a vector of servers. *)
Definition StorageServerCollection := list MockStorageServer.

(** The loop of the constructor, [storageServers.emplace_back(UID(i, i),
    targetCostRate)] for [i] from 0; the [int] index is exact for sizes
    below [2^31]. *)
Fixpoint emplaceServers (count : nat) (i : Z) (targetCostRate : float)
  (storageServers : StorageServerCollection) : Res StorageServerCollection :=
  match count with
  | O => Ok storageServers
  | S count' =>
      s <- newMockStorageServer (i, i) targetCostRate ;;
      emplaceServers count' (i + 1)%Z targetCostRate (storageServers ++ [s])
  end.

(** [StorageServerCollection(size, targetCostRate)], with its
    [ASSERT_GT(size, 0)]. *)
Definition newStorageServerCollection (size : nat) (targetCostRate : float)
  : Res StorageServerCollection :=
  ASSERT (0 <? size)%nat ;;;
  emplaceServers size 0%Z targetCostRate [].

(** [cost / storageServers.size()]: the size as a [double]. *)
Definition costPerSS (cost : float) (storageServers : StorageServerCollection) : float :=
  (cost / double_of_int (Z.of_nat (List.length storageServers)))%float.

Definition Collection_addReadCost (tag : TransactionTag) (cost : float)
  (storageServers : StorageServerCollection) : StorageServerCollection :=
  map (Mock_addReadCost tag (costPerSS cost storageServers)) storageServers.

Definition Collection_addWriteCost (tag : TransactionTag) (cost : float)
  (storageServers : StorageServerCollection) : StorageServerCollection :=
  map (Mock_addWriteCost tag (costPerSS cost storageServers)) storageServers.

Definition getStorageQueueInfos (storageServers : StorageServerCollection)
  : list StorageQueueInfo :=
  map getStorageQueueInfo storageServers.

(** The loop of [getThrottlingRatios],
    [result[UID(i, i)] = storageServers[i].getThrottlingRatio()]; the keys
    are written in increasing order. *)
Fixpoint getThrottlingRatios_loop (i : Z) (storageServers : StorageServerCollection)
  (result : unordered_map UID (option float)) : unordered_map UID (option float) :=
  match storageServers with
  | [] => result
  | s :: rest =>
      getThrottlingRatios_loop (i + 1)%Z rest
        (subscript_update UID_eqb result (i, i) None (fun _ => getThrottlingRatio s))
  end.

Definition getThrottlingRatios (storageServers : StorageServerCollection)
  : unordered_map UID (option float) :=
  getThrottlingRatios_loop 0%Z storageServers [].

(** One round of the loop of [updateGlobalTagThrottler], after its
    [delay]. *)
Definition updateGlobalTagThrottler_round (knobs : ServerKnobs)
  (storageServers : StorageServerCollection) (globalTagThrottler : GlobalTagThrottlerImpl)
  : GlobalTagThrottlerImpl :=
  let storageQueueInfos := getStorageQueueInfos storageServers in
  let afterReports :=
    fold_left (fun g sq => tryUpdateAutoThrottling knobs sq g)
      storageQueueInfos globalTagThrottler in
  let throttlingRatios := getThrottlingRatios storageServers in
  fold_left (fun g kv => setThrottlingRatio (fst kv) (snd kv) g)
    throttlingRatios afterReports.

(* ================================================================== *)
(** ** The clients and the monitor of the tests *)

(** The rate of a client in one round of [runClient]:
    [tpsLimit.present() ? std::min<double>(desiredTpsRate, tpsLimit.get())
     : desiredTpsRate]. *)
Definition runClient_tpsRate (desiredTpsRate : float) (tpsLimit : option float) : float :=
  match tpsLimit with
  | Some limit => std_min desiredTpsRate limit
  | None => desiredTpsRate
  end.

(** One round of [runClient] up to its [delay]: the rate, the delay
    [1 / tpsRate], and the controller as [getTPSLimit] leaves it. *)
Definition runClient_beforeDelay (knobs : ServerKnobs)
  (globalTagThrottler : GlobalTagThrottlerImpl) (tag : TransactionTag)
  (desiredTpsRate : float) : Res (float * float * GlobalTagThrottlerImpl) :=
  r <- getTPSLimit knobs globalTagThrottler tag ;;
  let tpsRate := runClient_tpsRate desiredTpsRate (fst r) in
  Ok (tpsRate, (1 / tpsRate)%float, snd r).

(** The same round after the [delay]. *)
Definition runClient_afterDelay (knobs : ServerKnobs) (tag : TransactionTag)
  (costPerTransaction : float) (write : bool)
  (globalTagThrottler : GlobalTagThrottlerImpl) (storageServers : StorageServerCollection)
  : GlobalTagThrottlerImpl * StorageServerCollection :=
  let storageServers' :=
    if write then Collection_addWriteCost tag costPerTransaction storageServers
    else Collection_addReadCost tag costPerTransaction storageServers in
  (addRequests knobs tag 1 globalTagThrottler, storageServers').

(** One round of the loop of [monitorClientRates] on its counter
    [successes], given the limit [getTPSLimit] returned: [None] when the
    actor returns, the new value of the counter when it loops again.  [abs]
    is the absolute value of a [double]. *)
Definition monitorClientRates_round (desiredTPSLimit : option float) (successes : Z)
  (currentTPSLimit : option float) : option Z :=
  match currentTPSLimit with
  | Some current =>
      if match desiredTPSLimit with
         | Some desired => (abs (current - desired) <? 1)%float
         | None => false
         end
      then if (successes + 1 =? 3)%Z then None else Some (successes + 1)%Z
      else Some 0%Z
  | None =>
      if present desiredTPSLimit then Some 0%Z
      else if (successes + 1 =? 3)%Z then None else Some (successes + 1)%Z
  end.

(** The actor over the limits its successive calls of [getTPSLimit]
    return, one per second: the number of the call after which it
    returns, if it does so within these calls ([n] calls came before). *)
Fixpoint monitorClientRates_loop (desiredTPSLimit : option float) (successes : Z)
  (observed : list (option float)) (n : nat) : option nat :=
  match observed with
  | [] => None
  | currentTPSLimit :: rest =>
      match monitorClientRates_round desiredTPSLimit successes currentTPSLimit with
      | None => Some (S n)
      | Some successes' => monitorClientRates_loop desiredTPSLimit successes' rest (S n)
      end
  end.

Definition monitorClientRates (desiredTPSLimit : option float)
  (observed : list (option float)) : option nat :=
  monitorClientRates_loop desiredTPSLimit 0%Z observed 0.

(** A limit read by the monitor is the expected one: within 1.0 of the
    desired limit, or absent when no limit is desired. *)
Definition rateAgrees (desiredTPSLimit currentTPSLimit : option float) : bool :=
  match currentTPSLimit, desiredTPSLimit with
  | Some current, Some desired => (abs (current - desired) <? 1)%float
  | None, None => true
  | _, _ => false
  end.

(* ================================================================== *)
(** ** States used in the examples *)

Definition exampleKnobs : ServerKnobs :=
  {| GLOBAL_TAG_THROTTLING_FOLDING_TIME := 10; GLOBAL_TAG_THROTTLING_MIN_RATE := 1 |}.

Definition smootherAt (level smoothedTotal smoothedRate : float) : Smoother :=
  {| eFoldingTime := 10; total := level;
     smoothTotalNow := smoothedTotal; smoothRateNow := smoothedRate |}.

Definition readQuota (totalRead reservedRead : float) : TagQuotaValue :=
  {| reservedReadQuota := reservedRead; totalReadQuota := totalRead;
     reservedWriteQuota := 0; totalWriteQuota := 0 |}.

(** A tag with a quota, [rate] transactions per second, and the given
    smoothed per-client rate. *)
Definition statsAt (q : option TagQuotaValue) (rate perClient : float) : PerTagStatistics :=
  {| quota := q;
     transactionCounter := smootherAt 0 0 rate;
     perClientRate := smootherAt perClient perClient 0 |}.

Definition countersAt (read write : float) : ThroughputCounters :=
  {| readCost := smootherAt read read 0; writeCost := smootherAt write write 0 |}.

Definition server0 : UID := (0, 0)%Z.
Definition server1 : UID := (1, 1)%Z.

(** The setting of the test MultiTagActiveThrottling on one server: two
    tags with total read quotas 50 and 100, both reading from [server0],
    whose throughput table iterates them as [first], [second]. *)
Definition twoTagsOn (first second : TransactionTag) : GlobalTagThrottlerImpl :=
  {| throttledTagChangeId := 0;
     throttlingRatios := [(server0, Some 0.5%float)];
     tagStatistics :=
       [("sampleTag1"%string, statsAt (Some (readQuota 50 0)) 5 0);
        ("sampleTag2"%string, statsAt (Some (readQuota 100 0)) 5 0)];
     throughput := [(server0, [(first, countersAt 30 0); (second, countersAt 30 0)])] |}.

(** One tag with the quota [q], ten transactions per second of read cost 6
    each on [server0], and the given smoothed per-client rate. *)
Definition oneTagWith (q : TagQuotaValue) (perClient : float) : GlobalTagThrottlerImpl :=
  {| throttledTagChangeId := 0;
     throttlingRatios := [(server0, Some 0.5%float)];
     tagStatistics := [("sampleTag1"%string, statsAt (Some q) 10 perClient)];
     throughput := [(server0, [("sampleTag1"%string, countersAt 60 0)])] |}.

(** The setting of the test ReservedReadQuota: total read quota 100,
    reserved read quota 70. *)
Definition oneTag (perClient : float) : GlobalTagThrottlerImpl :=
  oneTagWith (readQuota 100 70) perClient.

(** The tag of [oneTag] reading from two servers, the first of which
    publishes the ratio 0.5 while the second is healthy and publishes none;
    the table of ratios iterates them as [first], [second]. *)
Definition twoServers (first second : UID * option float) : GlobalTagThrottlerImpl :=
  {| throttledTagChangeId := 0;
     throttlingRatios := [first; second];
     tagStatistics := [("sampleTag1"%string, statsAt (Some (readQuota 100 70)) 10 5)];
     throughput := [(server0, [("sampleTag1"%string, countersAt 60 0)]);
                    (server1, [("sampleTag1"%string, countersAt 60 0)])] |}.

Definition throttled0 : UID * option float := (server0, Some 0.5%float).
Definition healthy1 : UID * option float := (server1, None).

(** The state of [oneTag] with a second tag that has a quota and five
    transactions per second, but for which no storage server has reported a
    cost yet. *)
Definition tagWithoutCost (perClient : float) : GlobalTagThrottlerImpl :=
  {| throttledTagChangeId := 0;
     throttlingRatios := [(server0, Some 0.5%float)];
     tagStatistics :=
       [("sampleTag1"%string, statsAt (Some (readQuota 100 70)) 10 perClient);
        ("sampleTag2"%string, statsAt (Some (readQuota 100 0)) 5 0)];
     throughput := [(server0, [("sampleTag1"%string, countersAt 60 0)])] |}.

(** Two mock storage servers with the target cost rate 100, as the
    collection of the tests builds them. *)
Definition exampleServers : StorageServerCollection :=
  [{| mock_id := server0; targetCostRate := 100;
      readCosts := []; writeCosts := [];
      totalReadCost := newCost; totalWriteCost := newCost |};
   {| mock_id := server1; targetCostRate := 100;
      readCosts := []; writeCosts := [];
      totalReadCost := newCost; totalWriteCost := newCost |}].

(** A new controller after [addRequests(sampleTag1, 1)] and
    [setThrottlingRatio(UID(1, 1), 0.5)]: a tracked tag, and a ratio for a
    storage server for which no busy tag was reported. *)
Definition ratioWithoutThroughput : GlobalTagThrottlerImpl :=
  setThrottlingRatio server1 (Some 0.5%float)
    (addRequests exampleKnobs "sampleTag1" 1 newGlobalTagThrottlerImpl).

(** A controller whose change counter has reached the largest [uint64_t]. *)
Definition lastChangeId : GlobalTagThrottlerImpl :=
  {| throttledTagChangeId := 2 ^ 64 - 1; throttlingRatios := [];
     tagStatistics := []; throughput := [] |}.

(* ================================================================== *)
(** * Facts *)

Arguments updateAndGetPerClientLimit : simpl never.
Arguments getDesiredTps : simpl never.
Arguments getReservedTps : simpl never.
Arguments getLimitingTps : simpl never.
Arguments targetTps : simpl never.
Arguments assignAt : simpl never.
Arguments std_min : simpl never.
Arguments std_max : simpl never.

(** ** Tables *)

Section TableFacts.
Variables K V : Type.
Variable keq : K -> K -> bool.
Hypothesis keq_eq : forall a b, keq a b = true <-> a = b.

Lemma keq_refl (k : K) : keq k k = true.
Proof. apply keq_eq. reflexivity. Qed.

Lemma get_In (m : unordered_map K V) (k : K) (v : V) :
  get keq m k = Some v -> In (k, v) m.
Proof.
  induction m as [| [k' v'] rest IH]; simpl; [discriminate |].
  destruct (keq k' k) eqn:E.
  - intros H. injection H as <-. apply keq_eq in E. subst. left. reflexivity.
  - intros H. right. auto.
Qed.

Lemma get_None_not_In (m : unordered_map K V) (k : K) :
  get keq m k = None <-> ~ In k (keys m).
Proof.
  induction m as [| [k' v'] rest IH]; simpl.
  - split; auto.
  - destruct (keq k' k) eqn:E.
    + apply keq_eq in E. split; [discriminate | intros H; exfalso; apply H; auto].
    + rewrite IH. split.
      * intros H [H1 | H1]; [| auto]. subst. rewrite keq_refl in E. discriminate.
      * intros H H1. apply H. auto.
Qed.

Lemma erase_absent (m : unordered_map K V) (k : K) :
  get keq m k = None -> erase keq m k = m.
Proof.
  induction m as [| [k' v'] rest IH]; simpl; [reflexivity |].
  destruct (keq k' k); [discriminate |].
  intros H. rewrite IH by assumption. reflexivity.
Qed.

Lemma get_subscript_update (m : unordered_map K V) (k k' : K) (d : V) (f : V -> V) :
  get keq (subscript_update keq m k d f) k' =
  if keq k k' then Some (f (orDefault (get keq m k) d)) else get keq m k'.
Proof.
  induction m as [| [k0 v0] rest IH]; simpl.
  - destruct (keq k k'); reflexivity.
  - destruct (keq k0 k) eqn:E0; simpl.
    + apply keq_eq in E0. subst k0. destruct (keq k k'); reflexivity.
    + rewrite IH. destruct (keq k0 k') eqn:E1; [| reflexivity].
      apply keq_eq in E1. subst k0.
      destruct (keq k k') eqn:E2; [| reflexivity].
      apply keq_eq in E2. subst k'. rewrite keq_refl in E0. discriminate.
Qed.

Lemma keys_subscript_update (m : unordered_map K V) (k k' : K) (d : V) (f : V -> V) :
  In k' (keys m) -> In k' (keys (subscript_update keq m k d f)).
Proof.
  induction m as [| [k0 v0] rest IH]; simpl; [tauto |].
  destruct (keq k0 k); simpl; tauto.
Qed.

Lemma subscript_update_has_key (m : unordered_map K V) (k : K) (d : V) (f : V -> V) :
  In k (keys (subscript_update keq m k d f)).
Proof.
  induction m as [| [k0 v0] rest IH]; simpl; [auto |].
  destruct (keq k0 k) eqn:E; simpl; [| auto].
  apply keq_eq in E. auto.
Qed.

Lemma length_subscript_update_absent (m : unordered_map K V) (k : K) (d : V) (f : V -> V) :
  get keq m k = None ->
  List.length (subscript_update keq m k d f) = S (List.length m).
Proof.
  induction m as [| [k0 v0] rest IH]; simpl; [reflexivity |].
  destruct (keq k0 k); [discriminate |].
  intros H. simpl. rewrite IH by assumption. reflexivity.
Qed.
End TableFacts.

Lemma String_eqb_eq (a b : string) : String.eqb a b = true <-> a = b.
Proof. apply String.eqb_eq. Qed.

Lemma UID_eqb_eq (a b : UID) : UID_eqb a b = true <-> a = b.
Proof.
  destruct a as [a1 a2], b as [b1 b2]. unfold UID_eqb. simpl.
  rewrite andb_true_iff, !Z.eqb_eq. split.
  - intros [-> ->]. reflexivity.
  - intros H. injection H. auto.
Qed.

Lemma withTagStatistics_same (self : GlobalTagThrottlerImpl) :
  withTagStatistics self (tagStatistics self) = self.
Proof. destruct self. reflexivity. Qed.

(* ================================================================== *)
(** ** getQuotaRatio *)

Lemma StringRef_compare_refl (tag : TransactionTag) : StringRef_compare tag tag = 0%Z.
Proof.
  unfold StringRef_compare.
  destruct (String.compare tag tag) eqn:E; [reflexivity | |].
  - pose proof (String.compare_antisym tag tag) as H. rewrite E in H. discriminate.
  - pose proof (String.compare_antisym tag tag) as H. rewrite E in H. discriminate.
Qed.

(** The test of the loop always succeeds: each round overwrites [tagQuota]
    with the quota of the tag it visits. *)
Lemma quotaRatioStep_overwrites self tag opType locals t :
  quotaRatioStep self tag opType locals t =
  ((fst locals + orDefault (getQuota self t opType TOTAL) 0)%float,
   orDefault (getQuota self t opType TOTAL) 0%float).
Proof. unfold quotaRatioStep. rewrite StringRef_compare_refl. reflexivity. Qed.

(** The ratio does not depend on the tag it is asked for. *)
Lemma getQuotaRatio_ignores_tag self tag tag' storageServerId opType :
  getQuotaRatio self tag storageServerId opType =
  getQuotaRatio self tag' storageServerId opType.
Proof.
  unfold getQuotaRatio.
  assert (E : forall ts locals,
             fold_left (quotaRatioStep self tag opType) ts locals =
             fold_left (quotaRatioStep self tag' opType) ts locals).
  { induction ts as [| t ts IH]; intros locals; simpl; [reflexivity |].
    rewrite !quotaRatioStep_overwrites. apply IH. }
  rewrite E. reflexivity.
Qed.

(** C1, at the failing input: with quotas 50 and 100 on one server, the
    source returns 100/150 for the tag iterated first, whichever of the two
    that is, where the specification's ratio is the tag's own share (50/150
    for sampleTag1, 100/150 for sampleTag2).  Whatever the order of the
    table, one of the two tags gets the other's share. *)
Theorem getQuotaRatio_last_tag_wins :
  getQuotaRatio (twoTagsOn "sampleTag1" "sampleTag2") "sampleTag1" server0 READ
    = Ok (100 / 150)%float
  /\ spec_quota_ratio (twoTagsOn "sampleTag1" "sampleTag2") "sampleTag1" server0 READ
    = (50 / 150)%float
  /\ getQuotaRatio (twoTagsOn "sampleTag2" "sampleTag1") "sampleTag2" server0 READ
    = Ok (50 / 150)%float
  /\ spec_quota_ratio (twoTagsOn "sampleTag2" "sampleTag1") "sampleTag2" server0 READ
    = (100 / 150)%float
  /\ (100 / 150 =? 50 / 150)%float = false.
Proof. repeat split; vm_compute; reflexivity. Qed.

(* ================================================================== *)
(** ** getLimitingCost *)

(** What the guard of [getLimitingCost] leaves: a fault when a ratio is
    published for a server without a throughput table, absent otherwise. *)
Lemma getLimitingCost_cases self storageServerId opType :
  getLimitingCost self storageServerId opType =
  match get UID_eqb (throttlingRatios self) storageServerId,
        getCurrentCost_ss self storageServerId opType with
  | Some (Some _), None => AssertionFailed
  | _, _ => Ok None
  end.
Proof.
  unfold getLimitingCost.
  destruct (get UID_eqb (throttlingRatios self) storageServerId) as [[r |] |];
    destruct (getCurrentCost_ss self storageServerId opType); reflexivity.
Qed.

(** The source never returns a limiting cost. *)
Lemma getLimitingCost_never_present self storageServerId opType (v : float) :
  getLimitingCost self storageServerId opType <> Ok (Some v).
Proof.
  rewrite getLimitingCost_cases.
  destruct (get UID_eqb (throttlingRatios self) storageServerId) as [[r |] |];
    destruct (getCurrentCost_ss self storageServerId opType); discriminate.
Qed.

(** C2, at the failing input: [server0] publishes the ratio 0.5 and its
    current read cost is 60, so the limiting cost of the specification is 30;
    the source returns absent.  And where the ratio is published for a server
    that has no throughput table yet ([server1]), the source fails the
    assertion of [Optional::get] where the specification has absent. *)
Theorem getLimitingCost_absent_when_both_present :
  get UID_eqb (throttlingRatios (oneTag 0)) server0 = Some (Some 0.5%float)
  /\ getCurrentCost_ss (oneTag 0) server0 READ = Some 60%float
  /\ spec_limiting_cost (oneTag 0) server0 READ = Some 30%float
  /\ getLimitingCost (oneTag 0) server0 READ = Ok None
  /\ spec_limiting_cost (setThrottlingRatio server1 (Some 0.5%float) (oneTag 0)) server1 READ
     = None
  /\ getLimitingCost (setThrottlingRatio server1 (Some 0.5%float) (oneTag 0)) server1 READ
     = AssertionFailed.
Proof. repeat split; vm_compute; reflexivity. Qed.

(* ================================================================== *)
(** ** removeUnseenTags *)

Lemma removeUnseenTags_loop_id (its : list TransactionTag)
  (ts : unordered_map TransactionTag PerTagStatistics) :
  removeUnseenTags_loop its ts = ts.
Proof.
  revert ts. induction its as [| tag rest IH]; intros ts; simpl; [reflexivity |].
  destruct (get String.eqb ts tag) eqn:E; simpl.
  - apply IH.
  - rewrite erase_absent by assumption. apply IH.
Qed.

(** [removeUnseenTags] removes nothing, whatever tags were seen. *)
Lemma removeUnseenTags_id (seenTags : list TransactionTag) (self : GlobalTagThrottlerImpl) :
  removeUnseenTags seenTags self = self.
Proof.
  unfold removeUnseenTags. rewrite removeUnseenTags_loop_id.
  apply withTagStatistics_same.
Qed.

(* ================================================================== *)
(** ** getLimitingTps *)


(** A server whose value is absent resets the aggregate: when the server
    iterated last yields absent, the result is absent. *)
Lemma limitingTps_fold_last_absent (values : list (option float)) (result : option float) :
  fold_left limitingTpsStep (values ++ [None]) result = None.
Proof.
  rewrite fold_left_app. simpl.
  destruct (fold_left limitingTpsStep values result); reflexivity.
Qed.



(** Over [getLimitingCost], the code written over the limiting cost is
    the source's. *)
Lemma limitingTpsOver_getLimitingCost self tag :
  (forall id opType,
      limitingTps_ss_over getLimitingCost self id tag opType
      = getLimitingTps_ss self id tag opType)
  /\ (forall opType,
        limitingTps_op_over getLimitingCost self tag opType
        = getLimitingTps_op self tag opType)
  /\ limitingTpsOver getLimitingCost self tag = getLimitingTps self tag.
Proof.
  assert (Hss : forall id opType,
             limitingTps_ss_over getLimitingCost self id tag opType
             = getLimitingTps_ss self id tag opType) by reflexivity.
  assert (Hop : forall opType,
             limitingTps_op_over getLimitingCost self tag opType
             = getLimitingTps_op self tag opType).
  { intros opType. unfold limitingTps_op_over, getLimitingTps_op.
    generalize (@None float). generalize (keys (throttlingRatios self)).
    induction l as [| id ids IH]; intros result; simpl; [reflexivity |].
    rewrite Hss. destruct (getLimitingTps_ss self id tag opType); simpl;
      [apply IH | reflexivity]. }
  split; [exact Hss |]. split; [exact Hop |].
  unfold limitingTpsOver, getLimitingTps. rewrite !Hop. reflexivity.
Qed.

(** What the step of the loop does with an absent value that follows a
    present one: when the servers yield 5 and then absent, the loop of
    [getLimitingTps(tag, opType)] would end with absent, and with 5, absent
    and 7 it would end with 7, the minimum over the present values being 5 in
    both.  With the limiting cost of the specification a throttled server
    iterated before a healthy one yields such values.  In this revision no
    server yields a present value, so that the loop never meets them. *)
Theorem limitingTps_absent_server_resets :
  fold_left limitingTpsStep [Some 5%float; None] None = None
  /\ spec_min_of_present [Some 5%float; None] = Some 5%float
  /\ fold_left limitingTpsStep [Some 5%float; None; Some 7%float] None = Some 7%float
  /\ spec_min_of_present [Some 5%float; None; Some 7%float] = Some 5%float
  /\ limitingTps_ss_over specLimitingCostOf (twoServers throttled0 healthy1)
       server0 "sampleTag1" READ = Ok (Some 5%float)
  /\ limitingTps_ss_over specLimitingCostOf (twoServers throttled0 healthy1)
       server1 "sampleTag1" READ = Ok None
  /\ limitingTps_op_over specLimitingCostOf (twoServers throttled0 healthy1)
       "sampleTag1" READ = Ok None
  /\ limitingTps_op_over specLimitingCostOf (twoServers healthy1 throttled0)
       "sampleTag1" READ = Ok (Some 5%float).
Proof. repeat split; vm_compute; reflexivity. Qed.

(* ================================================================== *)
(** ** What the operations do to the table of tags and to the counter *)

(** The loop of [getClientRates] only rewrites records in place: it leaves
    a state that differs from [self] in the per-tag table alone, with the
    same tags in the same order. *)
Lemma getClientRates_loop_shape knobs limitingTpsOf self :
  forall todo done result r self',
    getClientRates_loop knobs limitingTpsOf self done todo result = Ok (r, self') ->
    exists ts, self' = withTagStatistics self ts /\ keys ts = keys (done ++ todo).
Proof.
  induction todo as [| [tag stats] rest IH]; intros done result r self' H; simpl in H.
  - injection H as _ <-. exists done. rewrite app_nil_r. auto.
  - destruct (limitingTpsOf _ tag) as [[l |] |]; simpl in H; try discriminate.
    + destruct (getDesiredTps _ tag) as [d |].
      * destruct (getReservedTps _ tag) as [rv |].
        -- destruct (updateAndGetPerClientLimit knobs (Some (targetTps rv l d)) stats)
             as [[limit |] stats'] eqn:E; simpl in H; try discriminate.
           apply IH in H. destruct H as [ts [-> Hk]]. exists ts. split; [reflexivity |].
           rewrite Hk. unfold keys. rewrite !map_app. simpl.
           rewrite <- app_assoc. reflexivity.
        -- injection H as _ <-. eexists. split; reflexivity.
      * injection H as _ <-. eexists. split; reflexivity.
    + injection H as _ <-. eexists. split; reflexivity.
Qed.

Lemma applyQuotaRows_shape knobs rows :
  forall seenTags self seenTags' self',
    applyQuotaRows knobs rows seenTags self = Some (seenTags', self') ->
    throttledTagChangeId self' = throttledTagChangeId self
    /\ forall tag, tracked tag self -> tracked tag self'.
Proof.
  induction rows as [| [tag [q |]] rest IH]; intros seenTags self seenTags' self' H;
    simpl in H.
  - injection H as _ <-. auto.
  - apply IH in H. destruct H as [Hid Hk]. split; [exact Hid |].
    intros t Ht. apply Hk. unfold tracked in *. simpl.
    apply keys_subscript_update. exact Ht.
  - discriminate.
Qed.

Lemma applyQuotaRowsUntilThrow_shape knobs rows :
  forall self,
    throttledTagChangeId (applyQuotaRowsUntilThrow knobs rows self) = throttledTagChangeId self
    /\ forall tag, tracked tag self -> tracked tag (applyQuotaRowsUntilThrow knobs rows self).
Proof.
  induction rows as [| [tag [q |]] rest IH]; intros self; simpl; auto.
  destruct (IH (withTagStatistics self
                  (subscript_update String.eqb (tagStatistics self) tag
                     (newPerTagStatistics knobs) (PerTagStatistics_setQuota q))))
    as [Hid Hk].
  split; [exact Hid |].
  intros t Ht. apply Hk. unfold tracked in *. simpl.
  apply keys_subscript_update. exact Ht.
Qed.

(** No event ever removes a tag from the table. *)
Lemma step_keeps_tracked knobs e self self' tag :
  step knobs e self = Ok self' -> tracked tag self -> tracked tag self'.
Proof.
  unfold tracked. destruct e; simpl; intros H Ht.
  - injection H as <-. simpl. apply keys_subscript_update. exact Ht.
  - destruct (getClientRates knobs self) as [[r s] |] eqn:E; simpl in H; [| discriminate].
    injection H as <-. apply getClientRates_loop_shape in E.
    destruct E as [ts [-> Hk]]. simpl. rewrite Hk. exact Ht.
  - injection H as <-. exact Ht.
  - injection H as <-. exact Ht.
  - injection H as <-. simpl. apply keys_subscript_update. exact Ht.
  - injection H as <-. simpl. apply keys_subscript_update. exact Ht.
  - injection H as <-. unfold monitorThrottlingChanges_pass.
    destruct currentQuotas as [rows |]; [| exact Ht].
    destruct (applyQuotaRows knobs rows [] self) as [[seen s] |] eqn:E;
      cbn [stateAfter].
    + rewrite removeUnseenTags_id. apply applyQuotaRows_shape in E.
      destruct E as [_ Hk]. apply Hk. exact Ht.
    + apply applyQuotaRowsUntilThrow_shape. exact Ht.
  - injection H as <-. simpl. unfold keys in *. rewrite map_map. simpl. exact Ht.
Qed.

Lemma run_keeps_tracked knobs es :
  forall self self' tag,
    run knobs es self = Ok self' -> tracked tag self -> tracked tag self'.
Proof.
  induction es as [| e rest IH]; intros self self' tag H Ht; simpl in H.
  - injection H as <-. exact Ht.
  - destruct (step knobs e self) as [s |] eqn:E; simpl in H; [| discriminate].
    eapply IH; [exact H |]. eapply step_keeps_tracked; eauto.
Qed.

(** An event changes the counter only when it is a pass of the watcher that
    completes its scan, and then by one, modulo [2^64]. *)
Lemma step_changeId knobs e self self' :
  step knobs e self = Ok self' ->
  throttledTagChangeId self' =
  if completesScan knobs e self
  then ((throttledTagChangeId self + 1) mod 2 ^ 64)%Z
  else throttledTagChangeId self.
Proof.
  destruct e; simpl; intros H; try (injection H as <-; reflexivity).
  - destruct (getClientRates knobs self) as [[r s] |] eqn:E; simpl in H; [| discriminate].
    injection H as <-. apply getClientRates_loop_shape in E.
    destruct E as [ts [-> _]]. reflexivity.
  - injection H as <-. unfold monitorThrottlingChanges_pass.
    destruct currentQuotas as [rows |]; [| reflexivity].
    destruct (applyQuotaRows knobs rows [] self) as [[seen s] |] eqn:E;
      cbn [stateAfter].
    + rewrite removeUnseenTags_id. apply applyQuotaRows_shape in E.
      destruct E as [Hid _]. unfold incrementChangeId. cbn [throttledTagChangeId].
      rewrite Hid. reflexivity.
    + apply applyQuotaRowsUntilThrow_shape.
Qed.

Lemma run_changeId knobs es :
  forall self self',
    run knobs es self = Ok self' ->
    (throttledTagChangeId self' mod 2 ^ 64 =
     (throttledTagChangeId self + completedScans knobs es self) mod 2 ^ 64)%Z.
Proof.
  induction es as [| e rest IH]; intros self self' H; cbn [run completedScans] in *.
  - injection H as <-. rewrite Z.add_0_r. reflexivity.
  - destruct (step knobs e self) as [s |] eqn:E; cbn [bind] in H; [| discriminate].
    rewrite (IH _ _ H). rewrite (step_changeId _ _ _ E).
    destruct (completesScan knobs e self).
    + rewrite Zplus_mod_idemp_l. f_equal; lia.
    + f_equal; lia.
Qed.

Lemma run_changeId_range knobs es :
  forall self self',
    run knobs es self = Ok self' ->
    (0 <= throttledTagChangeId self < 2 ^ 64)%Z ->
    (0 <= throttledTagChangeId self' < 2 ^ 64)%Z.
Proof.
  induction es as [| e rest IH]; intros self self' H Hr; cbn [run] in *.
  - injection H as <-. exact Hr.
  - destruct (step knobs e self) as [s |] eqn:E; cbn [bind] in H; [| discriminate].
    apply (IH _ _ H). rewrite (step_changeId _ _ _ E).
    destruct (completesScan knobs e self); [| exact Hr].
    apply Z.mod_pos_bound. lia.
Qed.

Lemma completedScans_nonneg knobs es :
  forall self, (0 <= completedScans knobs es self)%Z.
Proof.
  induction es as [| e rest IH]; intros self; simpl; [lia |].
  destruct (step knobs e self) as [s |]; [| lia].
  specialize (IH s). destruct (completesScan knobs e self); lia.
Qed.

(* ================================================================== *)
(** ** The round trip of a quota *)

(** C3, at the failing input: on a new controller, [setQuota(t, q)], then
    [removeQuota(t)], then a pass of the watcher whose scan has no row for
    [t], leave the record of [t] in the table (its quota cleared), where the
    table was empty before the insert.  From any state and for any scan, the
    record of [t] is still in the table after the three steps. *)
Theorem roundTrip_leaves_record :
  (tagStatistics newGlobalTagThrottlerImpl = []
   /\ exists self',
       run exampleKnobs
         [CallSetQuota "sampleTag1" (readQuota 100 0);
          CallRemoveQuota "sampleTag1";
          WatcherPass (Some [])]
         newGlobalTagThrottlerImpl = Ok self'
       /\ tagStatistics self' = [("sampleTag1"%string, newPerTagStatistics exampleKnobs)]
       /\ autoThrottleCount self' = 1%Z)
  /\ forall knobs self t q rows self',
      run knobs [CallSetQuota t q; CallRemoveQuota t; WatcherPass (Some rows)] self
        = Ok self' ->
      tracked t self'.
Proof.
  split.
  - split; [reflexivity |].
    eexists. split; [vm_compute; reflexivity |].
    split; vm_compute; reflexivity.
  - intros knobs self t q rows self' H.
    change (run knobs [CallRemoveQuota t; WatcherPass (Some rows)] (setQuota knobs t q self)
            = Ok self') in H.
    eapply run_keeps_tracked; [exact H |].
    unfold tracked, setQuota. cbn [tagStatistics withTagStatistics].
    apply (@subscript_update_has_key _ _ _ String_eqb_eq).
Qed.

(* ================================================================== *)
(** ** The change counter *)

(** A pass of the watcher over an empty quota table, on a controller with
    empty tables. *)
Lemma emptyPass_changeId knobs (i : Z) :
  step knobs (WatcherPass (Some []))
    {| throttledTagChangeId := i; throttlingRatios := [];
       tagStatistics := []; throughput := [] |}
  = Ok {| throttledTagChangeId := (i + 1) mod 2 ^ 64; throttlingRatios := [];
          tagStatistics := []; throughput := [] |}.
Proof. reflexivity. Qed.

Lemma emptyPasses_changeId knobs (n : nat) :
  forall i : Z,
    (0 <= i < 2 ^ 64)%Z ->
    run knobs (repeat (WatcherPass (Some [])) n)
      {| throttledTagChangeId := i; throttlingRatios := [];
         tagStatistics := []; throughput := [] |}
    = Ok {| throttledTagChangeId := (i + Z.of_nat n) mod 2 ^ 64; throttlingRatios := [];
            tagStatistics := []; throughput := [] |}.
Proof.
  induction n as [| n IH]; intros i Hi.
  - cbn [repeat run]. rewrite Z.add_0_r, Z.mod_small by exact Hi. reflexivity.
  - cbn [repeat run]. rewrite emptyPass_changeId. cbn [bind].
    rewrite IH by (apply Z.mod_pos_bound; lia).
    rewrite Zplus_mod_idemp_l.
    replace (i + 1 + Z.of_nat n)%Z with (i + Z.of_nat (S n))%Z by lia.
    reflexivity.
Qed.

(** C9: the counter starts at 0, a pass of the watcher that completes its
    scan adds exactly one to it, and no other event changes it, so that it is
    the number of scans completed so far and never decreases.  This holds
    over any life of a controller in which fewer than [2^64 - 1] scans have
    been completed (every completed scan is followed by a delay of five
    seconds); the counter being a [uint64_t], the addition is modulo [2^64],
    which the first part states without that bound. *)
Theorem changeId_counts_completed_scans knobs es e self self' :
  run knobs es newGlobalTagThrottlerImpl = Ok self ->
  step knobs e self = Ok self' ->
  getThrottledTagChangeId newGlobalTagThrottlerImpl = 0%Z
  /\ getThrottledTagChangeId self
     = (completedScans knobs es newGlobalTagThrottlerImpl mod 2 ^ 64)%Z
  /\ getThrottledTagChangeId self'
     = (if completesScan knobs e self
        then (getThrottledTagChangeId self + 1) mod 2 ^ 64
        else getThrottledTagChangeId self)%Z
  /\ ((getThrottledTagChangeId self < 2 ^ 64 - 1)%Z ->
      (getThrottledTagChangeId self <= getThrottledTagChangeId self')%Z)
  /\ ((completedScans knobs es newGlobalTagThrottlerImpl < 2 ^ 64 - 1)%Z ->
      getThrottledTagChangeId self = completedScans knobs es newGlobalTagThrottlerImpl
      /\ getThrottledTagChangeId self'
         = (getThrottledTagChangeId self + (if completesScan knobs e self then 1 else 0))%Z
      /\ (getThrottledTagChangeId self <= getThrottledTagChangeId self')%Z).
Proof.
  intros Hrun Hstep. unfold getThrottledTagChangeId.
  assert (Hr : (0 <= throttledTagChangeId self < 2 ^ 64)%Z).
  { apply (run_changeId_range _ _ _ Hrun). cbn [throttledTagChangeId newGlobalTagThrottlerImpl]. lia. }
  assert (Hcount : throttledTagChangeId self
                   = (completedScans knobs es newGlobalTagThrottlerImpl mod 2 ^ 64)%Z).
  { pose proof (run_changeId _ _ _ Hrun) as H.
    rewrite Z.mod_small in H by exact Hr. exact H. }
  split; [reflexivity |]. split; [exact Hcount |].
  split; [apply step_changeId; exact Hstep |].
  split.
  - intros Hlt. rewrite (step_changeId _ _ _ Hstep).
    destruct (completesScan knobs e self); [| lia].
    rewrite Z.mod_small; lia.
  - intros Hbound.
    pose proof (completedScans_nonneg knobs es newGlobalTagThrottlerImpl) as Hnn.
    rewrite Z.mod_small in Hcount by lia.
    split; [exact Hcount |].
    rewrite (step_changeId _ _ _ Hstep).
    destruct (completesScan knobs e self).
    + rewrite Z.mod_small by lia. split; lia.
    + split; lia.
Qed.

Lemma changeId_counts_completed_scans_witness :
  exists self self',
    run exampleKnobs [CallSetQuota "sampleTag1" (readQuota 100 0); WatcherPass (Some [])]
      newGlobalTagThrottlerImpl = Ok self
    /\ step exampleKnobs (WatcherPass (Some [("sampleTag1"%string, Some (readQuota 50 0))]))
         self = Ok self'
    /\ getThrottledTagChangeId self = 1%Z
    /\ getThrottledTagChangeId self' = 2%Z
    /\ (completedScans exampleKnobs
          [CallSetQuota "sampleTag1" (readQuota 100 0); WatcherPass (Some [])]
          newGlobalTagThrottlerImpl < 2 ^ 64 - 1)%Z
    /\ (getThrottledTagChangeId self <= getThrottledTagChangeId self')%Z.
Proof.
  eexists. eexists.
  split; [vm_compute; reflexivity |].
  split; [vm_compute; reflexivity |].
  pose proof (changeId_counts_completed_scans exampleKnobs
                [CallSetQuota "sampleTag1" (readQuota 100 0); WatcherPass (Some [])]
                (WatcherPass (Some [("sampleTag1"%string, Some (readQuota 50 0))]))
                eq_refl eq_refl) as [_ [H1 [H2 [_ H5]]]].
  split; [exact H1 |]. split; [exact H2 |].
  assert (Hbound : (completedScans exampleKnobs
                      [CallSetQuota "sampleTag1" (readQuota 100 0); WatcherPass (Some [])]
                      newGlobalTagThrottlerImpl < 2 ^ 64 - 1)%Z)
    by (vm_compute; reflexivity).
  split; [exact Hbound |].
  destruct (H5 Hbound) as (_ & _ & Hle). exact Hle.
Defined.

(** Beyond that bound the counter wraps, as a [uint64_t] does: after
    [2^64 - 1] completed scans it is [2^64 - 1], and one more completed scan
    takes it to 0.  (No controller lives that long.) *)
Lemma changeId_wraps_to_zero :
  run exampleKnobs (repeat (WatcherPass (Some [])) (Z.to_nat (2 ^ 64 - 1)))
    newGlobalTagThrottlerImpl = Ok lastChangeId
  /\ getThrottledTagChangeId lastChangeId = (2 ^ 64 - 1)%Z
  /\ completesScan exampleKnobs (WatcherPass (Some [])) lastChangeId = true
  /\ exists self',
      step exampleKnobs (WatcherPass (Some [])) lastChangeId = Ok self'
      /\ getThrottledTagChangeId self' = 0%Z
      /\ (getThrottledTagChangeId self' < getThrottledTagChangeId lastChangeId)%Z.
Proof.
  split.
  - unfold newGlobalTagThrottlerImpl, lastChangeId.
    rewrite emptyPasses_changeId by lia.
    rewrite Z2Nat.id by lia. reflexivity.
  - split; [reflexivity |]. split; [reflexivity |].
    eexists. split; [apply emptyPass_changeId |].
    split; reflexivity.
Qed.

(* ================================================================== *)
(** ** Records created by [operator[]] *)

(** C10: on a tag without a record, [removeQuota] (like [addRequests])
    inserts a record built by the default constructor, with no quota and
    smoothers at zero; [autoThrottleCount] grows by one, and the tag stays in
    the table [getClientRates] iterates whatever happens afterwards. *)
Theorem removeQuota_inserts_default_record knobs self tag :
  get String.eqb (tagStatistics self) tag = None ->
  get String.eqb (tagStatistics (removeQuota knobs tag self)) tag
    = Some (newPerTagStatistics knobs)
  /\ PerTagStatistics_getQuota (newPerTagStatistics knobs) = None
  /\ getTransactionRate (newPerTagStatistics knobs) = 0%float
  /\ getTotal (transactionCounter (newPerTagStatistics knobs)) = 0%float
  /\ smoothTotal (perClientRate (newPerTagStatistics knobs)) = 0%float
  /\ getTotal (perClientRate (newPerTagStatistics knobs)) = 0%float
  /\ autoThrottleCount (removeQuota knobs tag self) = (autoThrottleCount self + 1)%Z
  /\ (forall count,
        get String.eqb (tagStatistics (addRequests knobs tag count self)) tag
          = Some (addTransactions count (newPerTagStatistics knobs))
        /\ autoThrottleCount (addRequests knobs tag count self)
           = (autoThrottleCount self + 1)%Z)
  /\ (forall es self',
        run knobs es (removeQuota knobs tag self) = Ok self' ->
        tracked tag self'
        /\ exists done stats todo, tagStatistics self' = done ++ (tag, stats) :: todo).
Proof.
  intros Habsent. unfold removeQuota, addRequests, autoThrottleCount.
  cbn [tagStatistics withTagStatistics].
  rewrite !(@get_subscript_update _ _ _ String_eqb_eq), String.eqb_refl, Habsent.
  repeat (split; [reflexivity |]).
  split.
  { rewrite length_subscript_update_absent by exact Habsent.
    rewrite Nat2Z.inj_succ. symmetry. apply Z.add_1_r. }
  split.
  { intros count.
    rewrite (@get_subscript_update _ _ _ String_eqb_eq), String.eqb_refl, Habsent.
    split; [reflexivity |].
    rewrite length_subscript_update_absent by exact Habsent.
    rewrite Nat2Z.inj_succ. symmetry. apply Z.add_1_r. }
  intros es self' Hrun.
  assert (Ht : tracked tag self').
  { eapply run_keeps_tracked; [exact Hrun |]. unfold tracked.
    cbn [tagStatistics withTagStatistics].
    apply (@subscript_update_has_key _ _ _ String_eqb_eq). }
  split; [exact Ht |].
  unfold tracked, keys in Ht. apply in_map_iff in Ht.
  destruct Ht as [[t stats] [Heq Hin]]. simpl in Heq. subst t.
  apply in_split in Hin. destruct Hin as [done [todo ->]].
  exists done, stats, todo. reflexivity.
Qed.

Lemma removeQuota_inserts_default_record_witness :
  get String.eqb (tagStatistics (twoTagsOn "sampleTag1" "sampleTag2")) "sampleTag3"%string = None
  /\ autoThrottleCount (twoTagsOn "sampleTag1" "sampleTag2") = 2%Z
  /\ autoThrottleCount (removeQuota exampleKnobs "sampleTag3" (twoTagsOn "sampleTag1" "sampleTag2"))
     = (autoThrottleCount (twoTagsOn "sampleTag1" "sampleTag2") + 1)%Z.
Proof.
  split; [reflexivity |]. split; [reflexivity |].
  apply (removeQuota_inserts_default_record exampleKnobs
           (twoTagsOn "sampleTag1" "sampleTag2") "sampleTag3" eq_refl).
Defined.

(* ================================================================== *)
(** ** The order of doubles *)

(** The comparison of the IEEE specification is the lexicographic
    comparison of the ranks; a NaN compares with nothing. *)
Lemma SFcompare_rank (x y : spec_float) :
  SFcompare x y =
  match rank x, rank y with
  | Some a, Some b => Some (lexCompare a b)
  | _, _ => None
  end.
Proof.
  destruct x as [sx | sx | | sx mx ex], y as [sy | sy | | sy my ey];
    try destruct sx; try destruct sy; try reflexivity.
  unfold SFcompare, rank, lexCompare. cbn [fst snd].
  rewrite Z.compare_opp, (Z.compare_antisym ex ey).
  destruct (ex ?= ey)%Z; reflexivity.
Qed.

Lemma lexCompare_Lt a b : lexCompare a b = Lt <-> lexLt a b.
Proof.
  destruct a as [[a1 a2] a3], b as [[b1 b2] b3]. unfold lexCompare, lexLt. cbn [fst snd].
  destruct (Z.compare_spec a1 b1); destruct (Z.compare_spec a2 b2);
    destruct (Z.compare_spec a3 b3); split; intros; try discriminate; try reflexivity; lia.
Qed.

Lemma lexCompare_Eq a b : lexCompare a b = Eq <-> a = b.
Proof.
  destruct a as [[a1 a2] a3], b as [[b1 b2] b3]. unfold lexCompare. cbn [fst snd].
  destruct (Z.compare_spec a1 b1); destruct (Z.compare_spec a2 b2);
    destruct (Z.compare_spec a3 b3); split; intros H'; try discriminate; try reflexivity;
    try (injection H' as -> -> ->); try lia; subst; reflexivity.
Qed.

Lemma lexCompare_Gt a b : lexCompare a b = Gt <-> lexLt b a.
Proof.
  destruct a as [[a1 a2] a3], b as [[b1 b2] b3]. unfold lexCompare, lexLt. cbn [fst snd].
  destruct (Z.compare_spec a1 b1); destruct (Z.compare_spec a2 b2);
    destruct (Z.compare_spec a3 b3); split; intros; try discriminate; try reflexivity; lia.
Qed.

Lemma flt_rank x y : flt x y <-> exists a b, frank x = Some a /\ frank y = Some b /\ lexLt a b.
Proof.
  unfold flt, frank. rewrite ltb_spec. unfold SFltb. rewrite SFcompare_rank.
  destruct (rank (Prim2SF x)) as [a |], (rank (Prim2SF y)) as [b |].
  - destruct (lexCompare a b) eqn:E.
    + split; [discriminate |]. intros [a' [b' [Ha [Hb Hl]]]].
      injection Ha as <-. injection Hb as <-. apply lexCompare_Lt in Hl. congruence.
    + split; [| reflexivity]. intros _. exists a, b. rewrite <- lexCompare_Lt. auto.
    + split; [discriminate |]. intros [a' [b' [Ha [Hb Hl]]]].
      injection Ha as <-. injection Hb as <-. apply lexCompare_Lt in Hl. congruence.
  - split; [discriminate |]. intros [a' [b' [_ [Hb _]]]]. discriminate.
  - split; [discriminate |]. intros [a' [b' [Ha _]]]. discriminate.
  - split; [discriminate |]. intros [a' [b' [Ha _]]]. discriminate.
Qed.

Lemma fle_rank x y :
  fle x y <-> exists a b, frank x = Some a /\ frank y = Some b /\ (lexLt a b \/ a = b).
Proof.
  unfold fle, frank. rewrite leb_spec. unfold SFleb. rewrite SFcompare_rank.
  destruct (rank (Prim2SF x)) as [a |], (rank (Prim2SF y)) as [b |].
  - destruct (lexCompare a b) eqn:E.
    + split; [| reflexivity]. intros _. exists a, b. rewrite <- lexCompare_Eq. auto.
    + split; [| reflexivity]. intros _. exists a, b. rewrite <- lexCompare_Lt. auto.
    + split; [discriminate |]. intros [a' [b' [Ha [Hb Hl]]]].
      injection Ha as <-. injection Hb as <-.
      rewrite <- lexCompare_Lt, <- lexCompare_Eq in Hl. destruct Hl; congruence.
  - split; [discriminate |]. intros [a' [b' [_ [Hb _]]]]. discriminate.
  - split; [discriminate |]. intros [a' [b' [Ha _]]]. discriminate.
  - split; [discriminate |]. intros [a' [b' [Ha _]]]. discriminate.
Qed.

Lemma isNumber_rank x : isNumber x <-> exists a, frank x = Some a.
Proof.
  unfold isNumber, is_nan, frank. rewrite eqb_spec. unfold SFeqb. rewrite SFcompare_rank.
  destruct (rank (Prim2SF x)) as [a |].
  - assert (E : lexCompare a a = Eq) by (apply lexCompare_Eq; reflexivity).
    rewrite E. split; [eauto | reflexivity].
  - split; [discriminate |]. intros [a H]. discriminate.
Qed.

Lemma not_flt_rank x y :
  (x <? y)%float = false <->
  match frank x, frank y with
  | Some a, Some b => lexLt b a \/ a = b
  | _, _ => True
  end.
Proof.
  unfold frank. rewrite ltb_spec. unfold SFltb. rewrite SFcompare_rank.
  destruct (rank (Prim2SF x)) as [a |], (rank (Prim2SF y)) as [b |]; try tauto.
  rewrite <- lexCompare_Gt, <- lexCompare_Eq.
  destruct (lexCompare a b); split; intros H; try discriminate; try reflexivity; auto.
  destruct H; discriminate.
Qed.

Ltac float_order :=
  repeat match goal with
         | H : flt _ _ |- _ => apply flt_rank in H; destruct H as (? & ? & ? & ? & ?)
         | H : fle _ _ |- _ => apply fle_rank in H; destruct H as (? & ? & ? & ? & ?)
         | H : isNumber _ |- _ => apply isNumber_rank in H; destruct H as (? & ?)
         | H : (_ <? _)%float = false |- _ => apply not_flt_rank in H
         end;
  repeat match goal with
         | H : frank ?x = Some _, H' : frank ?x = Some _ |- _ =>
             rewrite H in H'; injection H' as <-
         | H : frank ?x = Some _, H' : context [frank ?x] |- _ => rewrite H in H'
         end;
  try match goal with
      | |- flt _ _ => apply flt_rank
      | |- fle _ _ => apply fle_rank
      | |- isNumber _ => apply isNumber_rank
      end;
  repeat match goal with
         | |- exists _, _ => eexists
         | |- _ /\ _ => split
         | |- frank _ = Some _ => eassumption
         end;
  unfold lexLt in *;
  repeat match goal with
         | a : (Z * Z * Z)%type |- _ => destruct a as [[? ?] ?]
         end;
  cbn [fst snd] in *;
  repeat match goal with
         | H : (_, _, _) = (_, _, _) |- _ => injection H as ? ? ?
         | H : _ \/ (_, _, _) = (_, _, _) |- _ => destruct H as [H | H]
         end;
  subst;
  try lia;
  try (right; f_equal; lia).

Lemma flt_fle x y : flt x y -> fle x y.
Proof. intros. float_order. Qed.

Lemma fle_refl x : isNumber x -> fle x x.
Proof. intros. float_order. Qed.

Lemma not_flt_fle x y : isNumber x -> isNumber y -> (x <? y)%float = false -> fle y x.
Proof. intros. float_order. Qed.

Lemma fle_trans x y z : fle x y -> fle y z -> fle x z.
Proof. intros. float_order. Qed.

Lemma flt_trans x y z : flt x y -> flt y z -> flt x z.
Proof. intros. float_order. Qed.

Lemma flt_fle_trans x y z : flt x y -> fle y z -> flt x z.
Proof. intros. float_order. Qed.

Lemma fle_flt_trans x y z : fle x y -> flt y z -> flt x z.
Proof. intros. float_order. Qed.

Lemma fle_isNumber x y : fle x y -> isNumber x /\ isNumber y.
Proof. intros. split; float_order. Qed.

Lemma fle_flt_zero x : fle 0 x -> (x =? 0)%float = false -> flt 0 x.
Proof.
  intros Hle Hne. unfold flt. destruct (0 <? x)%float eqn:E; [reflexivity |].
  exfalso. apply fle_rank in Hle. destruct Hle as (a & b & Ha & Hb & Hab).
  rewrite eqb_spec in Hne. unfold SFeqb in Hne. rewrite SFcompare_rank in Hne.
  unfold frank in *. rewrite Ha, Hb in Hne.
  destruct Hab as [Hab | Hab].
  - apply lexCompare_Gt in Hab. rewrite Hab in Hne.
    rewrite ltb_spec in E. unfold SFltb in E. rewrite SFcompare_rank, Ha, Hb in E.
    apply lexCompare_Gt, lexCompare_Lt in Hab. rewrite Hab in E. discriminate.
  - subst b. assert (Heq : lexCompare a a = Eq) by (apply lexCompare_Eq; reflexivity).
    rewrite Heq in Hne. discriminate.
Qed.

(** ** std::min and std::max *)

Lemma std_max_lower a b : isNumber a -> fle a (std_max a b).
Proof.
  intros Ha. unfold std_max. destruct (a <? b)%float eqn:E.
  - apply flt_fle. exact E.
  - apply fle_refl. exact Ha.
Qed.

Lemma std_max_isNumber a b : isNumber a -> isNumber (std_max a b).
Proof.
  intros Ha. unfold std_max. destruct (a <? b)%float eqn:E; [| exact Ha].
  fold (flt a b) in E. apply flt_fle, fle_isNumber in E. tauto.
Qed.

Lemma std_max_mono a b c : isNumber a -> fle b c -> fle (std_max a b) (std_max a c).
Proof.
  intros Ha Hbc. unfold std_max.
  destruct (a <? b)%float eqn:E1; destruct (a <? c)%float eqn:E2.
  - exact Hbc.
  - fold (flt a b) in E1. pose proof (flt_fle_trans E1 Hbc) as H.
    unfold flt in H. congruence.
  - apply flt_fle. exact E2.
  - apply fle_refl. exact Ha.
Qed.

Lemma std_min_upper a b : isNumber a -> fle (std_min a b) a.
Proof.
  intros Ha. unfold std_min. destruct (b <? a)%float eqn:E.
  - apply flt_fle. exact E.
  - apply fle_refl. exact Ha.
Qed.

(** [max(a, min(b, c)) <= max(a, c)] when [a] and [c] are numbers. *)
Lemma std_max_min_upper a b c :
  isNumber a -> isNumber c -> fle (std_max a (std_min b c)) (std_max a c).
Proof.
  intros Ha Hc. unfold std_min. destruct (c <? b)%float eqn:E.
  - apply fle_refl. apply std_max_isNumber. exact Ha.
  - unfold std_max at 1. destruct (a <? b)%float eqn:E1.
    + fold (flt a b) in E1.
      assert (Hb : isNumber b) by (apply flt_fle, fle_isNumber in E1; tauto).
      pose proof (not_flt_fle Hc Hb E) as Hbc.
      pose proof (flt_fle_trans E1 Hbc) as Hac.
      unfold std_max. unfold flt in Hac. rewrite Hac. exact Hbc.
    + apply std_max_lower. exact Ha.
Qed.

(** [max(m, min(t, x)) <= max(m, t)] when [m] is a number. *)
Lemma std_max_min_left m t x :
  isNumber m -> fle (std_max m (std_min t x)) (std_max m t).
Proof.
  intros Hm. unfold std_min. destruct (x <? t)%float eqn:E.
  - fold (flt x t) in E. apply std_max_mono; [exact Hm |]. apply flt_fle. exact E.
  - apply fle_refl. apply std_max_isNumber. exact Hm.
Qed.

(* ================================================================== *)
(** ** What the rate derivation reads of a state *)

Lemma sameInputs_refl (s : PerTagStatistics) : sameInputs s s.
Proof. split; reflexivity. Qed.

Lemma sameTable_refl (t : unordered_map TransactionTag PerTagStatistics) : sameTable t t.
Proof.
  induction t as [| x t IH]; constructor; [| exact IH].
  split; [reflexivity | apply sameInputs_refl].
Qed.

Lemma sameTable_get ta tb :
  sameTable ta tb ->
  forall tag,
    match get String.eqb ta tag, get String.eqb tb tag with
    | Some a, Some b => sameInputs a b
    | None, None => True
    | _, _ => False
    end.
Proof.
  induction 1 as [| [ka a] [kb b] ta tb [Hk Hs] _ IH]; intros tag; simpl; [trivial |].
  simpl in Hk. subst kb. destruct (String.eqb ka tag); [exact Hs | apply IH].
Qed.

Lemma sameTable_keys ta tb : sameTable ta tb -> keys ta = keys tb.
Proof.
  induction 1 as [| [ka a] [kb b] ta tb [Hk _] _ IH]; simpl; [reflexivity |].
  simpl in Hk. subst kb. f_equal. exact IH.
Qed.

(** Rewriting the record the loop is at keeps the table the same for the
    rate derivation. *)
Lemma sameTable_step t done tag stats stats' rest :
  sameTable t (done ++ (tag, stats) :: rest) ->
  sameInputs stats stats' ->
  sameTable t ((done ++ [(tag, stats')]) ++ rest).
Proof.
  intros H Hs. unfold sameTable in *.
  apply Forall2_app_inv_r in H. destruct H as (t1 & t2 & H1 & H2 & ->).
  inversion H2 as [| x y t2' rest' [Hk Hx] Hrest]; subst.
  rewrite <- app_assoc. apply Forall2_app; [exact H1 |].
  constructor; [| exact Hrest].
  split; [exact Hk |]. simpl in *.
  destruct Hx as [Hq Hc], Hs as [Hq' Hc']. split; congruence.
Qed.

Lemma agree_refl self : agree self self.
Proof. repeat split. apply sameTable_refl. Qed.

Lemma agree_withTagStatistics self t :
  sameTable (tagStatistics self) t -> agree self (withTagStatistics self t).
Proof. intros H. repeat split. exact H. Qed.

Lemma agree_stats a b tag :
  agree a b ->
  match get String.eqb (tagStatistics a) tag, get String.eqb (tagStatistics b) tag with
  | Some x, Some y => sameInputs x y
  | None, None => True
  | _, _ => False
  end.
Proof. intros (_ & _ & H). apply sameTable_get. exact H. Qed.

Lemma agree_getQuota a b tag opType limitType :
  agree a b -> getQuota a tag opType limitType = getQuota b tag opType limitType.
Proof.
  intros H. pose proof (agree_stats tag H) as Hs. unfold getQuota.
  destruct (get String.eqb (tagStatistics a) tag) as [x |],
           (get String.eqb (tagStatistics b) tag) as [y |]; try contradiction;
    [| reflexivity].
  destruct Hs as [Hq _]. unfold PerTagStatistics_getQuota. rewrite Hq. reflexivity.
Qed.

Lemma agree_getCurrentCost_ss_tag a b id tag opType :
  agree a b -> getCurrentCost_ss_tag a id tag opType = getCurrentCost_ss_tag b id tag opType.
Proof. intros (_ & H & _). unfold getCurrentCost_ss_tag. rewrite H. reflexivity. Qed.

Lemma agree_getCurrentCost_ss a b id opType :
  agree a b -> getCurrentCost_ss a id opType = getCurrentCost_ss b id opType.
Proof. intros (_ & H & _). unfold getCurrentCost_ss. rewrite H. reflexivity. Qed.

Lemma fold_left_ext_in (A B : Type) (f g : A -> B -> A) (l : list B) :
  (forall acc x, f acc x = g acc x) ->
  forall acc, fold_left f l acc = fold_left g l acc.
Proof.
  intros H. induction l as [| x l IH]; intros acc; simpl; [reflexivity |].
  rewrite H. apply IH.
Qed.

Lemma agree_getCurrentCost_tag a b tag opType :
  agree a b -> getCurrentCost_tag a tag opType = getCurrentCost_tag b tag opType.
Proof.
  intros H. unfold getCurrentCost_tag.
  destruct H as (H1 & H2 & H3). rewrite <- H2.
  apply fold_left_ext_in. intros acc x.
  rewrite (@agree_getCurrentCost_ss_tag a b); [reflexivity |].
  repeat split; assumption.
Qed.

Lemma agree_getAverageTransactionCost a b tag opType :
  agree a b ->
  getAverageTransactionCost a tag opType = getAverageTransactionCost b tag opType.
Proof.
  intros H. pose proof (agree_stats tag H) as Hs. unfold getAverageTransactionCost.
  rewrite (agree_getCurrentCost_tag tag opType H).
  destruct (get String.eqb (tagStatistics a) tag) as [x |],
           (get String.eqb (tagStatistics b) tag) as [y |]; try contradiction;
    [| reflexivity].
  destruct Hs as [_ Hc]. unfold getTransactionRate. rewrite Hc. reflexivity.
Qed.

Lemma agree_getAverageTransactionCost_ss a b tag id opType :
  agree a b ->
  getAverageTransactionCost_ss a tag id opType = getAverageTransactionCost_ss b tag id opType.
Proof.
  intros H. pose proof (agree_stats tag H) as Hs. unfold getAverageTransactionCost_ss.
  rewrite (agree_getCurrentCost_ss_tag id tag opType H).
  destruct (getCurrentCost_ss_tag b id tag opType); [| reflexivity].
  destruct (get String.eqb (tagStatistics a) tag) as [x |],
           (get String.eqb (tagStatistics b) tag) as [y |]; try contradiction;
    [| reflexivity].
  destruct Hs as [_ Hc]. unfold getTransactionRate. rewrite Hc. reflexivity.
Qed.

Lemma agree_getDesiredTps a b tag :
  agree a b -> getDesiredTps a tag = getDesiredTps b tag.
Proof.
  intros H. pose proof (agree_stats tag H) as Hs.
  unfold getDesiredTps, getDesiredTps_op.
  rewrite !(agree_getAverageTransactionCost tag _ H).
  destruct (get String.eqb (tagStatistics a) tag) as [x |],
           (get String.eqb (tagStatistics b) tag) as [y |]; try contradiction;
    [| reflexivity].
  destruct Hs as [Hq _]. unfold PerTagStatistics_getQuota. rewrite Hq. reflexivity.
Qed.

Lemma agree_getReservedTps a b tag :
  agree a b -> getReservedTps a tag = getReservedTps b tag.
Proof.
  intros H. unfold getReservedTps, getReservedTps_op.
  rewrite !(agree_getAverageTransactionCost tag _ H), !(agree_getQuota tag _ _ H).
  reflexivity.
Qed.

Lemma agree_getQuotaRatio a b tag id opType :
  agree a b -> getQuotaRatio a tag id opType = getQuotaRatio b tag id opType.
Proof.
  intros H. unfold getQuotaRatio, getTagsAffectingStorageServer.
  assert (E : forall ts locals,
             fold_left (quotaRatioStep a tag opType) ts locals =
             fold_left (quotaRatioStep b tag opType) ts locals).
  { intros ts. apply fold_left_ext_in. intros acc t.
    unfold quotaRatioStep. rewrite (agree_getQuota t opType TOTAL H). reflexivity. }
  rewrite E. destruct H as (_ & H2 & _). rewrite H2. reflexivity.
Qed.

Lemma agree_getLimitingCost a b id opType :
  agree a b -> getLimitingCost a id opType = getLimitingCost b id opType.
Proof.
  intros H. unfold getLimitingCost.
  rewrite (agree_getCurrentCost_ss id opType H).
  destruct H as (H1 & _ & _). rewrite H1. reflexivity.
Qed.

Lemma agree_spec_limiting_cost a b id opType :
  agree a b -> spec_limiting_cost a id opType = spec_limiting_cost b id opType.
Proof.
  intros H. unfold spec_limiting_cost.
  rewrite (agree_getCurrentCost_ss id opType H).
  destruct H as (H1 & _ & _). rewrite H1. reflexivity.
Qed.

(** The limiting TPS reads the inputs only, over any limiting cost that
    does. *)
Lemma limitingTpsOver_readsInputsOnly
  (limitingCostOf : GlobalTagThrottlerImpl -> UID -> OpType -> Res (option float)) :
  (forall a b id opType, agree a b -> limitingCostOf a id opType = limitingCostOf b id opType) ->
  readsInputsOnly (limitingTpsOver limitingCostOf).
Proof.
  intros Hcost a b tag H.
  assert (Hss : forall id opType,
             limitingTps_ss_over limitingCostOf a id tag opType
             = limitingTps_ss_over limitingCostOf b id tag opType).
  { intros id opType. unfold limitingTps_ss_over.
    rewrite (agree_getQuotaRatio tag id opType H), (Hcost a b id opType H),
      (agree_getAverageTransactionCost_ss tag id opType H).
    reflexivity. }
  assert (Hop : forall opType,
             limitingTps_op_over limitingCostOf a tag opType
             = limitingTps_op_over limitingCostOf b tag opType).
  { intros opType. unfold limitingTps_op_over.
    destruct H as (H1 & _ & _). rewrite H1.
    generalize (@None float). generalize (keys (throttlingRatios b)).
    induction l as [| id ids IH]; intros result; simpl; [reflexivity |].
    rewrite Hss. destruct (limitingTps_ss_over limitingCostOf b id tag opType); simpl;
      [apply IH | reflexivity]. }
  unfold limitingTpsOver. rewrite !Hop. reflexivity.
Qed.

(** [getLimitingTps] does not read the per-client smoothers. *)
Lemma getLimitingTps_readsInputsOnly : readsInputsOnly getLimitingTps.
Proof.
  intros a b tag H.
  destruct (limitingTpsOver_getLimitingCost a tag) as (_ & _ & <-).
  destruct (limitingTpsOver_getLimitingCost b tag) as (_ & _ & <-).
  apply limitingTpsOver_readsInputsOnly; [| exact H].
  intros x y id opType Hxy. apply agree_getLimitingCost. exact Hxy.
Qed.

Lemma specLimitingTps_readsInputsOnly :
  readsInputsOnly (limitingTpsOver specLimitingCostOf).
Proof.
  apply limitingTpsOver_readsInputsOnly.
  intros a b id opType H. unfold specLimitingCostOf.
  rewrite (agree_spec_limiting_cost id opType H). reflexivity.
Qed.

(* ================================================================== *)
(** ** updateAndGetPerClientLimit *)

Lemma updateAndGetPerClientLimit_present knobs target stats limit stats' :
  updateAndGetPerClientLimit knobs (Some target) stats = (Some limit, stats') ->
  flt 0 (getTransactionRate stats)
  /\ tpsRate limit =
     std_max (GLOBAL_TAG_THROTTLING_MIN_RATE knobs)
       (std_min target
          ((target / getTransactionRate stats) * smoothTotal (perClientRate stats))%float)
  /\ expiration limit = NO_EXPIRATION
  /\ getTotal (perClientRate stats') = tpsRate limit
  /\ sameInputs stats stats'.
Proof.
  unfold updateAndGetPerClientLimit, getTransactionRate, flt.
  destruct (0 <? smoothRate (transactionCounter stats))%float; [| discriminate].
  intros H. injection H as <- <-. repeat split.
Qed.

Lemma updateAndGetPerClientLimit_absent knobs target stats stats' :
  updateAndGetPerClientLimit knobs target stats = (None, stats') ->
  stats' = stats
  /\ (target = None \/ (0 <? getTransactionRate stats)%float = false).
Proof.
  unfold updateAndGetPerClientLimit, getTransactionRate.
  destruct target as [t |]; [| intros H; injection H as <-; auto].
  destruct (0 <? smoothRate (transactionCounter stats))%float; [discriminate |].
  intros H. injection H as <-. auto.
Qed.

(* ================================================================== *)
(** ** The map getClientRates builds *)

Lemma findLimit_empty (p : TransactionPriority) (tag : TransactionTag) :
  findLimit (emptyPrioritizedMap ClientTagThrottleLimits) p tag = None.
Proof. destruct p; reflexivity. Qed.

Lemma findLimit_assignAt_same (T : Type) (m : PrioritizedTransactionTagMap T) p tag v tag' :
  findLimit (assignAt m p tag v) p tag' =
  if String.eqb tag tag' then Some v else findLimit m p tag'.
Proof.
  unfold findLimit, assignAt.
  destruct p; cbn [findPriority atBATCH atDEFAULT atIMMEDIATE];
    rewrite (@get_subscript_update _ _ _ String_eqb_eq);
    destruct (String.eqb tag tag'); try reflexivity;
    match goal with |- context [orDefault ?o _] => destruct o; reflexivity end.
Qed.

Lemma findLimit_assignAt_other (T : Type) (m : PrioritizedTransactionTagMap T) p p' tag v tag' :
  p <> p' -> findLimit (assignAt m p tag v) p' tag' = findLimit m p' tag'.
Proof.
  intros Hp. unfold findLimit, assignAt.
  destruct p, p'; try reflexivity; contradiction.
Qed.

(** What the loop adds for one tag: the same limit under [DEFAULT] and
    [BATCH], nothing under [IMMEDIATE]. *)
Lemma findLimit_published (T : Type) (m : PrioritizedTransactionTagMap T) tag (v : T) p tag' :
  findLimit (assignAt (assignAt m DEFAULT tag v) BATCH tag v) p tag' =
  match p with
  | IMMEDIATE => findLimit m p tag'
  | _ => if String.eqb tag tag' then Some v else findLimit m p tag'
  end.
Proof.
  destruct p.
  - rewrite findLimit_assignAt_same.
    rewrite findLimit_assignAt_other by discriminate. reflexivity.
  - rewrite findLimit_assignAt_other by discriminate.
    apply findLimit_assignAt_same.
  - rewrite !findLimit_assignAt_other by discriminate. reflexivity.
Qed.

(* ================================================================== *)
(** ** The loop of getClientRates *)

Lemma getClientRates_loop_cons knobs limitingTpsOf self done tag stats rest result :
  getClientRates_loop knobs limitingTpsOf self done ((tag, stats) :: rest) result =
  let now := withTagStatistics self (done ++ (tag, stats) :: rest) in
  limitingTps <- limitingTpsOf now tag ;;
  match limitingTps, getDesiredTps now tag, getReservedTps now tag with
  | Some l, Some d, Some r =>
      let (perClientLimit, stats') :=
        updateAndGetPerClientLimit knobs (Some (targetTps r l d)) stats in
      limit <- Optional_get perClientLimit ;;
      getClientRates_loop knobs limitingTpsOf self (done ++ [(tag, stats')]) rest
        (assignAt (assignAt result DEFAULT tag limit) BATCH tag limit)
  | _, _, _ => Ok (emptyPrioritizedMap ClientTagThrottleLimits, now)
  end.
Proof. reflexivity. Qed.

(** What one round of the loop can do, read off a run that returned. *)
Lemma getClientRates_loop_inv knobs limitingTpsOf self done tag stats rest result r self' :
  getClientRates_loop knobs limitingTpsOf self done ((tag, stats) :: rest) result
    = Ok (r, self') ->
  let now := withTagStatistics self (done ++ (tag, stats) :: rest) in
  (r = emptyPrioritizedMap ClientTagThrottleLimits
   /\ (limitingTpsOf now tag = Ok None
       \/ getDesiredTps now tag = None
       \/ getReservedTps now tag = None))
  \/ exists l d rv limit stats',
      limitingTpsOf now tag = Ok (Some l)
      /\ getDesiredTps now tag = Some d
      /\ getReservedTps now tag = Some rv
      /\ updateAndGetPerClientLimit knobs (Some (targetTps rv l d)) stats
         = (Some limit, stats')
      /\ getClientRates_loop knobs limitingTpsOf self (done ++ [(tag, stats')]) rest
           (assignAt (assignAt result DEFAULT tag limit) BATCH tag limit)
         = Ok (r, self').
Proof.
  rewrite getClientRates_loop_cons. cbv zeta.
  destruct (limitingTpsOf _ tag) as [[l |] |]; cbn [bind]; [| | discriminate].
  - destruct (getDesiredTps _ tag) as [d |].
    + destruct (getReservedTps _ tag) as [rv |].
      * destruct (updateAndGetPerClientLimit knobs (Some (targetTps rv l d)) stats)
          as [[limit |] stats'] eqn:E; cbn [Optional_get bind]; [| discriminate].
        intros H. right. exists l, d, rv, limit, stats'. auto.
      * intros H. injection H as <- _. left. auto.
    + intros H. injection H as <- _. left. auto.
  - intros H. injection H as <- _. left. auto.
Qed.

(** Every entry of the map the loop returns was either in [result] or was
    published by a round of the loop, from the three rates of its tag. *)
Lemma getClientRates_loop_published knobs limitingTpsOf self :
  forall todo done result r self',
    getClientRates_loop knobs limitingTpsOf self done todo result = Ok (r, self') ->
    sameTable (tagStatistics self) (done ++ todo) ->
    forall p tag limit,
      findLimit r p tag = Some limit ->
      findLimit result p tag = Some limit
      \/ (p <> IMMEDIATE
          /\ exists stats now l d rv,
              In (tag, stats) todo
              /\ agree self now
              /\ limitingTpsOf now tag = Ok (Some l)
              /\ getDesiredTps self tag = Some d
              /\ getReservedTps self tag = Some rv
              /\ flt 0 (getTransactionRate stats)
              /\ tpsRate limit = publishedTps knobs stats rv l d).
Proof.
  induction todo as [| [t s] rest IH]; intros done result r self' H Hsame p tag limit Hf.
  - cbn [getClientRates_loop] in H. injection H as <- _. left. exact Hf.
  - pose proof (agree_withTagStatistics self Hsame) as Hnow.
    apply getClientRates_loop_inv in H. cbv zeta in H.
    destruct H as [[-> _] | (l & d & rv & limit0 & s' & Hl & Hd & Hr & Hu & Hloop)].
    + rewrite findLimit_empty in Hf. discriminate.
    + apply updateAndGetPerClientLimit_present in Hu.
      destruct Hu as (Hrate & Htps & _ & _ & Hin).
      specialize (IH _ _ _ _ Hloop (sameTable_step _ _ _ Hsame Hin) p tag limit Hf).
      destruct IH as [IH | (Hp & stats & now & l' & d' & rv' & Hi & Hrest)].
      * rewrite findLimit_published in IH.
        destruct p; [| | left; exact IH];
          (destruct (String.eqb t tag) eqn:E; [| left; exact IH];
           apply String.eqb_eq in E; subst t; injection IH as <-;
           right; split; [discriminate |];
           exists s, (withTagStatistics self (done ++ (tag, s) :: rest)), l, d, rv;
           rewrite (agree_getDesiredTps tag Hnow), (agree_getReservedTps tag Hnow);
           repeat split; try assumption; left; reflexivity).
      * right. split; [exact Hp |]. exists stats, now, l', d', rv'.
        split; [right; exact Hi | exact Hrest].
Qed.

(* ================================================================== *)
(** ** The published limits *)

(** Where an entry of the map [getClientRates] returns comes from. *)
Lemma getClientRatesWith_published knobs limitingTpsOf self r self' p tag limit :
  getClientRatesWith knobs limitingTpsOf self = Ok (r, self') ->
  findLimit r p tag = Some limit ->
  p <> IMMEDIATE
  /\ exists stats now l d rv,
      In (tag, stats) (tagStatistics self)
      /\ agree self now
      /\ limitingTpsOf now tag = Ok (Some l)
      /\ getDesiredTps self tag = Some d
      /\ getReservedTps self tag = Some rv
      /\ flt 0 (getTransactionRate stats)
      /\ tpsRate limit = publishedTps knobs stats rv l d.
Proof.
  intros H Hf. unfold getClientRatesWith in H.
  eapply getClientRates_loop_published in Hf; [| exact H | apply sameTable_refl].
  destruct Hf as [Hempty | Hpub].
  - rewrite findLimit_empty in Hempty. discriminate.
  - exact Hpub.
Qed.

(** C8: a limit found in the result of [getClientRates] is at least
    [GLOBAL_TAG_THROTTLING_MIN_RATE] (the knob being a number), and it is
    [max(MIN_RATE, min(target, (target / tx_rate) * smoothed per-client
    total))] for [target = max(reserved, min(limiting, desired))], computed
    from the record of the tag as the call found it. *)
Theorem published_limit_value knobs limitingTpsOf self r self' p tag limit :
  isNumber (GLOBAL_TAG_THROTTLING_MIN_RATE knobs) ->
  getClientRatesWith knobs limitingTpsOf self = Ok (r, self') ->
  findLimit r p tag = Some limit ->
  fle (GLOBAL_TAG_THROTTLING_MIN_RATE knobs) (tpsRate limit)
  /\ exists stats now l d rv,
      In (tag, stats) (tagStatistics self)
      /\ agree self now
      /\ limitingTpsOf now tag = Ok (Some l)
      /\ getDesiredTps self tag = Some d
      /\ getReservedTps self tag = Some rv
      /\ tpsRate limit =
         std_max (GLOBAL_TAG_THROTTLING_MIN_RATE knobs)
           (std_min (std_max rv (std_min l d))
              ((std_max rv (std_min l d) / getTransactionRate stats)
               * smoothTotal (perClientRate stats))%float).
Proof.
  intros Hmin H Hf.
  destruct (@getClientRatesWith_published _ _ _ _ _ _ _ _ H Hf)
    as (_ & stats & now & l & d & rv & Hin & Hag & Hl & Hd & Hr & _ & Htps).
  split.
  - rewrite Htps. unfold publishedTps. apply std_max_lower. exact Hmin.
  - exists stats, now, l, d, rv.
    split; [exact Hin |]. split; [exact Hag |]. split; [exact Hl |].
    split; [exact Hd |]. split; [exact Hr |]. exact Htps.
Qed.

Lemma published_limit_value_witness :
  exists r self' limit,
    getClientRatesWith exampleKnobs (limitingTpsOver specLimitingCostOf) (oneTag 5) = Ok (r, self')
    /\ findLimit r DEFAULT "sampleTag1" = Some limit
    /\ tpsRate limit = (70 / 6 / 10 * 5)%float
    /\ fle (GLOBAL_TAG_THROTTLING_MIN_RATE exampleKnobs) (tpsRate limit).
Proof.
  eexists. eexists. eexists.
  split; [vm_compute; reflexivity |].
  split; [vm_compute; reflexivity |].
  split; [vm_compute; reflexivity |].
  refine (proj1 (@published_limit_value exampleKnobs (limitingTpsOver specLimitingCostOf) (oneTag 5)
                   _ _ DEFAULT "sampleTag1"%string _ eq_refl _ _));
    vm_compute; reflexivity.
Defined.

(** What the loop publishes, for any limiting TPS it is given: a published
    limit lies between [MIN_RATE]
    and [max(MIN_RATE, target)], where [target = max(reserved,
    min(limiting, desired))]; it is the target, not the published limit,
    that lies between [reserved] and [max(reserved, desired)] (these two
    being numbers), so that the published limit is at most
    [max(MIN_RATE, max(reserved, desired))]. *)
Theorem published_limit_bounds knobs limitingTpsOf self r self' p tag limit :
  isNumber (GLOBAL_TAG_THROTTLING_MIN_RATE knobs) ->
  getClientRatesWith knobs limitingTpsOf self = Ok (r, self') ->
  findLimit r p tag = Some limit ->
  exists now l d rv,
    agree self now
    /\ limitingTpsOf now tag = Ok (Some l)
    /\ getDesiredTps self tag = Some d
    /\ getReservedTps self tag = Some rv
    /\ fle (GLOBAL_TAG_THROTTLING_MIN_RATE knobs) (tpsRate limit)
    /\ fle (tpsRate limit)
         (std_max (GLOBAL_TAG_THROTTLING_MIN_RATE knobs) (targetTps rv l d))
    /\ (isNumber rv -> isNumber d ->
        fle rv (targetTps rv l d)
        /\ fle (targetTps rv l d) (std_max rv d)
        /\ fle (tpsRate limit)
             (std_max (GLOBAL_TAG_THROTTLING_MIN_RATE knobs) (std_max rv d))).
Proof.
  intros Hmin H Hf.
  destruct (@getClientRatesWith_published _ _ _ _ _ _ _ _ H Hf)
    as (_ & stats & now & l & d & rv & Hin & Hag & Hl & Hd & Hr & _ & Htps).
  exists now, l, d, rv. repeat (split; [assumption |]).
  assert (Hup : fle (tpsRate limit)
                  (std_max (GLOBAL_TAG_THROTTLING_MIN_RATE knobs) (targetTps rv l d))).
  { rewrite Htps. unfold publishedTps. apply std_max_min_left. exact Hmin. }
  split; [rewrite Htps; unfold publishedTps; apply std_max_lower; exact Hmin |].
  split; [exact Hup |].
  intros Hrv Hdn.
  assert (Ht : fle (targetTps rv l d) (std_max rv d)).
  { unfold targetTps. apply std_max_min_upper; assumption. }
  split; [unfold targetTps; apply std_max_lower; exact Hrv |].
  split; [exact Ht |].
  eapply fle_trans; [exact Hup |]. apply std_max_mono; assumption.
Qed.

Lemma published_limit_bounds_witness :
  exists r self' limit,
    getClientRatesWith exampleKnobs (limitingTpsOver specLimitingCostOf) (oneTag 5) = Ok (r, self')
    /\ findLimit r DEFAULT "sampleTag1" = Some limit
    /\ exists now l d rv,
        agree (oneTag 5) now
        /\ limitingTpsOver specLimitingCostOf now "sampleTag1" = Ok (Some l)
        /\ getDesiredTps (oneTag 5) "sampleTag1" = Some d
        /\ getReservedTps (oneTag 5) "sampleTag1" = Some rv
        /\ fle (GLOBAL_TAG_THROTTLING_MIN_RATE exampleKnobs) (tpsRate limit)
        /\ fle (tpsRate limit)
             (std_max (GLOBAL_TAG_THROTTLING_MIN_RATE exampleKnobs) (targetTps rv l d))
        /\ (isNumber rv -> isNumber d ->
            fle rv (targetTps rv l d)
            /\ fle (targetTps rv l d) (std_max rv d)
            /\ fle (tpsRate limit)
                 (std_max (GLOBAL_TAG_THROTTLING_MIN_RATE exampleKnobs) (std_max rv d))).
Proof.
  eexists. eexists. eexists.
  split; [vm_compute; reflexivity |].
  split; [vm_compute; reflexivity |].
  refine (@published_limit_bounds exampleKnobs (limitingTpsOver specLimitingCostOf) (oneTag 5)
            _ _ DEFAULT "sampleTag1"%string _ eq_refl _ _);
    vm_compute; reflexivity.
Defined.

(** The per-client formula shares the target among the clients.  Given a
    limiting TPS that is present (the one the code derives from the limiting
    cost of the specification, 5 for the tag of [oneTag]), the loop publishes
    limits outside [reserved, max(reserved, desired)]; [getClientRates]
    itself publishes none in this revision.
    With reserved TPS 70/6 and desired TPS 100/6, the target
    is 70/6 and, for a transaction rate of 10 and a smoothed per-client rate
    of 5, the published limit is 70/6/10*5, below the reserved TPS; with
    total quota 1 and no reserved quota, it is [MIN_RATE = 1], above
    [max(reserved, desired) = 1/6]. *)
Lemma published_limit_outside_claimed_bounds :
  (exists r self' limit,
      getClientRatesWith exampleKnobs (limitingTpsOver specLimitingCostOf) (oneTag 5)
      = Ok (r, self')
      /\ findLimit r DEFAULT "sampleTag1" = Some limit
      /\ limitingTpsOver specLimitingCostOf (oneTag 5) "sampleTag1" = Ok (Some 5%float)
      /\ getReservedTps (oneTag 5) "sampleTag1" = Some (70 / 6)%float
      /\ getDesiredTps (oneTag 5) "sampleTag1" = Some (100 / 6)%float
      /\ tpsRate limit = (70 / 6 / 10 * 5)%float
      /\ (70 / 6 <=? tpsRate limit)%float = false)
  /\ (exists r self' limit,
        getClientRatesWith exampleKnobs (limitingTpsOver specLimitingCostOf)
          (oneTagWith (readQuota 1 0) 5) = Ok (r, self')
        /\ findLimit r DEFAULT "sampleTag1" = Some limit
        /\ limitingTpsOver specLimitingCostOf (oneTagWith (readQuota 1 0) 5) "sampleTag1"
           = Ok (Some 5%float)
        /\ getReservedTps (oneTagWith (readQuota 1 0) 5) "sampleTag1" = Some 0%float
        /\ getDesiredTps (oneTagWith (readQuota 1 0) 5) "sampleTag1" = Some (1 / 6)%float
        /\ tpsRate limit = 1%float
        /\ (tpsRate limit <=? std_max 0 (1 / 6))%float = false).
Proof.
  split; eexists; eexists; eexists;
    (split; [vm_compute; reflexivity |]);
    (split; [vm_compute; reflexivity |]);
    repeat split; vm_compute; reflexivity.
Qed.

(* ================================================================== *)
(** ** All or nothing *)

Lemma getAverageTransactionCost_present self tag opType avg :
  getAverageTransactionCost self tag opType = Some avg ->
  exists stats,
    get String.eqb (tagStatistics self) tag = Some stats
    /\ (getTransactionRate stats =? 0)%float = false.
Proof.
  unfold getAverageTransactionCost.
  destruct (get String.eqb (tagStatistics self) tag) as [stats |]; [| discriminate].
  destruct (getTransactionRate stats =? 0)%float eqn:E; [discriminate |].
  intros _. exists stats. auto.
Qed.

(** A desired TPS is present only for a tag whose transaction rate is not 0. *)
Lemma getDesiredTps_present self tag d :
  getDesiredTps self tag = Some d ->
  exists stats,
    get String.eqb (tagStatistics self) tag = Some stats
    /\ (getTransactionRate stats =? 0)%float = false.
Proof.
  unfold getDesiredTps. intros H.
  assert (Hop : exists opType v, getDesiredTps_op self tag opType = Some v).
  { destruct (getDesiredTps_op self tag READ) as [v |] eqn:E; [exists READ, v; exact E |].
    destruct (getDesiredTps_op self tag WRITE) as [v |] eqn:E'; [| discriminate].
    exists WRITE, v. exact E'. }
  destruct Hop as (opType & v & Hv). unfold getDesiredTps_op in Hv.
  destruct (getAverageTransactionCost self tag opType) as [avg |] eqn:E; [| discriminate].
  eapply getAverageTransactionCost_present. exact E.
Qed.

Lemma rate_zero_desired_absent self tag stats :
  get String.eqb (tagStatistics self) tag = Some stats ->
  (getTransactionRate stats =? 0)%float = true ->
  getDesiredTps self tag = None.
Proof.
  intros Hget Hz. destruct (getDesiredTps self tag) as [d |] eqn:E; [| reflexivity].
  apply getDesiredTps_present in E. destruct E as (s0 & Hs0 & Hnz). congruence.
Qed.

(** The limit of a tag is absent exactly when one of its three rates is. *)
Lemma limitAbsent_rates limitingTpsOf self tag :
  limitAbsent limitingTpsOf self tag <->
  (limitingTpsOf self tag = Ok None
   \/ getDesiredTps self tag = None
   \/ getReservedTps self tag = None).
Proof.
  unfold limitAbsent. split; [| tauto].
  intros [H | [H | [H | (stats & Hget & Hz)]]]; auto.
  right. left. eapply rate_zero_desired_absent; eassumption.
Qed.

Lemma get_app_fresh (done rest : unordered_map TransactionTag PerTagStatistics) tag stats :
  ~ In tag (keys done) -> get String.eqb (done ++ (tag, stats) :: rest) tag = Some stats.
Proof.
  induction done as [| [k v] done IH]; simpl; intros Hn.
  - rewrite String.eqb_refl. reflexivity.
  - destruct (String.eqb k tag) eqn:E.
    + apply String.eqb_eq in E. exfalso. apply Hn. auto.
    + apply IH. intros Hin. apply Hn. auto.
Qed.

Lemma keys_step (done rest : unordered_map TransactionTag PerTagStatistics) tag stats stats' :
  keys ((done ++ [(tag, stats')]) ++ rest) = keys (done ++ (tag, stats) :: rest).
Proof. unfold keys. rewrite <- app_assoc, !map_app. reflexivity. Qed.

(** The loop writes the same limit under [BATCH] and [DEFAULT]. *)
Lemma getClientRates_loop_priorities knobs limitingTpsOf self :
  forall todo done result r self',
    getClientRates_loop knobs limitingTpsOf self done todo result = Ok (r, self') ->
    (forall tag, findLimit result BATCH tag = findLimit result DEFAULT tag) ->
    forall tag, findLimit r BATCH tag = findLimit r DEFAULT tag.
Proof.
  induction todo as [| [t s] rest IH]; intros done result r self' H Hres tag.
  - cbn [getClientRates_loop] in H. injection H as <- _. apply Hres.
  - apply getClientRates_loop_inv in H. cbv zeta in H.
    destruct H as [[-> _] | (l & d & rv & limit0 & s' & _ & _ & _ & _ & Hloop)].
    + rewrite !findLimit_empty. reflexivity.
    + eapply IH; [exact Hloop |]. intros tag'.
      rewrite !findLimit_published. rewrite Hres. reflexivity.
Qed.

(** A tag with an absent rate empties the map, when the call returns. *)
Lemma getClientRates_loop_absent knobs limitingTpsOf self :
  readsInputsOnly limitingTpsOf ->
  forall todo done result r self',
    getClientRates_loop knobs limitingTpsOf self done todo result = Ok (r, self') ->
    sameTable (tagStatistics self) (done ++ todo) ->
    (exists tag,
        In tag (keys todo)
        /\ (limitingTpsOf self tag = Ok None
            \/ getDesiredTps self tag = None
            \/ getReservedTps self tag = None)) ->
    r = emptyPrioritizedMap ClientTagThrottleLimits.
Proof.
  intros Hframe.
  induction todo as [| [t s] rest IH]; intros done result r self' H Hsame (tag & Hin & Habs).
  - destruct Hin.
  - pose proof (agree_withTagStatistics self Hsame) as Hnow.
    apply getClientRates_loop_inv in H. cbv zeta in H.
    destruct H as [[-> _] | (l & d & rv & limit0 & s' & Hl & Hd & Hr & Hu & Hloop)];
      [reflexivity |].
    apply updateAndGetPerClientLimit_present in Hu.
    destruct Hu as (_ & _ & _ & _ & Hs).
    rewrite <- (Hframe _ _ t Hnow) in Hl.
    rewrite <- (agree_getDesiredTps t Hnow) in Hd.
    rewrite <- (agree_getReservedTps t Hnow) in Hr.
    destruct Hin as [Ht | Hin].
    + simpl in Ht. subst tag. destruct Habs as [Ha | [Ha | Ha]]; congruence.
    + eapply IH; [exact Hloop | exact (sameTable_step _ _ _ Hsame Hs) |].
      exists tag. auto.
Qed.

(** Without such a tag, every tag gets an entry, when the call returns. *)
Lemma getClientRates_loop_entries knobs limitingTpsOf self :
  readsInputsOnly limitingTpsOf ->
  forall todo done result r self',
    getClientRates_loop knobs limitingTpsOf self done todo result = Ok (r, self') ->
    sameTable (tagStatistics self) (done ++ todo) ->
    (forall tag,
        In tag (keys todo) ->
        ~ (limitingTpsOf self tag = Ok None
           \/ getDesiredTps self tag = None
           \/ getReservedTps self tag = None)) ->
    forall tag,
      (In tag (keys todo)
       \/ exists limit,
           findLimit result BATCH tag = Some limit
           /\ findLimit result DEFAULT tag = Some limit) ->
      exists limit,
        findLimit r BATCH tag = Some limit /\ findLimit r DEFAULT tag = Some limit.
Proof.
  intros Hframe.
  induction todo as [| [t s] rest IH]; intros done result r self' H Hsame Hpres tag Htag.
  - cbn [getClientRates_loop] in H. injection H as <- _.
    destruct Htag as [[] | Hres]. exact Hres.
  - pose proof (agree_withTagStatistics self Hsame) as Hnow.
    apply getClientRates_loop_inv in H. cbv zeta in H.
    rewrite <- (Hframe _ _ t Hnow) in H.
    rewrite <- (agree_getDesiredTps t Hnow) in H.
    rewrite <- (agree_getReservedTps t Hnow) in H.
    destruct H as [[_ Habs] | (l & d & rv & limit0 & s' & _ & _ & _ & Hu & Hloop)].
    + exfalso. apply (Hpres t); [left; reflexivity | exact Habs].
    + apply updateAndGetPerClientLimit_present in Hu.
      destruct Hu as (_ & _ & _ & _ & Hs).
      eapply IH; [exact Hloop | exact (sameTable_step _ _ _ Hsame Hs) | |].
      * intros tag' Hin. apply Hpres. right. exact Hin.
      * rewrite !findLimit_published.
        destruct (String.eqb t tag) eqn:E.
        -- right. exists limit0. auto.
        -- destruct Htag as [[Ht | Hin] | Hres]; [| left; exact Hin | right; exact Hres].
           simpl in Ht. subst t. rewrite String.eqb_refl in E. discriminate.
Qed.

(** The call returns when the limiting TPS can be computed and no
    transaction rate is negative or a NaN. *)
Lemma getClientRates_loop_returns knobs limitingTpsOf self :
  readsInputsOnly limitingTpsOf ->
  (forall tag, limitingTpsOf self tag <> AssertionFailed) ->
  forall todo done result,
    sameTable (tagStatistics self) (done ++ todo) ->
    NoDup (keys (done ++ todo)) ->
    (forall tag stats, In (tag, stats) todo -> fle 0 (getTransactionRate stats)) ->
    exists r self',
      getClientRates_loop knobs limitingTpsOf self done todo result = Ok (r, self').
Proof.
  intros Hframe Hok.
  induction todo as [| [t s] rest IH]; intros done result Hsame Hnd Hrates.
  - cbn [getClientRates_loop]. eauto.
  - pose proof (agree_withTagStatistics self Hsame) as Hnow.
    rewrite getClientRates_loop_cons. cbv zeta.
    rewrite <- (Hframe _ _ t Hnow).
    destruct (limitingTpsOf self t) as [[l |] |] eqn:El; cbn [bind];
      [| eauto | exfalso; exact (Hok t El)].
    destruct (getDesiredTps _ t) as [d |] eqn:Ed; [| eauto].
    destruct (getReservedTps _ t) as [rv |] eqn:Er; [| eauto].
    apply getDesiredTps_present in Ed. destruct Ed as (s0 & Hs0 & Hnz).
    cbn [tagStatistics withTagStatistics] in Hs0.
    rewrite get_app_fresh in Hs0.
    2:{ unfold keys in Hnd. rewrite map_app in Hnd. simpl in Hnd.
        apply NoDup_remove_2 in Hnd. intros Hin. apply Hnd.
        apply in_or_app. left. exact Hin. }
    injection Hs0 as <-.
    assert (Hpos : flt 0 (getTransactionRate s)).
    { apply fle_flt_zero; [| exact Hnz]. apply (Hrates t s). left. reflexivity. }
    destruct (updateAndGetPerClientLimit knobs (Some (targetTps rv l d)) s)
      as [[limit |] s'] eqn:Eu.
    + cbn [Optional_get bind].
      apply updateAndGetPerClientLimit_present in Eu.
      destruct Eu as (_ & _ & _ & _ & Hs).
      apply IH.
      * exact (sameTable_step _ _ _ Hsame Hs).
      * rewrite (keys_step done rest t s s'). exact Hnd.
      * intros tag stats Hin. apply (Hrates tag stats). right. exact Hin.
    + apply updateAndGetPerClientLimit_absent in Eu.
      destruct Eu as [_ [Hnone | Hneg]]; [discriminate |].
      unfold flt in Hpos. congruence.
Qed.

(** [getClientRates] is the loop with [getLimitingTps], which reads the
    inputs only. *)
Lemma getClientRates_instance knobs self :
  getClientRates knobs self = getClientRatesWith knobs getLimitingTps self
  /\ readsInputsOnly getLimitingTps.
Proof. split; [reflexivity | exact getLimitingTps_readsInputsOnly]. Qed.

(** The loop of [getClientRates] on the calls that return, for any limiting
    TPS it is given: the map is empty if some
    tracked tag has no limit (its limiting, desired or reserved TPS is
    absent, or its transaction rate is 0); otherwise the map has an entry for
    every tracked tag; and the entries under [BATCH] and [DEFAULT] are the
    same.  The call does return when the limiting TPS can be computed and no
    tracked tag has a transaction rate that is negative or a NaN. *)
Theorem getClientRates_all_or_nothing knobs limitingTpsOf self :
  readsInputsOnly limitingTpsOf ->
  (forall r self',
      getClientRatesWith knobs limitingTpsOf self = Ok (r, self') ->
      ((exists tag, tracked tag self /\ limitAbsent limitingTpsOf self tag) ->
       r = emptyPrioritizedMap ClientTagThrottleLimits)
      /\ ((forall tag, tracked tag self -> ~ limitAbsent limitingTpsOf self tag) ->
          forall tag, tracked tag self ->
            exists limit,
              findLimit r BATCH tag = Some limit /\ findLimit r DEFAULT tag = Some limit)
      /\ (forall tag, findLimit r BATCH tag = findLimit r DEFAULT tag)
      /\ (forall tag, findLimit r IMMEDIATE tag = None))
  /\ ((forall tag, limitingTpsOf self tag <> AssertionFailed) ->
      NoDup (keys (tagStatistics self)) ->
      (forall tag stats,
          In (tag, stats) (tagStatistics self) -> fle 0 (getTransactionRate stats)) ->
      exists r self', getClientRatesWith knobs limitingTpsOf self = Ok (r, self')).
Proof.
  intros Hframe. split.
  - intros r self' H. unfold getClientRatesWith in H. split; [| split; [| split]].
    + intros (tag & Ht & Habs). apply limitAbsent_rates in Habs.
      eapply getClientRates_loop_absent;
        [exact Hframe | exact H | apply sameTable_refl |].
      exists tag. split; [exact Ht | exact Habs].
    + intros Hpres tag Ht.
      eapply getClientRates_loop_entries;
        [exact Hframe | exact H | apply sameTable_refl | | left; exact Ht].
      intros tag' Ht' Habs. apply (Hpres tag' Ht').
      apply limitAbsent_rates. exact Habs.
    + eapply getClientRates_loop_priorities; [exact H |].
      intros tag. rewrite !findLimit_empty. reflexivity.
    + intros tag. destruct (findLimit r IMMEDIATE tag) as [limit |] eqn:E; [| reflexivity].
      eapply getClientRates_loop_published in E; [| exact H | apply sameTable_refl].
      destruct E as [E | [E _]]; [| contradiction].
      rewrite findLimit_empty in E. discriminate.
  - intros Hok Hnd Hrates. unfold getClientRatesWith.
    apply getClientRates_loop_returns; try assumption. apply sameTable_refl.
Qed.

Lemma getClientRates_all_or_nothing_witness :
  exists r self' limit,
    getClientRatesWith exampleKnobs (limitingTpsOver specLimitingCostOf)
      (twoTagsOn "sampleTag1" "sampleTag2") = Ok (r, self')
    /\ findLimit r BATCH "sampleTag2" = Some limit
    /\ findLimit r DEFAULT "sampleTag2" = Some limit.
Proof.
  destruct (@getClientRates_all_or_nothing exampleKnobs (limitingTpsOver specLimitingCostOf)
              (twoTagsOn "sampleTag1" "sampleTag2") specLimitingTps_readsInputsOnly)
    as [Hpart Htotal].
  eexists. eexists.
  assert (Hrun : getClientRatesWith exampleKnobs (limitingTpsOver specLimitingCostOf)
                   (twoTagsOn "sampleTag1" "sampleTag2") = Ok _)
    by (vm_compute; reflexivity).
  destruct (Hpart _ _ Hrun) as (_ & Hall & _).
  assert (Hpres : forall tag,
             tracked tag (twoTagsOn "sampleTag1" "sampleTag2") ->
             ~ limitAbsent (limitingTpsOver specLimitingCostOf)
                 (twoTagsOn "sampleTag1" "sampleTag2") tag).
  { intros tag Ht Habs. apply limitAbsent_rates in Habs.
    destruct Ht as [<- | [<- | []]];
      destruct Habs as [Ha | [Ha | Ha]]; vm_compute in Ha; discriminate. }
  destruct (Hall Hpres "sampleTag2"%string) as (limit & Hb & Hd).
  { right. left. reflexivity. }
  exists limit. split; [exact Hrun |]. split; [exact Hb | exact Hd].
Defined.

(* ================================================================== *)
(** ** Divisions *)


(** The division of [getLimitingTps(storageServerId, tag, opType)] has no
    test of its own for an average transaction cost of 0, as its siblings
    [getDesiredTps] and [getReservedTps] have; it is kept from a zero divisor
    by the test for the limiting cost before it, which in this revision
    always finds the limiting cost absent and returns.  Given a limiting
    cost that is present, the body would divide by the average write cost 0
    of a tag that only reads: with a limiting cost of 15 the quotient is an
    infinity, with 0 a NaN, and with the limiting cost of the specification
    that NaN is the limiting write TPS of the tag of [oneTag] on
    [server0]. *)
Lemma limitingTps_divides_by_zero_cost :
  getAverageTransactionCost_ss (oneTag 5) "sampleTag1" server0 WRITE = Some 0%float
  /\ limitingTpsForServer 1 (Some 15%float)
       (getAverageTransactionCost_ss (oneTag 5) "sampleTag1" server0 WRITE)
     = Some infinity
  /\ limitingTpsForServer 0 (Some 0%float)
       (getAverageTransactionCost_ss (oneTag 5) "sampleTag1" server0 WRITE)
     = Some nan
  /\ limitingTps_ss_over specLimitingCostOf (oneTag 5) server0 "sampleTag1" WRITE
     = Ok (Some nan)
  /\ getDesiredTps_op (oneTag 5) "sampleTag1" WRITE = None
  /\ getReservedTps_op (oneTag 5) "sampleTag1" WRITE = None.
Proof. repeat split; vm_compute; reflexivity. Qed.

(* ================================================================== *)
(** ** What the guard of getLimitingCost does to whole runs *)

(** As [getLimitingCost] never returns a value, no server yields a limiting
    TPS, no tag has one, and [getClientRates] publishes nothing: the facts
    above about published limits and about the aggregation over servers are
    facts about the loops themselves, for any value the calls may return. *)
Lemma getLimitingTps_ss_never_present self id tag opType (v : float) :
  getLimitingTps_ss self id tag opType <> Ok (Some v).
Proof.
  unfold getLimitingTps_ss.
  destruct (getQuotaRatio self tag id opType) as [q |]; cbn [bind]; [| discriminate].
  pose proof (@getLimitingCost_never_present self id opType) as Hc.
  destruct (getLimitingCost self id opType) as [[c |] |]; cbn [bind];
    [exfalso; exact (Hc c eq_refl) | discriminate | discriminate].
Qed.

Lemma getLimitingTps_op_never_present self tag opType (v : float) :
  getLimitingTps_op self tag opType <> Ok (Some v).
Proof.
  unfold getLimitingTps_op.
  assert (E : forall ids r, getLimitingTps_loop self tag opType ids None = Ok r -> r = None).
  { induction ids as [| id ids IH]; intros r; cbn [getLimitingTps_loop].
    - intros H. injection H as <-. reflexivity.
    - pose proof (@getLimitingTps_ss_never_present self id tag opType) as Hs.
      destruct (getLimitingTps_ss self id tag opType) as [[t |] |]; cbn [bind];
        [exfalso; exact (Hs t eq_refl) | apply IH | discriminate]. }
  intros H. apply E in H. discriminate.
Qed.

Lemma getLimitingTps_never_present self tag (v : float) :
  getLimitingTps self tag <> Ok (Some v).
Proof.
  unfold getLimitingTps.
  pose proof (@getLimitingTps_op_never_present self tag READ) as Hr.
  pose proof (@getLimitingTps_op_never_present self tag WRITE) as Hw.
  destruct (getLimitingTps_op self tag READ) as [[r |] |]; cbn [bind];
    [exfalso; exact (Hr r eq_refl) | | discriminate].
  destruct (getLimitingTps_op self tag WRITE) as [[w |] |]; cbn [bind];
    [exfalso; exact (Hw w eq_refl) | discriminate | discriminate].
Qed.


(* ================================================================== *)
(** ** More on tables *)

Section MoreTableFacts.
Variables K V : Type.
Variable keq : K -> K -> bool.
Hypothesis keq_eq : forall a b, keq a b = true <-> a = b.

Lemma subscript_update_ext (m : unordered_map K V) (k : K) (d : V) (f g : V -> V) :
  (forall v, f v = g v) -> subscript_update keq m k d f = subscript_update keq m k d g.
Proof.
  intros Hfg. induction m as [| [k0 v0] rest IH]; simpl.
  - rewrite Hfg. reflexivity.
  - destruct (keq k0 k); [rewrite Hfg | rewrite IH]; reflexivity.
Qed.

Lemma subscript_update_twice (m : unordered_map K V) (k : K) (d : V) (f g : V -> V) :
  subscript_update keq (subscript_update keq m k d f) k d g =
  subscript_update keq m k d (fun v => g (f v)).
Proof.
  induction m as [| [k0 v0] rest IH]; simpl.
  - rewrite (@keq_refl _ _ keq_eq). reflexivity.
  - destruct (keq k0 k) eqn:E; simpl; rewrite E; [reflexivity |].
    rewrite IH. reflexivity.
Qed.

Lemma keys_subscript_update_inv (m : unordered_map K V) (k k' : K) (d : V) (f : V -> V) :
  In k' (keys (subscript_update keq m k d f)) -> k' = k \/ In k' (keys m).
Proof.
  induction m as [| [k0 v0] rest IH]; simpl.
  - intros [H | []]. auto.
  - destruct (keq k0 k); simpl; [tauto |].
    intros [H | H]; [auto |]. apply IH in H. tauto.
Qed.

Lemma length_subscript_update_le (m : unordered_map K V) (k : K) (d : V) (f : V -> V) :
  List.length m <= List.length (subscript_update keq m k d f).
Proof.
  induction m as [| [k0 v0] rest IH]; simpl; [lia |].
  destruct (keq k0 k); simpl; lia.
Qed.

Lemma get_key_In (m : unordered_map K V) (k : K) (v : V) :
  get keq m k = Some v -> In k (keys m).
Proof.
  intros H. apply (@get_In _ _ _ keq_eq) in H. unfold keys.
  apply in_map_iff. exists (k, v). auto.
Qed.

Lemma In_key_get (m : unordered_map K V) (k : K) :
  In k (keys m) -> exists v, get keq m k = Some v.
Proof.
  intros H. destruct (get keq m k) as [v |] eqn:E; [eauto |].
  apply (@get_None_not_In _ _ _ keq_eq) in E. contradiction.
Qed.

Lemma get_map_values (W : Type) (h : V -> W) (m : unordered_map K V) (k : K) :
  get keq (map (fun kv => (fst kv, h (snd kv))) m) k = option_map h (get keq m k).
Proof.
  induction m as [| [k0 v0] rest IH]; simpl; [reflexivity |].
  destruct (keq k0 k); [reflexivity | exact IH].
Qed.
End MoreTableFacts.

(* ================================================================== *)
(** ** Setting a quota and reading it back *)

Lemma String_eqb_neq (a b : string) : a <> b -> String.eqb b a = false.
Proof.
  intros H. destruct (String.eqb b a) eqn:E; [| reflexivity].
  apply String.eqb_eq in E. congruence.
Qed.

Lemma get_setQuota knobs self tag q t :
  get String.eqb (tagStatistics (setQuota knobs tag q self)) t =
  if String.eqb tag t
  then Some (PerTagStatistics_setQuota q
               (orDefault (get String.eqb (tagStatistics self) tag)
                  (newPerTagStatistics knobs)))
  else get String.eqb (tagStatistics self) t.
Proof.
  unfold setQuota. cbn [tagStatistics withTagStatistics].
  apply (@get_subscript_update _ _ _ String_eqb_eq).
Qed.

(** X1: [setQuota(tag, q)] makes the four quotas of [tag] those of [q],
    whether or not the tag had a record; it leaves the quotas of every other
    tag, and the transaction counter and per-client rate of [tag] itself, as
    they were; and a second [setQuota] on the same tag overwrites the
    first. *)
Theorem setQuota_then_getQuota knobs self tag q :
  getQuota (setQuota knobs tag q self) tag READ TOTAL = Some (totalReadQuota q)
  /\ getQuota (setQuota knobs tag q self) tag WRITE TOTAL = Some (totalWriteQuota q)
  /\ getQuota (setQuota knobs tag q self) tag READ RESERVED = Some (reservedReadQuota q)
  /\ getQuota (setQuota knobs tag q self) tag WRITE RESERVED = Some (reservedWriteQuota q)
  /\ (forall t opType limitType,
        t <> tag ->
        getQuota (setQuota knobs tag q self) t opType limitType
        = getQuota self t opType limitType)
  /\ (forall stats,
        get String.eqb (tagStatistics self) tag = Some stats ->
        exists stats',
          get String.eqb (tagStatistics (setQuota knobs tag q self)) tag = Some stats'
          /\ transactionCounter stats' = transactionCounter stats
          /\ perClientRate stats' = perClientRate stats)
  /\ (forall q0,
        setQuota knobs tag q (setQuota knobs tag q0 self) = setQuota knobs tag q self).
Proof.
  assert (Hown : forall opType limitType,
             getQuota (setQuota knobs tag q self) tag opType limitType =
             match limitType, opType with
             | TOTAL, READ => Some (totalReadQuota q)
             | TOTAL, WRITE => Some (totalWriteQuota q)
             | RESERVED, READ => Some (reservedReadQuota q)
             | RESERVED, WRITE => Some (reservedWriteQuota q)
             end).
  { intros opType limitType. unfold getQuota.
    rewrite get_setQuota, String.eqb_refl. reflexivity. }
  split; [apply Hown |]. split; [apply Hown |].
  split; [apply Hown |]. split; [apply Hown |].
  split; [| split].
  - intros t opType limitType Hneq. unfold getQuota.
    rewrite get_setQuota, (String_eqb_neq Hneq). reflexivity.
  - intros stats Hget. rewrite get_setQuota, String.eqb_refl, Hget.
    eexists. split; [reflexivity |]. split; reflexivity.
  - intros q0. unfold setQuota. cbn [tagStatistics withTagStatistics].
    unfold withTagStatistics. cbn [throttledTagChangeId throttlingRatios throughput].
    f_equal. rewrite (@subscript_update_twice _ _ _ String_eqb_eq).
    apply subscript_update_ext. intros v. reflexivity.
Qed.

(* ================================================================== *)
(** ** Publishing a throttling ratio *)

Lemma UID_eqb_neq (a b : UID) : a <> b -> UID_eqb b a = false.
Proof.
  intros H. destruct (UID_eqb b a) eqn:E; [| reflexivity].
  apply UID_eqb_eq in E. congruence.
Qed.

Lemma UID_eqb_refl (a : UID) : UID_eqb a a = true.
Proof. apply UID_eqb_eq. reflexivity. Qed.

Lemma get_setThrottlingRatio self id ratio id' :
  get UID_eqb (throttlingRatios (setThrottlingRatio id ratio self)) id' =
  if UID_eqb id id' then Some ratio else get UID_eqb (throttlingRatios self) id'.
Proof.
  unfold setThrottlingRatio. cbn [throttlingRatios].
  apply (@get_subscript_update _ _ _ UID_eqb_eq).
Qed.

(** The servers of the table of ratios stay in it, whatever happens. *)
Lemma step_keeps_ratio_keys knobs e self self' id :
  step knobs e self = Ok self' ->
  In id (keys (throttlingRatios self)) -> In id (keys (throttlingRatios self')).
Proof.
  destruct e; simpl; intros H Hin; try (injection H as <-; exact Hin).
  - destruct (getClientRates knobs self) as [[r s] |] eqn:E; simpl in H; [| discriminate].
    injection H as <-. apply getClientRates_loop_shape in E.
    destruct E as [ts [-> _]]. exact Hin.
  - injection H as <-. simpl. apply keys_subscript_update. exact Hin.
  - injection H as <-. unfold monitorThrottlingChanges_pass.
    destruct currentQuotas as [rows |]; [| exact Hin].
    assert (Hrows : forall rows s,
               throttlingRatios (applyQuotaRowsUntilThrow knobs rows s) = throttlingRatios s).
    { clear. induction rows as [| [t [q |]] rest IH]; intros s; simpl; [reflexivity | | reflexivity].
      rewrite IH. reflexivity. }
    assert (Hall : forall rows seen s seen' s',
               applyQuotaRows knobs rows seen s = Some (seen', s') ->
               throttlingRatios s' = throttlingRatios s).
    { clear. induction rows as [| [t [q |]] rest IH]; intros seen s seen' s' H; simpl in H.
      - injection H as _ <-. reflexivity.
      - apply IH in H. rewrite H. reflexivity.
      - discriminate. }
    destruct (applyQuotaRows knobs rows [] self) as [[seen s] |] eqn:E; cbn [stateAfter].
    + rewrite removeUnseenTags_id. cbn [incrementChangeId throttlingRatios].
      rewrite (Hall _ _ _ _ _ E). exact Hin.
    + rewrite Hrows. exact Hin.
Qed.

Lemma run_keeps_ratio_keys knobs es :
  forall self self' id,
    run knobs es self = Ok self' ->
    In id (keys (throttlingRatios self)) -> In id (keys (throttlingRatios self')).
Proof.
  induction es as [| e rest IH]; intros self self' id H Hin; simpl in H.
  - injection H as <-. exact Hin.
  - destruct (step knobs e self) as [s |] eqn:E; simpl in H; [| discriminate].
    eapply IH; [exact H |]. eapply step_keeps_ratio_keys; eauto.
Qed.

(** X2: [setThrottlingRatio(id, ratio)] makes [ratio] the entry of [id] in
    the table of ratios, an absent ratio (a healthy server) being an entry
    like any other; it leaves the entries of the other servers and the rest
    of the controller as they were; a second call for the same server
    overwrites the first; and no operation ever takes a server out of the
    table that [getLimitingTps] iterates. *)
Theorem setThrottlingRatio_then_lookup knobs self id ratio :
  get UID_eqb (throttlingRatios (setThrottlingRatio id ratio self)) id = Some ratio
  /\ (forall id',
        id' <> id ->
        get UID_eqb (throttlingRatios (setThrottlingRatio id ratio self)) id'
        = get UID_eqb (throttlingRatios self) id')
  /\ (forall ratio0,
        setThrottlingRatio id ratio (setThrottlingRatio id ratio0 self)
        = setThrottlingRatio id ratio self)
  /\ tagStatistics (setThrottlingRatio id ratio self) = tagStatistics self
  /\ throughput (setThrottlingRatio id ratio self) = throughput self
  /\ getThrottledTagChangeId (setThrottlingRatio id ratio self) = getThrottledTagChangeId self
  /\ (forall es self',
        run knobs es (setThrottlingRatio id ratio self) = Ok self' ->
        In id (keys (throttlingRatios self'))).
Proof.
  split; [rewrite get_setThrottlingRatio, UID_eqb_refl; reflexivity |].
  split.
  { intros id' Hneq. rewrite get_setThrottlingRatio, (UID_eqb_neq Hneq). reflexivity. }
  split.
  { intros ratio0. unfold setThrottlingRatio.
    cbn [throttledTagChangeId throttlingRatios tagStatistics throughput].
    f_equal. rewrite (@subscript_update_twice _ _ _ UID_eqb_eq).
    apply subscript_update_ext. intros v. reflexivity. }
  split; [reflexivity |]. split; [reflexivity |]. split; [reflexivity |].
  intros es self' Hrun. eapply run_keeps_ratio_keys; [exact Hrun |].
  unfold setThrottlingRatio. cbn [throttlingRatios].
  apply (@subscript_update_has_key _ _ _ UID_eqb_eq).
Qed.

(* ================================================================== *)
(** ** What getClientRates leaves of the controller *)

Lemma sameTable_trans ta tb tc : sameTable ta tb -> sameTable tb tc -> sameTable ta tc.
Proof.
  unfold sameTable. intros Hab. revert tc.
  induction Hab as [| x y ta tb [Hk [Hq Hc]] Hrest IH]; intros tc Hbc.
  - inversion Hbc. constructor.
  - inversion Hbc as [| y' z tb' tc' [Hk' [Hq' Hc']] Hrest']; subst.
    constructor; [| apply IH; exact Hrest'].
    split; [congruence |]. split; congruence.
Qed.

(** The loop returns the controller it was given with some records of the
    per-tag table rewritten in their per-client smoother. *)
Lemma getClientRates_loop_frame knobs limitingTpsOf self :
  forall todo done result r self',
    getClientRates_loop knobs limitingTpsOf self done todo result = Ok (r, self') ->
    exists ts, self' = withTagStatistics self ts /\ sameTable (done ++ todo) ts.
Proof.
  induction todo as [| [tag stats] rest IH]; intros done result r self' H.
  - cbn [getClientRates_loop] in H. injection H as _ <-.
    exists done. rewrite app_nil_r. split; [reflexivity | apply sameTable_refl].
  - rewrite getClientRates_loop_cons in H. cbv zeta in H.
    destruct (limitingTpsOf _ tag) as [[l |] |]; cbn [bind] in H; [| | discriminate].
    + destruct (getDesiredTps _ tag) as [d |].
      * destruct (getReservedTps _ tag) as [rv |].
        -- destruct (updateAndGetPerClientLimit knobs (Some (targetTps rv l d)) stats)
             as [[limit |] stats'] eqn:E; cbn [Optional_get bind] in H; [| discriminate].
           apply updateAndGetPerClientLimit_present in E.
           destruct E as (_ & _ & _ & _ & Hs).
           apply IH in H. destruct H as (ts & -> & Hts).
           exists ts. split; [reflexivity |].
           eapply sameTable_trans; [| exact Hts].
           exact (@sameTable_step _ done tag stats stats' rest (sameTable_refl _) Hs).
        -- injection H as _ <-. eexists. split; [reflexivity | apply sameTable_refl].
      * injection H as _ <-. eexists. split; [reflexivity | apply sameTable_refl].
    + injection H as _ <-. eexists. split; [reflexivity | apply sameTable_refl].
Qed.

(** X3: a call of [getClientRates] that returns has changed nothing of the
    controller but the per-client smoothers of its per-tag records: the
    change counter, the ratios and the throughput tables are as before, the
    per-tag table holds the same tags in the same order with the same quotas
    and transaction counters, and so the quotas, desired and reserved TPS
    read afterwards are the ones read before. *)
Theorem getClientRates_rewrites_per_client_rates_only knobs limitingTpsOf self r self' :
  getClientRatesWith knobs limitingTpsOf self = Ok (r, self') ->
  getThrottledTagChangeId self' = getThrottledTagChangeId self
  /\ throttlingRatios self' = throttlingRatios self
  /\ throughput self' = throughput self
  /\ keys (tagStatistics self') = keys (tagStatistics self)
  /\ sameTable (tagStatistics self) (tagStatistics self')
  /\ (forall tag opType limitType,
        getQuota self' tag opType limitType = getQuota self tag opType limitType)
  /\ (forall tag, getDesiredTps self' tag = getDesiredTps self tag)
  /\ (forall tag, getReservedTps self' tag = getReservedTps self tag).
Proof.
  intros H. unfold getClientRatesWith in H.
  apply getClientRates_loop_frame in H. cbn [app] in H.
  destruct H as (ts & -> & Hts).
  pose proof (agree_withTagStatistics self Hts) as Hagree.
  split; [reflexivity |]. split; [reflexivity |]. split; [reflexivity |].
  split; [symmetry; apply sameTable_keys; exact Hts |].
  split; [exact Hts |].
  split; [intros tag opType limitType; symmetry; apply agree_getQuota; exact Hagree |].
  split; intros tag; symmetry;
    [apply agree_getDesiredTps | apply agree_getReservedTps]; exact Hagree.
Qed.

Lemma getClientRates_rewrites_per_client_rates_only_witness :
  exists r self',
    getClientRatesWith exampleKnobs (limitingTpsOver specLimitingCostOf) (oneTag 5)
      = Ok (r, self')
    /\ self' <> oneTag 5
    /\ getDesiredTps self' "sampleTag1" = getDesiredTps (oneTag 5) "sampleTag1"
    /\ throughput self' = throughput (oneTag 5).
Proof.
  eexists. eexists.
  assert (Hrun : getClientRatesWith exampleKnobs (limitingTpsOver specLimitingCostOf)
                   (oneTag 5) = Ok _) by (vm_compute; reflexivity).
  split; [exact Hrun |].
  split; [vm_compute; discriminate |].
  destruct (getClientRates_rewrites_per_client_rates_only _ _ _ Hrun)
    as (_ & _ & Ht & _ & _ & _ & Hd & _).
  split; [apply Hd | exact Ht].
Defined.

(* ================================================================== *)
(** ** Removing a quota *)

Lemma no_record_no_rates self tag :
  get String.eqb (tagStatistics self) tag = None ->
  getDesiredTps self tag = None /\ getReservedTps self tag = None.
Proof.
  intros H. unfold getDesiredTps, getReservedTps, getDesiredTps_op, getReservedTps_op,
    getQuota, getAverageTransactionCost.
  rewrite H. split; reflexivity.
Qed.

Lemma no_quota_no_rates self tag stats :
  get String.eqb (tagStatistics self) tag = Some stats ->
  quota stats = None ->
  getDesiredTps self tag = None /\ getReservedTps self tag = None.
Proof.
  intros H Hq.
  assert (Hd : forall opType, getDesiredTps_op self tag opType = None).
  { intros opType. unfold getDesiredTps_op.
    destruct (getAverageTransactionCost self tag opType) as [avg |]; [| reflexivity].
    destruct (avg =? 0)%float; [reflexivity |].
    rewrite H. unfold PerTagStatistics_getQuota. rewrite Hq. reflexivity. }
  assert (Hr : forall opType, getReservedTps_op self tag opType = None).
  { intros opType. unfold getReservedTps_op, getQuota.
    rewrite H. unfold PerTagStatistics_getQuota. rewrite Hq. reflexivity. }
  unfold getDesiredTps, getReservedTps. rewrite !Hd, !Hr. split; reflexivity.
Qed.

(** X4: after [removeQuota(tag)] none of the four quotas of [tag] is
    present, its desired and reserved TPS are absent, and, the tag being
    tracked, the next call of [getClientRates] that returns publishes
    nothing, for any tag. *)
Theorem removeQuota_blocks_publication knobs limitingTpsOf self tag :
  readsInputsOnly limitingTpsOf ->
  (forall opType limitType,
      getQuota (removeQuota knobs tag self) tag opType limitType = None)
  /\ getDesiredTps (removeQuota knobs tag self) tag = None
  /\ getReservedTps (removeQuota knobs tag self) tag = None
  /\ forall r self',
      getClientRatesWith knobs limitingTpsOf (removeQuota knobs tag self) = Ok (r, self') ->
      r = emptyPrioritizedMap ClientTagThrottleLimits
      /\ forall p t, findLimit r p t = None.
Proof.
  intros Hframe.
  assert (Hget : get String.eqb (tagStatistics (removeQuota knobs tag self)) tag
                 = Some (clearQuota (orDefault (get String.eqb (tagStatistics self) tag)
                                       (newPerTagStatistics knobs)))).
  { unfold removeQuota. cbn [tagStatistics withTagStatistics].
    rewrite (@get_subscript_update _ _ _ String_eqb_eq), String.eqb_refl. reflexivity. }
  destruct (no_quota_no_rates _ _ Hget eq_refl) as [Hd Hr].
  split.
  { intros opType limitType. unfold getQuota. rewrite Hget. reflexivity. }
  split; [exact Hd |]. split; [exact Hr |].
  intros r self' H. unfold getClientRatesWith in H.
  assert (Hr0 : r = emptyPrioritizedMap ClientTagThrottleLimits).
  { eapply getClientRates_loop_absent;
      [exact Hframe | exact H | apply sameTable_refl |].
    exists tag. split; [| right; left; exact Hd].
    unfold removeQuota. cbn [tagStatistics withTagStatistics].
    apply (@subscript_update_has_key _ _ _ String_eqb_eq). }
  split; [exact Hr0 |]. intros p t. rewrite Hr0. apply findLimit_empty.
Qed.

Lemma removeQuota_blocks_publication_witness :
  (exists r self' limit,
      getClientRatesWith exampleKnobs (limitingTpsOver specLimitingCostOf) (oneTag 5)
        = Ok (r, self')
      /\ findLimit r DEFAULT "sampleTag1" = Some limit)
  /\ exists r self',
      getClientRatesWith exampleKnobs (limitingTpsOver specLimitingCostOf)
        (removeQuota exampleKnobs "sampleTag1" (oneTag 5)) = Ok (r, self')
      /\ findLimit r DEFAULT "sampleTag1" = None.
Proof.
  split.
  - eexists. eexists. eexists. split; vm_compute; reflexivity.
  - eexists. eexists.
    assert (Hrun : getClientRatesWith exampleKnobs (limitingTpsOver specLimitingCostOf)
                     (removeQuota exampleKnobs "sampleTag1" (oneTag 5)) = Ok _)
      by (vm_compute; reflexivity).
    split; [exact Hrun |].
    destruct (@removeQuota_blocks_publication exampleKnobs _ (oneTag 5) "sampleTag1"
                specLimitingTps_readsInputsOnly) as (_ & _ & _ & Hpub).
    apply (Hpub _ _ Hrun).
Defined.

(* ================================================================== *)
(** ** Whole calls of getClientRates in this revision *)

(** X5: in this revision a call of [getClientRates] that returns, returns
    the empty map and leaves the controller exactly as it was ([getLimitingTps]
    yields no value for the first tag the loop visits); [getTPSLimit] then
    finds no limit for any tag, and a client of the tests runs at its desired
    rate. *)
Theorem getClientRates_returns_nothing_and_changes_nothing knobs self r self' :
  getClientRates knobs self = Ok (r, self') ->
  r = emptyPrioritizedMap ClientTagThrottleLimits
  /\ self' = self
  /\ (forall tag, getTPSLimit knobs self tag = Ok (None, self))
  /\ (forall tag desiredTpsRate,
        runClient_beforeDelay knobs self tag desiredTpsRate
        = Ok (desiredTpsRate, (1 / desiredTpsRate)%float, self)).
Proof.
  intros H.
  assert (Hboth : r = emptyPrioritizedMap ClientTagThrottleLimits /\ self' = self).
  { unfold getClientRates, getClientRatesWith in H.
    destruct (tagStatistics self) as [| [tag stats] rest] eqn:Et.
    - cbn [getClientRates_loop] in H. injection H as <- <-.
      split; [reflexivity |]. rewrite <- Et. apply withTagStatistics_same.
    - rewrite getClientRates_loop_cons in H. cbv zeta in H. cbn [app] in H.
      rewrite <- Et, withTagStatistics_same in H.
      pose proof (@getLimitingTps_never_present self tag) as Hnever.
      destruct (getLimitingTps self tag) as [[l |] |]; cbn [bind] in H;
        [exfalso; exact (Hnever l eq_refl) | | discriminate].
      injection H as <- <-. split; reflexivity. }
  destruct Hboth as [-> ->].
  split; [reflexivity |]. split; [reflexivity |].
  assert (Hlimit : forall tag, getTPSLimit knobs self tag = Ok (None, self)).
  { intros tag. unfold getTPSLimit. rewrite H. cbn [bind fst snd].
    rewrite findLimit_empty. reflexivity. }
  split; [exact Hlimit |].
  intros tag desiredTpsRate. unfold runClient_beforeDelay.
  rewrite Hlimit. reflexivity.
Qed.

Lemma getClientRates_returns_nothing_and_changes_nothing_witness :
  getClientRates exampleKnobs (oneTag 5)
    = Ok (emptyPrioritizedMap ClientTagThrottleLimits, oneTag 5)
  /\ getTPSLimit exampleKnobs (oneTag 5) "sampleTag1" = Ok (None, oneTag 5).
Proof.
  assert (Hrun : getClientRates exampleKnobs (oneTag 5)
                 = Ok (emptyPrioritizedMap ClientTagThrottleLimits, oneTag 5))
    by (vm_compute; reflexivity).
  split; [exact Hrun |].
  destruct (getClientRates_returns_nothing_and_changes_nothing _ _ Hrun)
    as (_ & _ & Hlimit & _).
  apply Hlimit.
Defined.

(** The loop over the servers fails as soon as one server's value cannot
    be computed. *)
Lemma getLimitingTps_loop_fails self tag opType id :
  getLimitingTps_ss self id tag opType = AssertionFailed ->
  forall ids result,
    In id ids -> getLimitingTps_loop self tag opType ids result = AssertionFailed.
Proof.
  intros Hfail. induction ids as [| id0 rest IH]; intros result Hin; [destruct Hin |].
  cbn [getLimitingTps_loop].
  destruct (getLimitingTps_ss self id0 tag opType) as [v |] eqn:E; cbn [bind];
    [| reflexivity].
  destruct Hin as [-> | Hin]; [congruence |].
  apply IH. exact Hin.
Qed.

(** X6: when a throttling ratio is published for a storage server that has
    no throughput table (no busy tag was ever reported for it) and at least
    one tag is tracked, [getClientRates] fails the assertion of
    [Optional::get] in [getLimitingCost]. *)
Theorem getClientRates_fails_on_ratio_without_throughput knobs self id ratio :
  get UID_eqb (throttlingRatios self) id = Some (Some ratio) ->
  get UID_eqb (throughput self) id = None ->
  tagStatistics self <> [] ->
  getClientRates knobs self = AssertionFailed.
Proof.
  intros Hratio Hnone Htracked.
  assert (Hss : forall tag opType, getLimitingTps_ss self id tag opType = AssertionFailed).
  { intros tag opType. unfold getLimitingTps_ss, getQuotaRatio, getTagsAffectingStorageServer.
    rewrite Hnone. cbn [fold_left fst snd].
    change (0 =? 0)%float with true. cbn [bind].
    rewrite getLimitingCost_cases, Hratio.
    unfold getCurrentCost_ss. rewrite Hnone. reflexivity. }
  assert (Hop : forall tag, getLimitingTps self tag = AssertionFailed).
  { intros tag. unfold getLimitingTps, getLimitingTps_op.
    rewrite (getLimitingTps_loop_fails _ _ _ _ (Hss tag READ)); [reflexivity |].
    eapply (@get_key_In _ _ _ UID_eqb_eq). exact Hratio. }
  unfold getClientRates, getClientRatesWith.
  destruct (tagStatistics self) as [| [tag stats] rest] eqn:Et; [congruence |].
  rewrite getClientRates_loop_cons. cbv zeta. cbn [app].
  rewrite <- Et, withTagStatistics_same, Hop. reflexivity.
Qed.

Lemma getClientRates_fails_on_ratio_without_throughput_witness :
  getClientRates exampleKnobs
    (setThrottlingRatio server1 (Some 0.5%float)
       (addRequests exampleKnobs "sampleTag1" 1 newGlobalTagThrottlerImpl))
  = AssertionFailed.
Proof.
  apply (@getClientRates_fails_on_ratio_without_throughput exampleKnobs _ server1 0.5%float).
  - reflexivity.
  - reflexivity.
  - discriminate.
Defined.

(* ================================================================== *)
(** ** Reports of busy tags *)

Lemma getTagsAffectingStorageServer_table self id :
  getTagsAffectingStorageServer self id
  = keys (orDefault (get UID_eqb (throughput self) id) []).
Proof.
  unfold getTagsAffectingStorageServer.
  destruct (get UID_eqb (throughput self) id); reflexivity.
Qed.

(** The table of the reporting server after the reports of one loop of
    [tryUpdateAutoThrottling], and the tables of the other servers. *)
Lemma fold_recordCost_table knobs id opType busyTags :
  forall tp,
    orDefault (get UID_eqb (fold_left (recordCost knobs id opType) busyTags tp) id) []
    = fold_left
        (fun perTag busyTag =>
           subscript_update String.eqb perTag (fst busyTag) (newThroughputCounters knobs)
             (updateCost (snd busyTag) opType))
        busyTags (orDefault (get UID_eqb tp id) []).
Proof.
  induction busyTags as [| busyTag rest IH]; intros tp; cbn [fold_left]; [reflexivity |].
  rewrite IH. unfold recordCost.
  rewrite (@get_subscript_update _ _ _ UID_eqb_eq), UID_eqb_refl. reflexivity.
Qed.

Lemma fold_recordCost_other knobs id opType busyTags id' :
  id' <> id ->
  forall tp,
    get UID_eqb (fold_left (recordCost knobs id opType) busyTags tp) id'
    = get UID_eqb tp id'.
Proof.
  intros Hneq. induction busyTags as [| busyTag rest IH]; intros tp; cbn [fold_left];
    [reflexivity |].
  rewrite IH. unfold recordCost.
  rewrite (@get_subscript_update _ _ _ UID_eqb_eq), (UID_eqb_neq Hneq). reflexivity.
Qed.

Section FoldedUpdates.
(** A loop that updates one entry of a table per element of a list, as
    [for (x : xs) m[key(x)].update(x)]. *)
Variables K V B : Type.
Variable keq : K -> K -> bool.
Hypothesis keq_eq : forall a b, keq a b = true <-> a = b.
Variable d : V.
Variable key : B -> K.
Variable upd : B -> V -> V.

Lemma updates_keep_keys (xs : list B) :
  forall (m : unordered_map K V) k,
    In k (keys m) ->
    In k (keys (fold_left (fun m x => subscript_update keq m (key x) d (upd x)) xs m)).
Proof.
  induction xs as [| x rest IH]; intros m k Hin; cbn [fold_left]; [exact Hin |].
  apply IH. apply keys_subscript_update. exact Hin.
Qed.

Lemma updates_add_keys (xs : list B) :
  forall (m : unordered_map K V) k,
    In k (map key xs) ->
    In k (keys (fold_left (fun m x => subscript_update keq m (key x) d (upd x)) xs m)).
Proof.
  induction xs as [| x rest IH]; intros m k Hin; cbn [fold_left]; [destruct Hin |].
  destruct Hin as [<- | Hin]; [| apply IH; exact Hin].
  apply updates_keep_keys. apply (@subscript_update_has_key _ _ _ keq_eq).
Qed.

Lemma updates_keys_inv (xs : list B) :
  forall (m : unordered_map K V) k,
    In k (keys (fold_left (fun m x => subscript_update keq m (key x) d (upd x)) xs m)) ->
    In k (keys m) \/ In k (map key xs).
Proof.
  induction xs as [| x rest IH]; intros m k Hin; cbn [fold_left] in Hin; [auto |].
  apply IH in Hin. destruct Hin as [Hin | Hin]; [| right; right; exact Hin].
  apply keys_subscript_update_inv in Hin.
  destruct Hin as [-> | Hin]; [right; left; reflexivity | left; exact Hin].
Qed.

Lemma updates_keep_other_entries (xs : list B) :
  forall (m : unordered_map K V) k,
    ~ In k (map key xs) ->
    get keq (fold_left (fun m x => subscript_update keq m (key x) d (upd x)) xs m) k
    = get keq m k.
Proof.
  induction xs as [| x rest IH]; intros m k Hnot; cbn [fold_left]; [reflexivity |].
  rewrite IH by (intros Hin; apply Hnot; right; exact Hin).
  rewrite (@get_subscript_update _ _ _ keq_eq).
  destruct (keq (key x) k) eqn:E; [| reflexivity].
  apply keq_eq in E. exfalso. apply Hnot. left. exact E.
Qed.

Lemma updates_length_le (xs : list B) :
  forall (m : unordered_map K V),
    List.length m
    <= List.length (fold_left (fun m x => subscript_update keq m (key x) d (upd x)) xs m).
Proof.
  induction xs as [| x rest IH]; intros m; cbn [fold_left]; [lia |].
  eapply Nat.le_trans; [| apply IH]. apply length_subscript_update_le.
Qed.
End FoldedUpdates.

Section ReportedTags.
Variable knobs : ServerKnobs.
Variable opType : OpType.

Lemma reports_keep_tags (busyTags : list (TransactionTag * float)) perTag tag :
  In tag (keys perTag) ->
  In tag (keys (fold_left
                  (fun perTag busyTag =>
                     subscript_update String.eqb perTag (fst busyTag)
                       (newThroughputCounters knobs) (updateCost (snd busyTag) opType))
                  busyTags perTag)).
Proof.
  apply (updates_keep_keys String.eqb (newThroughputCounters knobs) fst
           (fun busyTag => updateCost (snd busyTag) opType)).
Qed.

Lemma reports_add_tags (busyTags : list (TransactionTag * float)) perTag tag :
  In tag (map fst busyTags) ->
  In tag (keys (fold_left
                  (fun perTag busyTag =>
                     subscript_update String.eqb perTag (fst busyTag)
                       (newThroughputCounters knobs) (updateCost (snd busyTag) opType))
                  busyTags perTag)).
Proof.
  apply (updates_add_keys String.eqb String_eqb_eq (newThroughputCounters knobs) fst
           (fun busyTag => updateCost (snd busyTag) opType)).
Qed.

Lemma reports_tags_inv (busyTags : list (TransactionTag * float)) perTag tag :
  In tag (keys (fold_left
                  (fun perTag busyTag =>
                     subscript_update String.eqb perTag (fst busyTag)
                       (newThroughputCounters knobs) (updateCost (snd busyTag) opType))
                  busyTags perTag)) ->
  In tag (keys perTag) \/ In tag (map fst busyTags).
Proof.
  apply (updates_keys_inv String.eqb (newThroughputCounters knobs) fst
           (fun busyTag => updateCost (snd busyTag) opType)).
Qed.

Lemma reports_keep_other_counters (busyTags : list (TransactionTag * float)) perTag tag :
  ~ In tag (map fst busyTags) ->
  get String.eqb
    (fold_left
       (fun perTag busyTag =>
          subscript_update String.eqb perTag (fst busyTag)
            (newThroughputCounters knobs) (updateCost (snd busyTag) opType))
       busyTags perTag) tag
  = get String.eqb perTag tag.
Proof.
  apply (updates_keep_other_entries String.eqb String_eqb_eq (newThroughputCounters knobs) fst
           (fun busyTag => updateCost (snd busyTag) opType)).
Qed.
End ReportedTags.

Lemma tryUpdateAutoThrottling_table knobs ss self :
  orDefault (get UID_eqb (throughput (tryUpdateAutoThrottling knobs ss self)) (ss_id ss)) []
  = fold_left
      (fun perTag busyTag =>
         subscript_update String.eqb perTag (fst busyTag) (newThroughputCounters knobs)
           (updateCost (snd busyTag) WRITE))
      (busiestWriteTags ss)
      (fold_left
         (fun perTag busyTag =>
            subscript_update String.eqb perTag (fst busyTag) (newThroughputCounters knobs)
              (updateCost (snd busyTag) READ))
         (busiestReadTags ss)
         (orDefault (get UID_eqb (throughput self) (ss_id ss)) [])).
Proof.
  unfold tryUpdateAutoThrottling. cbn [throughput].
  rewrite !fold_recordCost_table. reflexivity.
Qed.

Lemma tryUpdateAutoThrottling_keeps_tags knobs ss self id tag :
  In tag (getTagsAffectingStorageServer self id) ->
  In tag (getTagsAffectingStorageServer (tryUpdateAutoThrottling knobs ss self) id).
Proof.
  rewrite !getTagsAffectingStorageServer_table. intros Hin.
  destruct (UID_eqb (ss_id ss) id) eqn:E.
  - apply UID_eqb_eq in E. subst id. rewrite tryUpdateAutoThrottling_table.
    apply reports_keep_tags, reports_keep_tags. exact Hin.
  - assert (Hneq : id <> ss_id ss).
    { intros ->. rewrite UID_eqb_refl in E. discriminate. }
    unfold tryUpdateAutoThrottling. cbn [throughput].
    rewrite !(fold_recordCost_other _ _ _ Hneq). exact Hin.
Qed.

(** X7: [tryUpdateAutoThrottling(ss)] puts every tag of the report, read or
    write, into the throughput table of the reporting server, takes no tag
    out of any table, adds no other tag, leaves the counters of the tags that
    the report does not name (their last reported costs) and the tables of
    the other servers as they were, and touches nothing else of the
    controller; a report without tags changes nothing, and creates no table
    for the server. *)
Theorem tryUpdateAutoThrottling_records_tags knobs ss self :
  (forall tag,
      In tag (map fst (busiestReadTags ss ++ busiestWriteTags ss)) ->
      In tag (getTagsAffectingStorageServer (tryUpdateAutoThrottling knobs ss self) (ss_id ss)))
  /\ (forall id tag,
        In tag (getTagsAffectingStorageServer self id) ->
        In tag (getTagsAffectingStorageServer (tryUpdateAutoThrottling knobs ss self) id))
  /\ (forall id tag,
        In tag (getTagsAffectingStorageServer (tryUpdateAutoThrottling knobs ss self) id) ->
        In tag (getTagsAffectingStorageServer self id)
        \/ (id = ss_id ss
            /\ In tag (map fst (busiestReadTags ss ++ busiestWriteTags ss))))
  /\ (forall tag opType,
        ~ In tag (map fst (busiestReadTags ss ++ busiestWriteTags ss)) ->
        getCurrentCost_ss_tag (tryUpdateAutoThrottling knobs ss self) (ss_id ss) tag opType
        = getCurrentCost_ss_tag self (ss_id ss) tag opType)
  /\ (forall id,
        id <> ss_id ss ->
        get UID_eqb (throughput (tryUpdateAutoThrottling knobs ss self)) id
        = get UID_eqb (throughput self) id)
  /\ tagStatistics (tryUpdateAutoThrottling knobs ss self) = tagStatistics self
  /\ throttlingRatios (tryUpdateAutoThrottling knobs ss self) = throttlingRatios self
  /\ getThrottledTagChangeId (tryUpdateAutoThrottling knobs ss self)
     = getThrottledTagChangeId self
  /\ (busiestReadTags ss = [] ->
      busiestWriteTags ss = [] ->
      tryUpdateAutoThrottling knobs ss self = self).
Proof.
  split; [| split; [| split; [| split; [| split]]]].
  - intros tag Hin. rewrite getTagsAffectingStorageServer_table, tryUpdateAutoThrottling_table.
    rewrite map_app in Hin. apply in_app_or in Hin. destruct Hin as [Hin | Hin].
    + apply reports_keep_tags, reports_add_tags. exact Hin.
    + apply reports_add_tags. exact Hin.
  - intros id tag. apply tryUpdateAutoThrottling_keeps_tags.
  - intros id tag. rewrite !getTagsAffectingStorageServer_table.
    destruct (UID_eqb (ss_id ss) id) eqn:E.
    + apply UID_eqb_eq in E. subst id. rewrite tryUpdateAutoThrottling_table.
      intros Hin. apply reports_tags_inv in Hin.
      destruct Hin as [Hin | Hin].
      * apply reports_tags_inv in Hin. destruct Hin as [Hin | Hin]; [left; exact Hin |].
        right. split; [reflexivity |]. rewrite map_app. apply in_or_app. left. exact Hin.
      * right. split; [reflexivity |]. rewrite map_app. apply in_or_app. right. exact Hin.
    + assert (Hneq : id <> ss_id ss).
      { intros ->. rewrite UID_eqb_refl in E. discriminate. }
      unfold tryUpdateAutoThrottling. cbn [throughput].
      rewrite !(fold_recordCost_other _ _ _ Hneq). auto.
  - intros tag opType Hnot. rewrite map_app in Hnot.
    assert (Hget : get String.eqb
                     (orDefault (get UID_eqb (throughput (tryUpdateAutoThrottling knobs ss self))
                                   (ss_id ss)) []) tag
                   = get String.eqb
                       (orDefault (get UID_eqb (throughput self) (ss_id ss)) []) tag).
    { rewrite tryUpdateAutoThrottling_table.
      rewrite !reports_keep_other_counters; [reflexivity | |];
        intros Hin; apply Hnot; apply in_or_app; auto. }
    unfold getCurrentCost_ss_tag.
    destruct (get UID_eqb (throughput (tryUpdateAutoThrottling knobs ss self)) (ss_id ss))
      as [t' |]; destruct (get UID_eqb (throughput self) (ss_id ss)) as [t |];
      cbn [orDefault get] in Hget.
    + rewrite Hget. reflexivity.
    + rewrite Hget. reflexivity.
    + rewrite <- Hget. reflexivity.
    + reflexivity.
  - intros id Hneq. unfold tryUpdateAutoThrottling. cbn [throughput].
    rewrite !(fold_recordCost_other _ _ _ Hneq). reflexivity.
  - split; [reflexivity |]. split; [reflexivity |]. split; [reflexivity |].
    intros Hr Hw. unfold tryUpdateAutoThrottling. rewrite Hr, Hw. cbn [fold_left].
    destruct self. reflexivity.
Qed.

(** A pass of the quota watcher touches the per-tag table and the change
    counter only. *)
Lemma watcherPass_keeps_servers knobs currentQuotas self :
  throttlingRatios (stateAfter (monitorThrottlingChanges_pass knobs currentQuotas self))
  = throttlingRatios self
  /\ throughput (stateAfter (monitorThrottlingChanges_pass knobs currentQuotas self))
     = throughput self.
Proof.
  unfold monitorThrottlingChanges_pass.
  destruct currentQuotas as [rows |]; [| split; reflexivity].
  assert (Hthrow : forall rows s,
             throttlingRatios (applyQuotaRowsUntilThrow knobs rows s) = throttlingRatios s
             /\ throughput (applyQuotaRowsUntilThrow knobs rows s) = throughput s).
  { clear. induction rows as [| [t [q |]] rest IH]; intros s; simpl;
      [split; reflexivity | | split; reflexivity].
    destruct (IH (withTagStatistics s
                    (subscript_update String.eqb (tagStatistics s) t
                       (newPerTagStatistics knobs) (PerTagStatistics_setQuota q))))
      as [H1 H2].
    rewrite H1, H2. split; reflexivity. }
  assert (Hall : forall rows seen s seen' s',
             applyQuotaRows knobs rows seen s = Some (seen', s') ->
             throttlingRatios s' = throttlingRatios s /\ throughput s' = throughput s).
  { clear. induction rows as [| [t [q |]] rest IH]; intros seen s seen' s' H; simpl in H.
    - injection H as _ <-. split; reflexivity.
    - apply IH in H. destruct H as [H1 H2]. rewrite H1, H2. split; reflexivity.
    - discriminate. }
  destruct (applyQuotaRows knobs rows [] self) as [[seen s] |] eqn:E; cbn [stateAfter].
  - rewrite removeUnseenTags_id. cbn [incrementChangeId throttlingRatios throughput].
    apply (Hall _ _ _ _ _ E).
  - apply Hthrow.
Qed.

Lemma tags_after_relax readings self id tag :
  In tag (getTagsAffectingStorageServer self id) ->
  In tag (getTagsAffectingStorageServer (relax readings self) id).
Proof.
  unfold getTagsAffectingStorageServer. cbn [relax throughput].
  induction (throughput self) as [| [k t] rest IH]; cbn [map get fst snd]; [auto |].
  destruct (UID_eqb k id); [| exact IH].
  unfold keys. rewrite map_map. cbn [fst]. auto.
Qed.

Lemma step_keeps_server_tags knobs e self self' id tag :
  step knobs e self = Ok self' ->
  In tag (getTagsAffectingStorageServer self id) ->
  In tag (getTagsAffectingStorageServer self' id).
Proof.
  destruct e; simpl; intros H Hin; try (injection H as <-; exact Hin).
  - destruct (getClientRates knobs self) as [[r s] |] eqn:E; simpl in H; [| discriminate].
    injection H as <-. apply getClientRates_loop_shape in E.
    destruct E as [ts [-> _]]. exact Hin.
  - injection H as <-. apply tryUpdateAutoThrottling_keeps_tags. exact Hin.
  - injection H as <-. unfold getTagsAffectingStorageServer in *.
    destruct (watcherPass_keeps_servers knobs currentQuotas self) as [_ Ht].
    rewrite Ht. exact Hin.
  - injection H as <-. apply tags_after_relax. exact Hin.
Qed.

(** X8: no operation of the controller, no pass of the watcher and no
    passing of time ever takes a tag out of the throughput table of a storage
    server: a tag once reported for a server is among the tags affecting that
    server (the tags whose quotas [getQuotaRatio] sums) for the rest of the
    controller's life. *)
Theorem tags_affecting_server_never_leave knobs es :
  forall self self' id tag,
    run knobs es self = Ok self' ->
    In tag (getTagsAffectingStorageServer self id) ->
    In tag (getTagsAffectingStorageServer self' id).
Proof.
  induction es as [| e rest IH]; intros self self' id tag H Hin; simpl in H.
  - injection H as <-. exact Hin.
  - destruct (step knobs e self) as [s |] eqn:E; simpl in H; [| discriminate].
    eapply IH; [exact H |]. eapply step_keeps_server_tags; eauto.
Qed.

Lemma tags_affecting_server_never_leave_witness :
  exists self',
    run exampleKnobs
      [CallTryUpdateAutoThrottling
         {| ss_id := server0; busiestReadTags := [("sampleTag2"%string, 30%float)];
            busiestWriteTags := [] |};
       CallRemoveQuota "sampleTag1";
       WatcherPass (Some []);
       TimePasses (fun s => (total s, 0%float))]
      (oneTag 5) = Ok self'
    /\ In "sampleTag1"%string (getTagsAffectingStorageServer self' server0).
Proof.
  eexists.
  assert (Hrun : run exampleKnobs
                   [CallTryUpdateAutoThrottling
                      {| ss_id := server0;
                         busiestReadTags := [("sampleTag2"%string, 30%float)];
                         busiestWriteTags := [] |};
                    CallRemoveQuota "sampleTag1";
                    WatcherPass (Some []);
                    TimePasses (fun s => (total s, 0%float))]
                   (oneTag 5) = Ok _) by (vm_compute; reflexivity).
  split; [exact Hrun |].
  apply (tags_affecting_server_never_leave _ _ _ server0 "sampleTag1" Hrun).
  left. reflexivity.
Defined.

(* ================================================================== *)
(** ** A tag without reported cost *)

(** A zero divided by a number that is not zero is a zero. *)
Lemma zero_div_number (x r : float) :
  (x =? 0)%float = true -> isNumber r -> (r =? 0)%float = false ->
  (x / r =? 0)%float = true.
Proof.
  unfold isNumber, is_nan. rewrite !eqb_spec, div_spec.
  change (Prim2SF 0) with (S754_zero false).
  destruct (Prim2SF x) as [sx | sx | | sx mx ex];
    destruct (Prim2SF r) as [sr | sr | | sr mr er];
    cbn; try discriminate; try reflexivity; try (destruct sx; discriminate).
Qed.

(** An operation in which the tag has no cost has no desired and no
    reserved TPS: the average cost of a transaction is absent or zero. *)
Lemma zero_cost_no_rates self tag opType :
  (getCurrentCost_tag self tag opType =? 0)%float = true ->
  (forall stats,
      get String.eqb (tagStatistics self) tag = Some stats ->
      isNumber (getTransactionRate stats)) ->
  getDesiredTps_op self tag opType = None /\ getReservedTps_op self tag opType = None.
Proof.
  intros Hzero Hnum.
  assert (Havg : match getAverageTransactionCost self tag opType with
                 | Some avg => (avg =? 0)%float = true
                 | None => True
                 end).
  { unfold getAverageTransactionCost.
    destruct (get String.eqb (tagStatistics self) tag) as [stats |]; [| exact I].
    destruct (getTransactionRate stats =? 0)%float eqn:E; [exact I |].
    apply zero_div_number; [exact Hzero | apply Hnum; reflexivity | exact E]. }
  unfold getDesiredTps_op, getReservedTps_op.
  destruct (getAverageTransactionCost self tag opType) as [avg |].
  - rewrite Havg. split; [reflexivity |].
    destruct (getQuota self tag opType RESERVED); reflexivity.
  - split; [reflexivity |].
    destruct (getQuota self tag opType RESERVED); reflexivity.
Qed.

Lemma no_counters_no_cost self tag opType :
  (forall id, getCurrentCost_ss_tag self id tag opType = None) ->
  getCurrentCost_tag self tag opType = 0%float.
Proof.
  intros Hnone. unfold getCurrentCost_tag.
  induction (throughput self) as [| kv rest IH]; cbn [fold_left]; [reflexivity |].
  rewrite Hnone. cbn [orDefault]. change (0 + 0)%float with 0%float. exact IH.
Qed.

(** X9: a tracked tag for which no storage server has reported a cost (a
    tag that was just given a quota, say) has current cost 0 for reads and
    for writes, hence neither a desired nor a reserved TPS, and as long as
    that is so a call of [getClientRates] that returns publishes nothing,
    for any tag.  (The transaction rate of the tag is not a NaN.) *)
Theorem tag_without_cost_blocks_publication knobs limitingTpsOf self tag stats :
  readsInputsOnly limitingTpsOf ->
  get String.eqb (tagStatistics self) tag = Some stats ->
  isNumber (getTransactionRate stats) ->
  (forall id opType, getCurrentCost_ss_tag self id tag opType = None) ->
  (forall opType, getCurrentCost_tag self tag opType = 0%float)
  /\ getDesiredTps self tag = None
  /\ getReservedTps self tag = None
  /\ forall r self',
      getClientRatesWith knobs limitingTpsOf self = Ok (r, self') ->
      r = emptyPrioritizedMap ClientTagThrottleLimits.
Proof.
  intros Hframe Hget Hnum Hnone.
  assert (Hcost : forall opType, getCurrentCost_tag self tag opType = 0%float).
  { intros opType. apply no_counters_no_cost. intros id. apply Hnone. }
  assert (Hop : forall opType,
             getDesiredTps_op self tag opType = None
             /\ getReservedTps_op self tag opType = None).
  { intros opType. apply zero_cost_no_rates.
    - rewrite Hcost. reflexivity.
    - intros stats0 Hget0. rewrite Hget in Hget0. injection Hget0 as <-. exact Hnum. }
  assert (Hd : getDesiredTps self tag = None).
  { unfold getDesiredTps. destruct (Hop READ) as [-> _]. destruct (Hop WRITE) as [-> _].
    reflexivity. }
  assert (Hr : getReservedTps self tag = None).
  { unfold getReservedTps. destruct (Hop READ) as [_ ->]. destruct (Hop WRITE) as [_ ->].
    reflexivity. }
  split; [exact Hcost |]. split; [exact Hd |]. split; [exact Hr |].
  intros r self' H. unfold getClientRatesWith in H.
  eapply getClientRates_loop_absent;
    [exact Hframe | exact H | apply sameTable_refl |].
  exists tag. split; [| right; left; exact Hd].
  eapply (@get_key_In _ _ _ String_eqb_eq). exact Hget.
Qed.

Lemma tag_without_cost_blocks_publication_witness :
  (exists r self' limit,
      getClientRatesWith exampleKnobs (limitingTpsOver specLimitingCostOf) (oneTag 5)
        = Ok (r, self')
      /\ findLimit r DEFAULT "sampleTag1" = Some limit)
  /\ exists self',
      getClientRatesWith exampleKnobs (limitingTpsOver specLimitingCostOf) (tagWithoutCost 5)
      = Ok (emptyPrioritizedMap ClientTagThrottleLimits, self').
Proof.
  split.
  - eexists. eexists. eexists. split; vm_compute; reflexivity.
  - assert (Hrun : exists r self',
               getClientRatesWith exampleKnobs (limitingTpsOver specLimitingCostOf)
                 (tagWithoutCost 5) = Ok (r, self'))
      by (eexists; eexists; vm_compute; reflexivity).
    destruct Hrun as (r & self' & Hrun). exists self'.
    destruct (@tag_without_cost_blocks_publication exampleKnobs
                (limitingTpsOver specLimitingCostOf) (tagWithoutCost 5) "sampleTag2"
                (statsAt (Some (readQuota 100 0)) 5 0)
                specLimitingTps_readsInputsOnly eq_refl eq_refl)
      as (_ & _ & _ & Hpub).
    { intros id opType. unfold getCurrentCost_ss_tag, tagWithoutCost. cbn [throughput get].
      destruct (UID_eqb server0 id); reflexivity. }
    rewrite (Hpub _ _ Hrun) in Hrun. exact Hrun.
Defined.

(* ================================================================== *)
(** ** What a pass of the quota watcher does *)

Lemma tagStatistics_setQuota_rows knobs (rows : list (TransactionTag * TagQuotaValue)) :
  forall self,
    tagStatistics (fold_left (fun s row => setQuota knobs (fst row) (snd row) s) rows self)
    = fold_left
        (fun m row =>
           subscript_update String.eqb m (fst row) (newPerTagStatistics knobs)
             (PerTagStatistics_setQuota (snd row)))
        rows (tagStatistics self).
Proof.
  induction rows as [| row rest IH]; intros self; cbn [fold_left]; [reflexivity |].
  rewrite IH. reflexivity.
Qed.

Lemma applyQuotaRows_decoded knobs (rows : list (TransactionTag * TagQuotaValue)) :
  forall seenTags self,
    exists seenTags',
      applyQuotaRows knobs (map (fun row => (fst row, Some (snd row))) rows) seenTags self
      = Some (seenTags',
              fold_left (fun s row => setQuota knobs (fst row) (snd row) s) rows self).
Proof.
  induction rows as [| [tag q] rest IH]; intros seenTags self; cbn [map fold_left fst snd].
  - exists seenTags. reflexivity.
  - cbn [applyQuotaRows]. apply IH.
Qed.

Lemma applyQuotaRows_undecoded knobs (rows : list (TransactionTag * TagQuotaValue)) tag rest :
  forall seenTags self,
    applyQuotaRows knobs
      (map (fun row => (fst row, Some (snd row))) rows ++ (tag, None) :: rest) seenTags self
    = None
    /\ applyQuotaRowsUntilThrow knobs
         (map (fun row => (fst row, Some (snd row))) rows ++ (tag, None) :: rest) self
       = fold_left (fun s row => setQuota knobs (fst row) (snd row) s) rows self.
Proof.
  induction rows as [| [t q] rows IH]; intros seenTags self;
    cbn [map app fold_left fst snd applyQuotaRows applyQuotaRowsUntilThrow].
  - split; reflexivity.
  - apply IH.
Qed.

(** X10: a pass of the quota watcher whose rows all decode is the same as
    calling [setQuota] for each row, in order, and then adding one to the
    change counter: the tags that the scan does not hold keep their quotas
    (none is cleared), and a tag of the scan gets the quota of its last row.
    A pass that meets a row that does not decode has called [setQuota] for
    the rows before it and leaves the counter alone; a pass whose read fails
    changes nothing. *)
Theorem watcherPass_is_setQuota_per_row knobs (rows : list (TransactionTag * TagQuotaValue))
  self :
  monitorThrottlingChanges_pass knobs
    (Some (map (fun row => (fst row, Some (snd row))) rows)) self
  = ScanCompleted
      (incrementChangeId
         (fold_left (fun s row => setQuota knobs (fst row) (snd row) s) rows self))
  /\ (forall tag rest,
        monitorThrottlingChanges_pass knobs
          (Some (map (fun row => (fst row, Some (snd row))) rows ++ (tag, None) :: rest)) self
        = ScanRetried
            (fold_left (fun s row => setQuota knobs (fst row) (snd row) s) rows self))
  /\ monitorThrottlingChanges_pass knobs None self = ScanRetried self
  /\ (forall tag opType limitType,
        ~ In tag (map fst rows) ->
        getQuota (fold_left (fun s row => setQuota knobs (fst row) (snd row) s) rows self)
          tag opType limitType
        = getQuota self tag opType limitType)
  /\ (forall before tag q after,
        rows = before ++ (tag, q) :: after ->
        ~ In tag (map fst after) ->
        exists stats,
          get String.eqb
            (tagStatistics
               (fold_left (fun s row => setQuota knobs (fst row) (snd row) s) rows self))
            tag = Some stats
          /\ PerTagStatistics_getQuota stats = Some q).
Proof.
  split; [| split; [| split; [| split]]].
  - unfold monitorThrottlingChanges_pass.
    destruct (applyQuotaRows_decoded knobs rows [] self) as [seen ->].
    rewrite removeUnseenTags_id. reflexivity.
  - intros tag rest. unfold monitorThrottlingChanges_pass.
    destruct (applyQuotaRows_undecoded knobs rows tag rest [] self) as [-> ->].
    reflexivity.
  - reflexivity.
  - intros tag opType limitType Hnot. unfold getQuota.
    rewrite tagStatistics_setQuota_rows.
    rewrite (updates_keep_other_entries String.eqb String_eqb_eq (newPerTagStatistics knobs)
               fst (fun row => PerTagStatistics_setQuota (snd row)) rows _ tag Hnot).
    reflexivity.
  - intros before tag q after -> Hnot.
    rewrite fold_left_app. cbn [fold_left fst snd].
    rewrite tagStatistics_setQuota_rows.
    rewrite (updates_keep_other_entries String.eqb String_eqb_eq (newPerTagStatistics knobs)
               fst (fun row => PerTagStatistics_setQuota (snd row)) after _ tag Hnot).
    rewrite get_setQuota, String.eqb_refl.
    eexists. split; reflexivity.
Qed.

(* ================================================================== *)
(** ** Desired and reserved TPS of a tag *)

Lemma std_min_upper_r a b : isNumber a -> isNumber b -> fle (std_min a b) b.
Proof.
  intros Ha Hb. unfold std_min. destruct (b <? a)%float eqn:E.
  - apply fle_refl. exact Hb.
  - apply not_flt_fle; assumption.
Qed.

Lemma std_max_lower_r a b : isNumber a -> isNumber b -> fle b (std_max a b).
Proof.
  intros Ha Hb. unfold std_max. destruct (a <? b)%float eqn:E.
  - apply fle_refl. exact Hb.
  - apply not_flt_fle; assumption.
Qed.

(** X11: the desired TPS of a tag is the smaller of its desired read and
    write TPS, its reserved TPS the larger of its reserved read and write
    TPS; a side that is absent is ignored, and the result is absent exactly
    when both sides are.  With both sides numbers, the desired TPS is at most
    each side and the reserved TPS at least each side, and each is one of
    the two. *)
Theorem desired_and_reserved_combine_read_and_write self tag :
  (getDesiredTps self tag = None <->
   getDesiredTps_op self tag READ = None /\ getDesiredTps_op self tag WRITE = None)
  /\ (getReservedTps self tag = None <->
      getReservedTps_op self tag READ = None /\ getReservedTps_op self tag WRITE = None)
  /\ (forall x,
        (getDesiredTps_op self tag READ = Some x /\ getDesiredTps_op self tag WRITE = None)
        \/ (getDesiredTps_op self tag READ = None /\ getDesiredTps_op self tag WRITE = Some x) ->
        getDesiredTps self tag = Some x)
  /\ (forall x,
        (getReservedTps_op self tag READ = Some x /\ getReservedTps_op self tag WRITE = None)
        \/ (getReservedTps_op self tag READ = None /\ getReservedTps_op self tag WRITE = Some x) ->
        getReservedTps self tag = Some x)
  /\ (forall r w,
        getDesiredTps_op self tag READ = Some r ->
        getDesiredTps_op self tag WRITE = Some w ->
        isNumber r -> isNumber w ->
        exists d,
          getDesiredTps self tag = Some d /\ fle d r /\ fle d w /\ (d = r \/ d = w))
  /\ (forall r w,
        getReservedTps_op self tag READ = Some r ->
        getReservedTps_op self tag WRITE = Some w ->
        isNumber r -> isNumber w ->
        exists v,
          getReservedTps self tag = Some v /\ fle r v /\ fle w v /\ (v = r \/ v = w)).
Proof.
  unfold getDesiredTps, getReservedTps.
  destruct (getDesiredTps_op self tag READ) as [dr |];
    destruct (getDesiredTps_op self tag WRITE) as [dw |];
    destruct (getReservedTps_op self tag READ) as [rr |];
    destruct (getReservedTps_op self tag WRITE) as [rw |];
    cbn [minOfPresent maxOfPresent];
    (split; [split; [try discriminate; auto | intros [? ?]; try discriminate; auto] |]);
    (split; [split; [try discriminate; auto | intros [? ?]; try discriminate; auto] |]);
    (split; [intros x [[? ?] | [? ?]]; try discriminate; congruence |]);
    (split; [intros x [[? ?] | [? ?]]; try discriminate; congruence |]);
    (split; intros r w Hr Hw Hnr Hnw; try discriminate;
     injection Hr as <-; injection Hw as <-; eexists; (split; [reflexivity |])).
  all: try (split; [apply std_min_upper; assumption |];
            split; [apply std_min_upper_r; assumption |];
            unfold std_min; destruct (_ <? _)%float; auto).
  all: try (split; [apply std_max_lower; assumption |];
            split; [apply std_max_lower_r; assumption |];
            unfold std_max; destruct (_ <? _)%float; auto).
Qed.

(* ================================================================== *)
(** ** The count of throttled tags *)

Lemma applyQuotaRows_length knobs rows :
  forall seenTags self seenTags' self',
    applyQuotaRows knobs rows seenTags self = Some (seenTags', self') ->
    List.length (tagStatistics self) <= List.length (tagStatistics self').
Proof.
  induction rows as [| [tag [q |]] rest IH]; intros seenTags self seenTags' self' H;
    simpl in H.
  - injection H as _ <-. lia.
  - apply IH in H. cbn [tagStatistics withTagStatistics] in H.
    eapply Nat.le_trans; [| exact H]. apply length_subscript_update_le.
  - discriminate.
Qed.

Lemma applyQuotaRowsUntilThrow_length knobs rows :
  forall self,
    List.length (tagStatistics self)
    <= List.length (tagStatistics (applyQuotaRowsUntilThrow knobs rows self)).
Proof.
  induction rows as [| [tag [q |]] rest IH]; intros self; simpl; try lia.
  eapply Nat.le_trans; [| apply IH]. cbn [tagStatistics withTagStatistics].
  apply length_subscript_update_le.
Qed.

Lemma step_autoThrottleCount knobs e self self' :
  step knobs e self = Ok self' ->
  List.length (tagStatistics self) <= List.length (tagStatistics self').
Proof.
  destruct e; simpl; intros H; try (injection H as <-; simpl; lia).
  - injection H as <-. simpl. apply length_subscript_update_le.
  - destruct (getClientRates knobs self) as [[r s] |] eqn:E; simpl in H; [| discriminate].
    injection H as <-. apply getClientRates_loop_shape in E.
    destruct E as [ts [-> Hk]]. cbn [tagStatistics withTagStatistics app] in *.
    apply (f_equal (@List.length _)) in Hk. unfold keys in Hk.
    rewrite !length_map in Hk. rewrite Hk. lia.
  - injection H as <-. simpl. apply length_subscript_update_le.
  - injection H as <-. simpl. apply length_subscript_update_le.
  - injection H as <-. unfold monitorThrottlingChanges_pass.
    destruct currentQuotas as [rows |]; [| simpl; lia].
    destruct (applyQuotaRows knobs rows [] self) as [[seen s] |] eqn:E; cbn [stateAfter].
    + rewrite removeUnseenTags_id. cbn [incrementChangeId tagStatistics].
      eapply applyQuotaRows_length. exact E.
    + apply applyQuotaRowsUntilThrow_length.
  - injection H as <-. simpl. rewrite length_map. lia.
Qed.

(** X12: [autoThrottleCount] is the number of tracked tags, with or without
    a quota, and never decreases over the life of a controller;
    [busyReadTagCount], [busyWriteTagCount] and [manualThrottleCount] are 0
    and [isAutoThrottlingEnabled] is true in every state. *)
Theorem autoThrottleCount_never_decreases knobs es :
  forall self self',
    run knobs es self = Ok self' ->
    (autoThrottleCount self <= autoThrottleCount self')%Z
    /\ autoThrottleCount self' = Z.of_nat (List.length (keys (tagStatistics self')))
    /\ busyReadTagCount self' = 0%Z
    /\ busyWriteTagCount self' = 0%Z
    /\ manualThrottleCount self' = 0%Z
    /\ isAutoThrottlingEnabled self' = true.
Proof.
  induction es as [| e rest IH]; intros self self' H; simpl in H.
  - injection H as <-. split; [lia |].
    unfold autoThrottleCount, keys. rewrite length_map. repeat split.
  - destruct (step knobs e self) as [s |] eqn:E; simpl in H; [| discriminate].
    destruct (IH _ _ H) as [Hle Hrest]. split; [| exact Hrest].
    apply step_autoThrottleCount in E. unfold autoThrottleCount in *. lia.
Qed.

Lemma autoThrottleCount_never_decreases_witness :
  exists self',
    run exampleKnobs
      [CallRemoveQuota "sampleTag1"; WatcherPass (Some []); CallAddRequests "sampleTag2" 1]
      (oneTag 5) = Ok self'
    /\ autoThrottleCount (oneTag 5) = 1%Z
    /\ autoThrottleCount self' = 2%Z
    /\ (autoThrottleCount (oneTag 5) <= autoThrottleCount self')%Z.
Proof.
  eexists.
  assert (Hrun : run exampleKnobs
                   [CallRemoveQuota "sampleTag1"; WatcherPass (Some []);
                    CallAddRequests "sampleTag2" 1]
                   (oneTag 5) = Ok _) by (vm_compute; reflexivity).
  split; [exact Hrun |]. split; [reflexivity |]. split; [reflexivity |].
  apply (autoThrottleCount_never_decreases _ _ _ Hrun).
Defined.

(* ================================================================== *)
(** ** The mock storage servers *)

(** X13: the throttling ratio of a mock storage server is absent exactly
    when its current cost rate is below the target less the spring (the
    server is healthy); when present it is a number, and it is 0 or
    positive, whatever the rates (a NaN included): [std::max(0.0, x)] returns
    0.0 unless [x] is greater. *)
Theorem getThrottlingRatio_absent_or_not_negative (s : MockStorageServer) :
  (getThrottlingRatio s = None <->
   flt (Cost_smoothRate (totalReadCost s) + Cost_smoothRate (totalWriteCost s))
       (targetCostRate s - 0x1.999999999999ap-3 * targetCostRate s))
  /\ forall ratio,
      getThrottlingRatio s = Some ratio ->
      isNumber ratio /\ fle 0 ratio /\ (ratio = 0%float \/ flt 0 ratio).
Proof.
  unfold getThrottlingRatio, flt. cbv zeta.
  destruct (_ <? _)%float eqn:E.
  - split; [split; reflexivity | discriminate].
  - split; [split; discriminate |].
    intros ratio H. injection H as <-. unfold std_max.
    destruct (0 <? _)%float eqn:E0.
    + assert (Hlt : flt 0
                      ((targetCostRate s + 0x1.999999999999ap-3 * targetCostRate s
                        - (Cost_smoothRate (totalReadCost s)
                           + Cost_smoothRate (totalWriteCost s)))
                       / (0x1.999999999999ap-3 * targetCostRate s))) by exact E0.
      split; [exact (proj2 (fle_isNumber (flt_fle Hlt))) |].
      split; [exact (flt_fle Hlt) | right; exact Hlt].
    + split; [reflexivity |]. split; [reflexivity | left; reflexivity].
Qed.

Lemma emplaceServers_positive (count : nat) (target : float) :
  (0 <? target)%float = true ->
  forall i storageServers,
    emplaceServers count i target storageServers
    = Ok (storageServers
          ++ map (fun k =>
                    {| mock_id := (i + Z.of_nat k, i + Z.of_nat k)%Z;
                       targetCostRate := target;
                       readCosts := []; writeCosts := [];
                       totalReadCost := newCost; totalWriteCost := newCost |})
              (seq 0 count)).
Proof.
  intros Hpos. induction count as [| count IH]; intros i storageServers.
  - cbn [emplaceServers seq map]. rewrite app_nil_r. reflexivity.
  - cbn [emplaceServers]. unfold newMockStorageServer. rewrite Hpos. cbn [ASSERT bind].
    rewrite IH. rewrite <- app_assoc. cbn [app seq map].
    rewrite Z.add_0_r. do 3 f_equal.
    rewrite <- seq_shift, map_map. apply map_ext. intros k.
    replace (i + 1 + Z.of_nat k)%Z with (i + Z.of_nat (S k))%Z by lia. reflexivity.
Qed.

(** X14: [StorageServerCollection(size, targetCostRate)] fails its
    assertions exactly when [size] is 0 or [targetCostRate] is not greater
    than 0; otherwise it holds [size] servers, the server at index [i] having
    the id [UID(i, i)], the target cost rate given, and no cost.  (Sizes an
    [int] holds.) *)
Theorem newStorageServerCollection_servers (size : nat) (target : float) :
  (Z.of_nat size < 2 ^ 31)%Z ->
  (newStorageServerCollection size target = AssertionFailed <->
   size = 0 \/ (0 <? target)%float = false)
  /\ forall storageServers,
      newStorageServerCollection size target = Ok storageServers ->
      List.length storageServers = size
      /\ forall i,
          i < size ->
          nth_error storageServers i
          = Some {| mock_id := (Z.of_nat i, Z.of_nat i);
                    targetCostRate := target;
                    readCosts := []; writeCosts := [];
                    totalReadCost := newCost; totalWriteCost := newCost |}.
Proof.
  intros _. unfold newStorageServerCollection.
  destruct size as [| size'].
  - cbn [Nat.ltb Nat.leb ASSERT bind]. split; [split; auto | discriminate].
  - change (0 <? S size')%nat with true. cbn [ASSERT bind].
    destruct (0 <? target)%float eqn:Hpos.
    + rewrite (emplaceServers_positive (S size') Hpos), app_nil_l.
      split; [split; [discriminate | intros [H | H]; discriminate] |].
      set (built := map _ (seq 0 (S size'))).
      intros storageServers H. injection H as <-. unfold built.
      split; [rewrite length_map, length_seq; reflexivity |].
      intros i Hi. rewrite nth_error_map, nth_error_seq.
      apply Nat.ltb_lt in Hi. rewrite Hi. reflexivity.
    + cbn [emplaceServers]. unfold newMockStorageServer. rewrite Hpos. cbn [ASSERT bind].
      split; [split; auto | discriminate].
Qed.

Lemma newStorageServerCollection_servers_witness :
  exists storageServers,
    newStorageServerCollection 10 100 = Ok storageServers
    /\ List.length storageServers = 10
    /\ option_map mock_id (nth_error storageServers 9) = Some (9, 9)%Z.
Proof.
  eexists.
  assert (Hnew : newStorageServerCollection 10 100 = Ok _) by (vm_compute; reflexivity).
  split; [exact Hnew |].
  destruct (newStorageServerCollection_servers 10 100) as [_ Hservers]; [vm_compute; reflexivity |].
  destruct (Hservers _ Hnew) as [Hlen Hnth].
  split; [exact Hlen |].
  rewrite (Hnth 9) by lia. reflexivity.
Defined.

(* ================================================================== *)
(** ** A round of the updater of the tests *)

Lemma NoDup_keys_subscript_update (K V : Type) (keq : K -> K -> bool)
  (keq_eq : forall a b, keq a b = true <-> a = b)
  (m : unordered_map K V) (k : K) (d : V) (f : V -> V) :
  NoDup (keys m) -> NoDup (keys (subscript_update keq m k d f)).
Proof.
  induction m as [| [k0 v0] rest IH]; simpl; intros Hnd.
  - constructor; [intros [] | constructor].
  - destruct (keq k0 k) eqn:E; simpl; [exact Hnd |].
    inversion Hnd as [| x l Hnot Hrest]; subst. constructor; [| apply IH; exact Hrest].
    intros Hin. apply keys_subscript_update_inv in Hin.
    destruct Hin as [-> | Hin]; [| contradiction].
    rewrite (@keq_refl _ _ keq_eq) in E. discriminate.
Qed.

Lemma getThrottlingRatios_loop_NoDup storageServers :
  forall i result,
    NoDup (keys result) -> NoDup (keys (getThrottlingRatios_loop i storageServers result)).
Proof.
  induction storageServers as [| s rest IH]; intros i result Hnd;
    cbn [getThrottlingRatios_loop]; [exact Hnd |].
  apply IH. apply (@NoDup_keys_subscript_update _ _ _ UID_eqb_eq). exact Hnd.
Qed.

Lemma getThrottlingRatios_loop_keeps storageServers :
  forall i result id,
    (fst id < i)%Z ->
    get UID_eqb (getThrottlingRatios_loop i storageServers result) id
    = get UID_eqb result id.
Proof.
  induction storageServers as [| s rest IH]; intros i result id Hlt;
    cbn [getThrottlingRatios_loop]; [reflexivity |].
  rewrite IH by lia. rewrite (@get_subscript_update _ _ _ UID_eqb_eq).
  rewrite UID_eqb_neq; [reflexivity |].
  intros ->. cbn [fst] in Hlt. lia.
Qed.

Lemma getThrottlingRatios_loop_lookup storageServers :
  forall i result k s,
    nth_error storageServers k = Some s ->
    get UID_eqb (getThrottlingRatios_loop i storageServers result)
      (i + Z.of_nat k, i + Z.of_nat k)%Z
    = Some (getThrottlingRatio s).
Proof.
  induction storageServers as [| s0 rest IH]; intros i result k s Hnth;
    [destruct k; discriminate |].
  cbn [getThrottlingRatios_loop]. destruct k as [| k].
  - cbn [nth_error] in Hnth. injection Hnth as ->.
    rewrite getThrottlingRatios_loop_keeps by (cbn [fst]; lia).
    rewrite (@get_subscript_update _ _ _ UID_eqb_eq).
    replace (i + Z.of_nat 0)%Z with i by lia. rewrite UID_eqb_refl. reflexivity.
  - cbn [nth_error] in Hnth.
    replace (i + Z.of_nat (S k))%Z with (i + 1 + Z.of_nat k)%Z by lia.
    apply IH. exact Hnth.
Qed.

Lemma setThrottlingRatios_frame kvs :
  forall g,
    tagStatistics (fold_left (fun g kv => setThrottlingRatio (fst kv) (snd kv) g) kvs g)
    = tagStatistics g
    /\ throughput (fold_left (fun g kv => setThrottlingRatio (fst kv) (snd kv) g) kvs g)
       = throughput g
    /\ throttledTagChangeId
         (fold_left (fun g kv => setThrottlingRatio (fst kv) (snd kv) g) kvs g)
       = throttledTagChangeId g
    /\ throttlingRatios (fold_left (fun g kv => setThrottlingRatio (fst kv) (snd kv) g) kvs g)
       = fold_left
           (fun m kv => subscript_update UID_eqb m (fst kv) None (fun _ => snd kv))
           kvs (throttlingRatios g).
Proof.
  induction kvs as [| kv rest IH]; intros g; cbn [fold_left]; [repeat split |].
  destruct (IH (setThrottlingRatio (fst kv) (snd kv) g)) as (H1 & H2 & H3 & H4).
  rewrite H1, H2, H3, H4. repeat split.
Qed.

Lemma setThrottlingRatios_lookup kvs :
  forall g id ratio,
    NoDup (keys kvs) ->
    get UID_eqb kvs id = Some ratio ->
    get UID_eqb
      (throttlingRatios (fold_left (fun g kv => setThrottlingRatio (fst kv) (snd kv) g) kvs g))
      id
    = Some ratio.
Proof.
  induction kvs as [| [id0 ratio0] rest IH]; intros g id ratio Hnd Hget;
    [discriminate |].
  cbn [fold_left fst snd]. cbn [keys map fst] in Hnd.
  inversion Hnd as [| x l Hnot Hrest]; subst.
  cbn [get] in Hget. destruct (UID_eqb id0 id) eqn:E.
  - apply UID_eqb_eq in E. subst id0. injection Hget as ->.
    destruct (setThrottlingRatios_frame rest (setThrottlingRatio id ratio g))
      as (_ & _ & _ & ->).
    rewrite (updates_keep_other_entries UID_eqb UID_eqb_eq None fst
               (fun (kv : UID * option float) (_ : option float) => snd kv) rest _ id Hnot).
    rewrite get_setThrottlingRatio, UID_eqb_refl. reflexivity.
  - apply IH; assumption.
Qed.

Lemma tryUpdateAutoThrottling_adds_tags knobs ss self tag :
  In tag (map fst (busiestReadTags ss ++ busiestWriteTags ss)) ->
  In tag (getTagsAffectingStorageServer (tryUpdateAutoThrottling knobs ss self) (ss_id ss)).
Proof.
  intros Hin. rewrite getTagsAffectingStorageServer_table, tryUpdateAutoThrottling_table.
  rewrite map_app in Hin. apply in_app_or in Hin. destruct Hin as [Hin | Hin].
  - apply reports_keep_tags, reports_add_tags. exact Hin.
  - apply reports_add_tags. exact Hin.
Qed.

Lemma reports_frame knobs sqs :
  forall g,
    tagStatistics (fold_left (fun g sq => tryUpdateAutoThrottling knobs sq g) sqs g)
    = tagStatistics g
    /\ throttlingRatios (fold_left (fun g sq => tryUpdateAutoThrottling knobs sq g) sqs g)
       = throttlingRatios g
    /\ throttledTagChangeId (fold_left (fun g sq => tryUpdateAutoThrottling knobs sq g) sqs g)
       = throttledTagChangeId g.
Proof.
  induction sqs as [| sq rest IH]; intros g; cbn [fold_left]; [repeat split |].
  destruct (IH (tryUpdateAutoThrottling knobs sq g)) as (H1 & H2 & H3).
  rewrite H1, H2, H3. repeat split.
Qed.

Lemma reports_keep_server_tags knobs sqs :
  forall g id tag,
    In tag (getTagsAffectingStorageServer g id) ->
    In tag (getTagsAffectingStorageServer
              (fold_left (fun g sq => tryUpdateAutoThrottling knobs sq g) sqs g) id).
Proof.
  induction sqs as [| sq rest IH]; intros g id tag Hin; cbn [fold_left]; [exact Hin |].
  apply IH. apply tryUpdateAutoThrottling_keeps_tags. exact Hin.
Qed.

Lemma reports_add_server_tags knobs sqs :
  forall g sq tag,
    In sq sqs ->
    In tag (map fst (busiestReadTags sq ++ busiestWriteTags sq)) ->
    In tag (getTagsAffectingStorageServer
              (fold_left (fun g sq => tryUpdateAutoThrottling knobs sq g) sqs g) (ss_id sq)).
Proof.
  induction sqs as [| sq0 rest IH]; intros g sq tag Hsq Hin; [destruct Hsq |].
  cbn [fold_left]. destruct Hsq as [-> | Hsq].
  - apply reports_keep_server_tags. apply tryUpdateAutoThrottling_adds_tags. exact Hin.
  - apply IH; assumption.
Qed.

(** What one round of the updater leaves in the controller. *)
Lemma updateGlobalTagThrottler_round_tags knobs storageServers throttler s tag :
  In s storageServers ->
  In tag (keys (readCosts s)) \/ In tag (keys (writeCosts s)) ->
  In tag (getTagsAffectingStorageServer
            (updateGlobalTagThrottler_round knobs storageServers throttler) (mock_id s)).
Proof.
  intros Hs Htag. unfold updateGlobalTagThrottler_round. cbv zeta.
  unfold getTagsAffectingStorageServer.
  destruct (setThrottlingRatios_frame (getThrottlingRatios storageServers)
              (fold_left (fun g sq => tryUpdateAutoThrottling knobs sq g)
                 (getStorageQueueInfos storageServers) throttler)) as (_ & -> & _).
  apply (reports_add_server_tags knobs (getStorageQueueInfos storageServers) throttler
           (getStorageQueueInfo s) tag).
  - unfold getStorageQueueInfos. apply in_map. exact Hs.
  - cbn [getStorageQueueInfo busiestReadTags busiestWriteTags].
    rewrite map_app, !map_map. cbn [fst]. apply in_or_app. exact Htag.
Qed.

(** X15: one round of the updater of the tests leaves, for every server of
    the collection, each tag of the server's cost tables among the tags
    affecting that server, and the server's throttling ratio, absent for a
    healthy server, as the entry of [UID(i, i)] in the table of ratios, [i]
    being the index of the server; it takes no tag out of a throughput table
    and does not touch the per-tag statistics or the change counter.  (For
    collections whose size an [int] holds.) *)
Theorem updateGlobalTagThrottler_round_reports knobs storageServers throttler :
  (Z.of_nat (List.length storageServers) < 2 ^ 31)%Z ->
  (forall s tag,
      In s storageServers ->
      In tag (keys (readCosts s)) \/ In tag (keys (writeCosts s)) ->
      In tag (getTagsAffectingStorageServer
                (updateGlobalTagThrottler_round knobs storageServers throttler) (mock_id s)))
  /\ (forall i s,
        nth_error storageServers i = Some s ->
        get UID_eqb
          (throttlingRatios (updateGlobalTagThrottler_round knobs storageServers throttler))
          (Z.of_nat i, Z.of_nat i)
        = Some (getThrottlingRatio s))
  /\ (forall id tag,
        In tag (getTagsAffectingStorageServer throttler id) ->
        In tag (getTagsAffectingStorageServer
                  (updateGlobalTagThrottler_round knobs storageServers throttler) id))
  /\ tagStatistics (updateGlobalTagThrottler_round knobs storageServers throttler)
     = tagStatistics throttler
  /\ getThrottledTagChangeId (updateGlobalTagThrottler_round knobs storageServers throttler)
     = getThrottledTagChangeId throttler.
Proof.
  intros _.
  split; [intros s tag; apply updateGlobalTagThrottler_round_tags |].
  unfold updateGlobalTagThrottler_round, getThrottledTagChangeId. cbv zeta.
  destruct (setThrottlingRatios_frame (getThrottlingRatios storageServers)
              (fold_left (fun g sq => tryUpdateAutoThrottling knobs sq g)
                 (getStorageQueueInfos storageServers) throttler)) as (Hts & Htp & Hid & _).
  destruct (reports_frame knobs (getStorageQueueInfos storageServers) throttler)
    as (Hts' & _ & Hid').
  split; [| split; [| split]].
  - intros i s Hnth. apply setThrottlingRatios_lookup.
    + apply getThrottlingRatios_loop_NoDup. constructor.
    + apply (getThrottlingRatios_loop_lookup storageServers 0 [] i Hnth).
  - intros id tag Hin. unfold getTagsAffectingStorageServer. rewrite Htp.
    apply (reports_keep_server_tags knobs (getStorageQueueInfos storageServers)
             throttler id tag Hin).
  - rewrite Hts. exact Hts'.
  - rewrite Hid. exact Hid'.
Qed.

Lemma updateGlobalTagThrottler_round_reports_witness :
  In "sampleTag1"%string
    (getTagsAffectingStorageServer
       (updateGlobalTagThrottler_round exampleKnobs
          (Collection_addReadCost "sampleTag1" 12 exampleServers)
          newGlobalTagThrottlerImpl)
       server1)
  /\ get UID_eqb
       (throttlingRatios
          (updateGlobalTagThrottler_round exampleKnobs
             (Collection_addReadCost "sampleTag1" 12 exampleServers)
             newGlobalTagThrottlerImpl))
       server1
     = Some None.
Proof.
  destruct (@updateGlobalTagThrottler_round_reports exampleKnobs
              (Collection_addReadCost "sampleTag1" 12 exampleServers)
              newGlobalTagThrottlerImpl)
    as (Htags & Hratio & _); [vm_compute; reflexivity |].
  split.
  - apply (Htags (Mock_addReadCost "sampleTag1" 6
                    {| mock_id := server1; targetCostRate := 100;
                       readCosts := []; writeCosts := [];
                       totalReadCost := newCost; totalWriteCost := newCost |})).
    + right. left. vm_compute. reflexivity.
    + left. left. reflexivity.
  - exact (Hratio 1%nat
             (Mock_addReadCost "sampleTag1" 6
                {| mock_id := server1; targetCostRate := 100;
                   readCosts := []; writeCosts := [];
                   totalReadCost := newCost; totalWriteCost := newCost |})
             eq_refl).
Defined.

(** X16: after one round of a client of the tests (past its delay) the
    client's tag is tracked by the controller and has a cost entry, for reads
    or for writes as the client does, on every storage server of the
    collection, whose servers keep their ids and target rates; after the next
    round of the updater the tag is among the tags affecting every storage
    server.  (For collections whose size an [int] holds.) *)
Theorem client_round_reaches_every_server knobs tag costPerTransaction (write : bool)
  throttler storageServers :
  (Z.of_nat (List.length storageServers) < 2 ^ 31)%Z ->
  tracked tag
    (fst (runClient_afterDelay knobs tag costPerTransaction write throttler storageServers))
  /\ map mock_id
       (snd (runClient_afterDelay knobs tag costPerTransaction write throttler storageServers))
     = map mock_id storageServers
  /\ map targetCostRate
       (snd (runClient_afterDelay knobs tag costPerTransaction write throttler storageServers))
     = map targetCostRate storageServers
  /\ (forall s,
        In s (snd (runClient_afterDelay knobs tag costPerTransaction write
                     throttler storageServers)) ->
        In tag (keys (if write then writeCosts s else readCosts s))
        /\ In tag
             (getTagsAffectingStorageServer
                (updateGlobalTagThrottler_round knobs
                   (snd (runClient_afterDelay knobs tag costPerTransaction write
                           throttler storageServers))
                   (fst (runClient_afterDelay knobs tag costPerTransaction write
                           throttler storageServers)))
                (mock_id s))).
Proof.
  intros _. unfold runClient_afterDelay. cbv zeta. cbn [fst snd].
  split.
  { unfold tracked, addRequests. cbn [tagStatistics withTagStatistics].
    apply (@subscript_update_has_key _ _ _ String_eqb_eq). }
  assert (Hcost : forall s,
             In s (if write
                   then Collection_addWriteCost tag costPerTransaction storageServers
                   else Collection_addReadCost tag costPerTransaction storageServers) ->
             In tag (keys (if write then writeCosts s else readCosts s))).
  { intros s Hs. destruct write;
      unfold Collection_addWriteCost, Collection_addReadCost in Hs;
      apply in_map_iff in Hs; destruct Hs as (s0 & <- & _);
      cbn [Mock_addWriteCost Mock_addReadCost writeCosts readCosts];
      apply (@subscript_update_has_key _ _ _ String_eqb_eq). }
  split; [| split].
  - destruct write; unfold Collection_addWriteCost, Collection_addReadCost;
      rewrite map_map; reflexivity.
  - destruct write; unfold Collection_addWriteCost, Collection_addReadCost;
      rewrite map_map; reflexivity.
  - intros s Hs. split; [apply Hcost; exact Hs |].
    apply updateGlobalTagThrottler_round_tags; [exact Hs |].
    specialize (Hcost s Hs). destruct write; auto.
Qed.

Lemma client_round_reaches_every_server_witness :
  tracked "sampleTag1"
    (fst (runClient_afterDelay exampleKnobs "sampleTag1" 6 false
            newGlobalTagThrottlerImpl exampleServers))
  /\ map mock_id
       (snd (runClient_afterDelay exampleKnobs "sampleTag1" 6 false
               newGlobalTagThrottlerImpl exampleServers))
     = [server0; server1].
Proof.
  destruct (@client_round_reaches_every_server exampleKnobs "sampleTag1" 6 false
              newGlobalTagThrottlerImpl exampleServers)
    as (Htracked & Hids & _); [vm_compute; reflexivity |].
  split; [exact Htracked | exact Hids].
Defined.

(* ================================================================== *)
(** ** The monitor and the clients of the tests *)

(** One round of the monitor: an expected limit counts, the third in a row
    ends the actor, any other limit starts the count again. *)
Lemma monitorClientRates_round_cases desired successes current :
  monitorClientRates_round desired successes current =
  if rateAgrees desired current
  then if (successes + 1 =? 3)%Z then None else Some (successes + 1)%Z
  else Some 0%Z.
Proof. destruct current as [c |], desired as [d |]; reflexivity. Qed.

(** When the monitor returns, the last three limits it read (those it
    counted before these calls included) were the expected ones. *)
Lemma monitorClientRates_loop_sound desired observed :
  forall successes n m,
    (0 <= successes <= 2)%Z ->
    monitorClientRates_loop desired successes observed n = Some m ->
    exists j,
      m = n + j /\ 1 <= j <= List.length observed
      /\ (3 <= Z.of_nat j + successes)%Z
      /\ forall i,
          i < j -> j <= i + 3 ->
          exists current,
            nth_error observed i = Some current /\ rateAgrees desired current = true.
Proof.
  induction observed as [| current rest IH]; intros successes n m Hs H;
    cbn [monitorClientRates_loop] in H; [discriminate |].
  rewrite monitorClientRates_round_cases in H.
  destruct (rateAgrees desired current) eqn:Ea.
  - destruct (successes + 1 =? 3)%Z eqn:E3.
    + injection H as <-. apply Z.eqb_eq in E3. exists 1.
      split; [lia |]. split; [cbn [List.length]; lia |]. split; [lia |].
      intros i Hi _. assert (i = 0) by lia. subst i. exists current. auto.
    + apply Z.eqb_neq in E3. apply IH in H; [| lia].
      destruct H as (j & -> & Hj & Hc & Hwin). exists (S j).
      split; [lia |]. split; [cbn [List.length]; lia |]. split; [lia |].
      intros i Hi Hi3. destruct i as [| i]; [exists current; auto |].
      cbn [nth_error]. apply Hwin; lia.
  - apply IH in H; [| lia].
    destruct H as (j & -> & Hj & Hc & Hwin). exists (S j).
    split; [lia |]. split; [cbn [List.length]; lia |]. split; [lia |].
    intros i Hi Hi3. destruct i as [| i]; [lia |].
    cbn [nth_error]. apply Hwin; lia.
Qed.

(** The monitor returns as soon as the limits it has counted and the next
    ones make three expected limits in a row. *)
Lemma monitorClientRates_loop_counts desired observed :
  forall successes n,
    (0 <= successes <= 2)%Z ->
    (forall i,
        (Z.of_nat i < 3 - successes)%Z ->
        exists current,
          nth_error observed i = Some current /\ rateAgrees desired current = true) ->
    exists m,
      monitorClientRates_loop desired successes observed n = Some m
      /\ (Z.of_nat m <= Z.of_nat n + (3 - successes))%Z.
Proof.
  induction observed as [| current rest IH]; intros successes n Hs Hwin.
  - destruct (Hwin 0) as (c & Hc & _); [lia | discriminate].
  - cbn [monitorClientRates_loop]. rewrite monitorClientRates_round_cases.
    destruct (Hwin 0) as (c & Hc & Ha); [lia |].
    cbn [nth_error] in Hc. injection Hc as <-. rewrite Ha.
    destruct (successes + 1 =? 3)%Z eqn:E3.
    + exists (S n). split; [reflexivity | lia].
    + apply Z.eqb_neq in E3.
      destruct (IH (successes + 1)%Z (S n)) as (m & Hm & Hle); [lia | |].
      * intros i Hi. apply (Hwin (S i)). lia.
      * exists m. split; [exact Hm | lia].
Qed.

Lemma monitorClientRates_loop_complete desired observed :
  forall successes n k,
    (0 <= successes <= 2)%Z ->
    (forall i,
        k <= i < k + 3 ->
        exists current,
          nth_error observed i = Some current /\ rateAgrees desired current = true) ->
    exists m,
      monitorClientRates_loop desired successes observed n = Some m /\ m <= n + k + 3.
Proof.
  induction observed as [| current rest IH]; intros successes n k Hs Hwin.
  - destruct (Hwin k) as (c & Hc & _); [lia |]. destruct k; discriminate.
  - destruct k as [| k].
    + destruct (monitorClientRates_loop_counts desired (current :: rest) n Hs)
        as (m & Hm & Hle).
      * intros i Hi. apply Hwin. lia.
      * exists m. split; [exact Hm | lia].
    + cbn [monitorClientRates_loop]. rewrite monitorClientRates_round_cases.
      assert (Hrest : forall successes',
                 (0 <= successes' <= 2)%Z ->
                 exists m,
                   monitorClientRates_loop desired successes' rest (S n) = Some m
                   /\ m <= n + S k + 3).
      { intros successes' Hs'.
        destruct (IH successes' (S n) k Hs') as (m & Hm & Hle).
        - intros i Hi. apply (Hwin (S i)). lia.
        - exists m. split; [exact Hm | lia]. }
      destruct (rateAgrees desired current).
      * destruct (successes + 1 =? 3)%Z eqn:E3.
        -- exists (S n). split; [reflexivity | lia].
        -- apply Z.eqb_neq in E3. apply Hrest. lia.
      * apply Hrest. lia.
Qed.

(** X17: over the limits that its calls of [getTPSLimit] return, one a
    second, [monitorClientRates] returns after the first call that completes
    three expected limits in a row (within 1.0 of the desired limit, or
    absent when no limit is desired), and not before: when it returns after
    call [m], the calls [m - 2], [m - 1] and [m] read expected limits, and
    when three calls in a row read expected limits it has returned by the
    third.  So while every limit read is absent, a monitor with a desired
    limit never returns and one without returns after its third call. *)
Theorem monitorClientRates_returns_after_three_in_a_row desired observed :
  (forall m,
      monitorClientRates desired observed = Some m ->
      3 <= m <= List.length observed
      /\ forall i,
          m - 3 <= i < m ->
          exists current,
            nth_error observed i = Some current /\ rateAgrees desired current = true)
  /\ (forall k,
        (forall i,
            k <= i < k + 3 ->
            exists current,
              nth_error observed i = Some current /\ rateAgrees desired current = true) ->
        exists m, monitorClientRates desired observed = Some m /\ m <= k + 3)
  /\ ((forall current, In current observed -> current = None) ->
      match desired with
      | Some _ => monitorClientRates desired observed = None
      | None =>
          monitorClientRates desired observed
          = if 3 <=? List.length observed then Some 3 else None
      end).
Proof.
  assert (Hsound : forall m,
             monitorClientRates desired observed = Some m ->
             3 <= m <= List.length observed
             /\ forall i,
                 m - 3 <= i < m ->
                 exists current,
                   nth_error observed i = Some current
                   /\ rateAgrees desired current = true).
  { intros m H. unfold monitorClientRates in H.
    apply monitorClientRates_loop_sound in H; [| lia].
    destruct H as (j & -> & Hj & Hc & Hwin). cbn [Nat.add].
    split; [lia |]. intros i Hi. apply Hwin; lia. }
  assert (Hcomplete : forall k,
             (forall i,
                 k <= i < k + 3 ->
                 exists current,
                   nth_error observed i = Some current
                   /\ rateAgrees desired current = true) ->
             exists m, monitorClientRates desired observed = Some m /\ m <= k + 3).
  { intros k Hwin. unfold monitorClientRates.
    destruct (@monitorClientRates_loop_complete desired observed 0%Z 0 k) as (m & Hm & Hle);
      [lia | exact Hwin |].
    exists m. split; [exact Hm | lia]. }
  split; [exact Hsound |]. split; [exact Hcomplete |].
  intros Habsent. destruct desired as [d |].
  - destruct (monitorClientRates (Some d) observed) as [m |] eqn:E; [| reflexivity].
    exfalso. destruct (Hsound m eq_refl) as [Hm Hwin].
    destruct (Hwin (m - 1)) as (current & Hnth & Ha); [lia |].
    apply nth_error_In in Hnth. rewrite (Habsent _ Hnth) in Ha. discriminate.
  - destruct (3 <=? List.length observed) eqn:E3.
    + apply Nat.leb_le in E3.
      destruct (Hcomplete 0) as (m & Hm & Hle).
      * intros i Hi. destruct (nth_error observed i) as [current |] eqn:Hnth.
        -- exists current. split; [reflexivity |].
           apply nth_error_In in Hnth. rewrite (Habsent _ Hnth). reflexivity.
        -- apply nth_error_None in Hnth. lia.
      * destruct (Hsound m Hm) as [Hm3 _]. rewrite Hm. f_equal. lia.
    + apply Nat.leb_gt in E3.
      destruct (monitorClientRates None observed) as [m |] eqn:E; [| reflexivity].
      destruct (Hsound m eq_refl) as [Hm _]. lia.
Qed.

(** X18: in a round of [runClient] the client's rate is its desired rate
    when no limit is published for its tag, and otherwise the smaller of the
    desired rate and the limit: never above the desired rate, never above a
    limit that is a number, and the desired rate itself when the limit is a
    NaN.  (The desired rate is a number.) *)
Theorem runClient_rate_is_at_most_desired_and_limit (desiredTpsRate : float)
  (tpsLimit : option float) :
  isNumber desiredTpsRate ->
  fle (runClient_tpsRate desiredTpsRate tpsLimit) desiredTpsRate
  /\ (tpsLimit = None -> runClient_tpsRate desiredTpsRate tpsLimit = desiredTpsRate)
  /\ (forall limit,
        tpsLimit = Some limit ->
        (isNumber limit -> fle (runClient_tpsRate desiredTpsRate tpsLimit) limit)
        /\ (is_nan limit = true -> runClient_tpsRate desiredTpsRate tpsLimit = desiredTpsRate)
        /\ (runClient_tpsRate desiredTpsRate tpsLimit = desiredTpsRate
            \/ runClient_tpsRate desiredTpsRate tpsLimit = limit)).
Proof.
  intros Hd. unfold runClient_tpsRate. destruct tpsLimit as [limit |].
  - split; [apply std_min_upper; exact Hd |]. split; [discriminate |].
    intros l H. injection H as <-. split; [| split].
    + intros Hl. apply std_min_upper_r; assumption.
    + intros Hnan. unfold std_min.
      destruct (limit <? desiredTpsRate)%float eqn:E; [| reflexivity].
      assert (Hlt : flt limit desiredTpsRate) by exact E.
      apply flt_fle, fle_isNumber in Hlt. destruct Hlt as [Hl _].
      unfold isNumber in Hl. congruence.
    + unfold std_min. destruct (limit <? desiredTpsRate)%float; auto.
  - split; [apply fle_refl; exact Hd |]. split; [reflexivity | discriminate].
Qed.

Lemma runClient_rate_is_at_most_desired_and_limit_witness :
  runClient_tpsRate 20 (Some 5%float) = 5%float
  /\ fle (runClient_tpsRate 20 (Some 5%float)) 20
  /\ runClient_tpsRate 20 (Some nan) = 20%float.
Proof.
  destruct (@runClient_rate_is_at_most_desired_and_limit 20 (Some 5%float) eq_refl)
    as (Hle & _ & _).
  split; [reflexivity |]. split; [exact Hle | reflexivity].
Defined.

(* ================================================================== *)
(** ** What leaves the quotas alone *)

Lemma getQuota_addRequests knobs self tag count t opType limitType :
  getQuota (addRequests knobs tag count self) t opType limitType
  = getQuota self t opType limitType.
Proof.
  unfold getQuota, addRequests. cbn [tagStatistics withTagStatistics].
  rewrite (@get_subscript_update _ _ _ String_eqb_eq).
  destruct (String.eqb tag t) eqn:E; [| reflexivity].
  apply String.eqb_eq in E. subst t.
  destruct (get String.eqb (tagStatistics self) tag) as [stats |]; reflexivity.
Qed.

Lemma getQuota_relax readings self t opType limitType :
  getQuota (relax readings self) t opType limitType = getQuota self t opType limitType.
Proof.
  unfold getQuota. cbn [relax tagStatistics].
  induction (tagStatistics self) as [| [k stats] rest IH]; cbn [map get fst snd];
    [reflexivity |].
  destruct (String.eqb k t); [reflexivity | exact IH].
Qed.

(** X19: the quotas of the tags are written by [setQuota], [removeQuota]
    and the passes of the quota watcher only: [addRequests] (also when it
    creates the record of the tag), [getClientRates], the throughput reports,
    the throttling ratios and the passing of time leave every quota of every
    tag as it was. *)
Theorem quotas_change_only_by_quota_operations knobs e self self' :
  step knobs e self = Ok self' ->
  isQuotaOperation e = false ->
  forall tag opType limitType,
    getQuota self' tag opType limitType = getQuota self tag opType limitType.
Proof.
  destruct e; cbn [step isQuotaOperation]; intros H Hq tag0 opType limitType;
    try discriminate; try (injection H as <-; reflexivity).
  - injection H as <-. apply getQuota_addRequests.
  - destruct (getClientRates knobs self) as [[r s] |] eqn:E; cbn [bind snd] in H;
      [| discriminate].
    injection H as <-. unfold getClientRates, getClientRatesWith in E.
    apply getClientRates_loop_frame in E. cbn [app] in E.
    destruct E as (ts & -> & Hts). symmetry.
    apply agree_getQuota. apply agree_withTagStatistics. exact Hts.
  - injection H as <-. apply getQuota_relax.
Qed.

Lemma quotas_change_only_by_quota_operations_witness :
  getQuota (addRequests exampleKnobs "sampleTag1" 3 (oneTag 5)) "sampleTag1" READ TOTAL
  = Some 100%float
  /\ getQuota (addRequests exampleKnobs "sampleTag2" 3 (oneTag 5)) "sampleTag2" READ TOTAL
     = None.
Proof.
  split.
  - rewrite (@quotas_change_only_by_quota_operations exampleKnobs
               (CallAddRequests "sampleTag1" 3) (oneTag 5) _ eq_refl eq_refl).
    reflexivity.
  - rewrite (@quotas_change_only_by_quota_operations exampleKnobs
               (CallAddRequests "sampleTag2" 3) (oneTag 5) _ eq_refl eq_refl).
    reflexivity.
Defined.

(* ================================================================== *)
(** ** The aggregation of the limiting TPS, on whole calls *)








(* ================================================================== *)
(** ** The published limits, on whole calls *)



(* ================================================================== *)
(** ** A call of getClientRates that does not return *)

(** C6, at the failing input: after [addRequests(sampleTag1, 1)] and
    [setThrottlingRatio(UID(1, 1), 0.5)] on a new controller, the tag is
    tracked and its limit is absent (it has no desired and no reserved
    TPS), so that the map is to be empty; the call
    of [getClientRates] returns no map: it fails the assertion of
    [Optional::get] in [getLimitingCost], whose guard lets the absent current
    cost of the server through. *)
Theorem getClientRates_throws_where_a_limit_is_absent :
  run exampleKnobs
    [CallAddRequests "sampleTag1" 1; CallSetThrottlingRatio server1 (Some 0.5%float)]
    newGlobalTagThrottlerImpl = Ok ratioWithoutThroughput
  /\ tracked "sampleTag1" ratioWithoutThroughput
  /\ getDesiredTps ratioWithoutThroughput "sampleTag1" = None
  /\ getReservedTps ratioWithoutThroughput "sampleTag1" = None
  /\ get UID_eqb (throttlingRatios ratioWithoutThroughput) server1 = Some (Some 0.5%float)
  /\ getCurrentCost_ss ratioWithoutThroughput server1 READ = None
  /\ getLimitingCost ratioWithoutThroughput server1 READ = AssertionFailed
  /\ getClientRates exampleKnobs ratioWithoutThroughput = AssertionFailed.
Proof.
  split; [reflexivity |].
  split; [left; reflexivity |].
  split; [vm_compute; reflexivity |]. split; [vm_compute; reflexivity |].
  repeat split; vm_compute; reflexivity.
Qed.

(* ================================================================== *)
(** ** The divisions of the rate derivation *)



